(** * tmux-orchestrator: the intelligence layer of [advanced_features.py]

  A shallow embedding of the trend analyser, the task-assignment scorer,
  the quality-gate engine and the agent health monitor, with the
  properties of the natural-language specification stated over it.

  Conventions of the embedding.
  - A Python [float] is embedded twice.  Where a property rests only on
    the order and the sign of the numbers computed, which rounding to
    nearest keeps, a float is an exact rational ([Q], compared with
    [==]); rounding, NaN and the infinities have no image there.  Where
    the result depends on rounding itself (which of two nearly equal
    scores is the greater, whether two averages differ), a float is an
    IEEE 754 binary64 value and every operation is the correctly rounded
    one: the modules [Binary64], [RoundedTrend], [RoundedAssignment]
    and [RoundedGates].
  - A Python exception is a value [Raise e] of type [result]; a function
    that can raise returns a [result], and a function that also mutates
    an object returns the mutated state next to it.
  - [datetime.now()] reads a clock the program does not control: the
    k-th read of a run returns [clock k].
  - Collaborators outside the file (the metrics database, tmux) are
    variables of the section that uses them.
  - A [dict] used as a registry is a [gmap]; a [dict] that is iterated
    is an association list in insertion order. *)

From Stdlib Require Import QArith Lqa ZArith Lia List Bool SpecFloat.
From Stdlib Require Import Strings.String Strings.Ascii.
From stdpp Require Import gmap strings.

Local Open Scope Q_scope.

(** ** Python values and exceptions *)

Module Py.

Inductive exn : Type :=
| ZeroDivisionError
| CalledProcessError
| KeyError (key : string)
| Exception (msg : string).

Inductive result (A : Type) : Type :=
| Ok (a : A)
| Raise (e : exn).
Arguments Ok {A} a.
Arguments Raise {A} e.

Definition bind {A B} (r : result A) (k : A -> result B) : result B :=
  match r with
  | Ok a => k a
  | Raise e => Raise e
  end.

(** [a < b] on floats. *)
Definition Qltb (a b : Q) : bool :=
  match a ?= b with
  | Lt => true
  | _ => false
  end.

(** [a <= b] on floats. *)
Definition Qleb (a b : Q) : bool :=
  match a ?= b with
  | Gt => false
  | _ => true
  end.

(** [a == b] on floats. *)
Definition Qeqb (a b : Q) : bool :=
  match a ?= b with
  | Eq => true
  | _ => false
  end.

(** [a / b]: true division raises on a zero divisor. *)
Definition div (a b : Q) : result Q :=
  if Qeqb b 0 then Raise ZeroDivisionError else Ok (a / b).

(** [max(a, b)]: the first argument unless the second is greater. *)
Definition max (a b : Q) : Q := if Qltb a b then b else a.

(** [min(a, b)]: the first argument unless the second is smaller. *)
Definition min (a b : Q) : Q := if Qltb b a then b else a.

(** [sum(l)]: starts from 0 and adds from the left. *)
Definition sum (l : list Q) : Q := fold_left Qplus l 0.

(** [len(l)] as a float divisor. *)
Definition len {A} (l : list A) : Q := inject_Z (Z.of_nat (length l)).

(** [s[n:]]. *)
Fixpoint drop_chars (n : nat) (s : string) : string :=
  match n, s with
  | O, _ => s
  | S _, EmptyString => EmptyString
  | S n', String _ s' => drop_chars n' s'
  end.

(** [s[-n:]] for a positive [n]: the last [n] characters, the whole
    string when it is shorter. *)
Definition last_chars (n : nat) (s : string) : string :=
  drop_chars (String.length s - n) s.

(** [needle in hay] on strings. *)
Fixpoint contains (needle hay : string) : bool :=
  if String.prefix needle hay then true
  else match hay with
       | EmptyString => false
       | String _ rest => contains needle rest
       end.

(** [c.lower()] for a character below code point 256: the letters A to Z
    and the capital letters of Latin-1. *)
Definition lower_char (c : ascii) : ascii :=
  let n := nat_of_ascii c in
  if ((65 <=? n) && (n <=? 90)
      || (192 <=? n) && (n <=? 214)
      || (216 <=? n) && (n <=? 222))%nat
  then ascii_of_nat (n + 32)
  else c.

(** [s.lower()]. *)
Fixpoint lower (s : string) : string :=
  match s with
  | EmptyString => EmptyString
  | String c s' => String (lower_char c) (lower s')
  end.

End Py.

Import Py.

(** ** AdvancedMonitoring: the trend of a sample sequence *)

Module Trend.

(** [AdvancedMonitoring._calculate_trend] in exact arithmetic (the
    rounded one is [RoundedTrend._calculate_trend]).
    [values[:mid_point]] is [firstn] and [values[mid_point:]] is
    [skipn]. *)
Definition _calculate_trend (values : list Q) : result bool :=
  if (length values <? 2)%nat then Ok true
  else
    let mid_point := (length values / 2)%nat in
    bind (div (sum (firstn mid_point values))
              (inject_Z (Z.of_nat mid_point)))
      (fun first_half_avg =>
    bind (div (sum (skipn mid_point values))
              (inject_Z (Z.of_nat (length values - mid_point))))
      (fun second_half_avg =>
    Ok (Qltb first_half_avg second_half_avg))).

(** A row of the [agent_metrics] table as the trend query selects it:
    [(timestamp, response_time, task_completion_rate, quality_score)],
    the three measurements nullable. *)
Record Row : Type := {
  timestamp : Z;
  response_time : option Q;
  task_completion_rate : option Q;
  quality_score : option Q
}.

(** The dictionary [get_agent_performance_trend] returns: either
    [{"error": ...}] or the summary. *)
Inductive TrendData : Type :=
| NoData
| Summary (data_points : nat)
          (avg_response_time avg_completion_rate avg_quality_score : Q)
          (trend_improving : bool)
          (last_update : option Z).

(** [sum(xs) / len(xs) if xs else 0]: the guard keeps the divisor
    positive. *)
Definition avg_or_zero (xs : list Q) : Q :=
  match xs with
  | [] => 0
  | _ => sum xs / len xs
  end.

Section Monitoring.

(** The SQL query of [get_agent_performance_trend]: the rows of one
    agent inside the window, ordered by timestamp, as the database
    answers at interaction [k] of the run; sqlite may raise. *)
Variable fetch : nat -> string -> nat -> result (list Row).

(** [AdvancedMonitoring.get_agent_performance_trend]. *)
Definition get_agent_performance_trend
    (k : nat) (agent_name : string) (days : nat) : result TrendData :=
  bind (fetch k agent_name days) (fun results =>
  match results with
  | [] => Ok NoData
  | _ =>
    let response_times := omap response_time results in
    let completion_rates := omap task_completion_rate results in
    let quality_scores := omap quality_score results in
    bind (_calculate_trend quality_scores) (fun trend =>
    Ok (Summary (length results)
                (avg_or_zero response_times)
                (avg_or_zero completion_rates)
                (avg_or_zero quality_scores)
                trend
                (last (map timestamp results))))
  end).

End Monitoring.

End Trend.

(** ** IntelligentTaskAssignment *)

Module Assignment.

(** A task as the engine reads it: the four [task.get(...)] lookups. *)
Record Task : Type := {
  get_id : option string;
  get_required_skills : option (list (string * Q));
  get_priority : option string;
  get_complexity : option Q
}.

(** An entry of an agent's workload list. *)
Record WorkloadEntry : Type := {
  task_id : option string;
  assigned_at : Z;
  complexity : Q;
  priority : string
}.

(** The engine's registries, and the number of interactions with the
    outside (clock reads, database queries) made so far. *)
Record IntelligentTaskAssignment : Type := {
  agent_capabilities : gmap string (gmap string Q);
  workload_tracker : gmap string (list WorkloadEntry);
  tick : nat
}.

(** [timedelta(hours=24)], in microseconds. *)
Definition retention : Z := 24 * 3600 * 1000000.

(** [task["assigned_at"] > cutoff_time]. *)
Definition is_active (cutoff_time : Z) (task : WorkloadEntry) : bool :=
  (cutoff_time <? assigned_at task)%Z.

(** One iteration of the loop of [_calculate_capability_match]. *)
Definition match_step (agent_caps : gmap string Q)
    (acc : Q * Q) (item : string * Q) : Q * Q :=
  let '(total_match, total_weight) := acc in
  let '(skill, required_level) := item in
  let agent_level := default 0 (agent_caps !! skill) in
  let weight := required_level in
  let match_score :=
    if Qltb 0 required_level
    then min 1 (agent_level / required_level)
    else 1 in
  (total_match + match_score * weight, total_weight + weight).

(** [IntelligentTaskAssignment._calculate_capability_match]. *)
Definition _calculate_capability_match
    (agent_caps : gmap string Q) (task_reqs : list (string * Q)) : Q :=
  match task_reqs with
  | [] => 1
  | _ =>
    let '(total_match, total_weight) :=
      fold_left (match_step agent_caps) task_reqs (0, 0) in
    if Qltb 0 total_weight then total_match / total_weight else 0
  end.

(** The value [_calculate_workload_factor] returns for a summed
    complexity [workload_score]. *)
Definition workload_factor_of (workload_score : Q) : result Q :=
  bind (div 1 (1 + workload_score)) (fun r => Ok (max (1 # 10) r)).

Section Engine.

Variable clock : nat -> Z.
Variable fetch : nat -> string -> nat -> result (list Trend.Row).

(** [IntelligentTaskAssignment._calculate_workload_factor]: prunes
    the agent's list in the tracker (creating it when absent, as a
    [defaultdict] does) before it sums. *)
Definition _calculate_workload_factor
    (agent_name : string) (st : IntelligentTaskAssignment)
    : result Q * IntelligentTaskAssignment :=
  let current_tasks := default [] (workload_tracker st !! agent_name) in
  let cutoff_time := (clock (tick st) - retention)%Z in
  let active_tasks := List.filter (is_active cutoff_time) current_tasks in
  let st' := {| agent_capabilities := agent_capabilities st;
                workload_tracker :=
                  <[agent_name := active_tasks]> (workload_tracker st);
                tick := S (tick st) |} in
  let workload_score := sum (map complexity active_tasks) in
  (workload_factor_of workload_score, st').

(** [IntelligentTaskAssignment._calculate_performance_factor]: any
    exception of the query is swallowed. *)
Definition _calculate_performance_factor
    (agent_name : string) (st : IntelligentTaskAssignment)
    : Q * IntelligentTaskAssignment :=
  let st' := {| agent_capabilities := agent_capabilities st;
                workload_tracker := workload_tracker st;
                tick := S (tick st) |} in
  match Trend.get_agent_performance_trend fetch (tick st) agent_name 3 with
  | Ok (Trend.Summary _ _ _ avg_quality_score _ _) =>
      (max (1 # 10) avg_quality_score, st')
  | Ok Trend.NoData => (8 # 10, st')
  | Raise _ => (8 # 10, st')
  end.

(** The body of the candidate loop up to [total_score]; [None] is the
    [continue] taken for a candidate without capability vector. *)
Definition score_candidate (task_requirements : list (string * Q))
    (agent_name : string) (st : IntelligentTaskAssignment)
    : result (option Q) * IntelligentTaskAssignment :=
  match agent_capabilities st !! agent_name with
  | None => (Ok None, st)
  | Some caps =>
    let capability_score :=
      _calculate_capability_match caps task_requirements in
    match _calculate_workload_factor agent_name st with
    | (Raise e, st1) => (Raise e, st1)
    | (Ok workload_factor, st1) =>
      let '(performance_factor, st2) :=
        _calculate_performance_factor agent_name st1 in
      (Ok (Some (capability_score * performance_factor * workload_factor)),
       st2)
    end
  end.

(** The candidate loop of [assign_optimal_task], carrying
    [best_agent] and [best_score]. *)
Fixpoint score_loop (task_requirements : list (string * Q))
    (agents : list string) (best_agent : option string) (best_score : Q)
    (st : IntelligentTaskAssignment)
    : result (option string * Q) * IntelligentTaskAssignment :=
  match agents with
  | [] => (Ok (best_agent, best_score), st)
  | agent_name :: rest =>
    match score_candidate task_requirements agent_name st with
    | (Raise e, st') => (Raise e, st')
    | (Ok None, st') =>
        score_loop task_requirements rest best_agent best_score st'
    | (Ok (Some total_score), st') =>
        if Qltb best_score total_score
        then score_loop task_requirements rest (Some agent_name)
                        total_score st'
        else score_loop task_requirements rest best_agent best_score st'
    end
  end.

(** Truth value of a string: the empty string is false. *)
Definition truthy (s : string) : bool := negb (String.eqb s "").

(** The workload entry [assign_optimal_task] records. *)
Definition new_entry (task : Task) (now : Z) : WorkloadEntry :=
  {| task_id := get_id task;
     assigned_at := now;
     complexity := default (1 # 2) (get_complexity task);
     priority := default "medium"%string (get_priority task) |}.

(** [workload_tracker[best_agent].append(entry)]. *)
Definition record_assignment (task : Task) (best_agent : string)
    (st : IntelligentTaskAssignment) : IntelligentTaskAssignment :=
  {| agent_capabilities := agent_capabilities st;
     workload_tracker :=
       <[best_agent :=
           default [] (workload_tracker st !! best_agent)
           ++ [new_entry task (clock (tick st))]]> (workload_tracker st);
     tick := S (tick st) |}.

(** [IntelligentTaskAssignment.assign_optimal_task]. *)
Definition assign_optimal_task (task : Task)
    (available_agents : list string) (st : IntelligentTaskAssignment)
    : result (option string) * IntelligentTaskAssignment :=
  match available_agents with
  | [] => (Ok None, st)
  | _ =>
    let task_requirements := default [] (get_required_skills task) in
    match score_loop task_requirements available_agents None 0 st with
    | (Raise e, st') => (Raise e, st')
    | (Ok (None, _), st') => (Ok None, st')
    | (Ok (Some best_agent, _), st') =>
        if truthy best_agent
        then (Ok (Some best_agent), record_assignment task best_agent st')
        else (Ok (Some best_agent), st')
    end
  end.

(** The scores of one run, in candidate order: the pairs
    [(agent_name, total_score)] of the candidates that have a
    capability vector. *)
Fixpoint score_all (task_requirements : list (string * Q))
    (agents : list string) (st : IntelligentTaskAssignment)
    : result (list (string * Q)) * IntelligentTaskAssignment :=
  match agents with
  | [] => (Ok [], st)
  | agent_name :: rest =>
    match score_candidate task_requirements agent_name st with
    | (Raise e, st') => (Raise e, st')
    | (Ok o, st') =>
      match score_all task_requirements rest st' with
      | (Raise e, st'') => (Raise e, st'')
      | (Ok scores, st'') =>
          (Ok (match o with
               | Some total_score => (agent_name, total_score) :: scores
               | None => scores
               end), st'')
      end
    end
  end.

End Engine.

(** Every recorded complexity is non-negative, as the data model of the
    specification has it (complexity in [0,1]). *)
Definition nonneg_workload (st : IntelligentTaskAssignment) : Prop :=
  forall a l e, workload_tracker st !! a = Some l -> In e l ->
                0 <= complexity e.

(** The per-skill match score and the two sums the loop of
    [_calculate_capability_match] accumulates. *)
Definition skill_match (caps : gmap string Q) (item : string * Q) : Q :=
  if Qltb 0 (snd item)
  then min 1 (default 0 (caps !! fst item) / snd item)
  else 1.

Fixpoint match_sum (caps : gmap string Q) (reqs : list (string * Q)) : Q :=
  match reqs with
  | [] => 0
  | item :: rest => skill_match caps item * snd item + match_sum caps rest
  end.

Fixpoint weight_sum (reqs : list (string * Q)) : Q :=
  match reqs with
  | [] => 0
  | item :: rest => snd item + weight_sum rest
  end.

(** The agent's level reaches the level a skill requires. *)
Definition meets (caps : gmap string Q) (item : string * Q) : Prop :=
  0 < snd item -> snd item <= default 0 (caps !! fst item).

(** The update of [best_agent] and [best_score] the loop makes for one
    scored candidate. *)
Definition pick (best : option string * Q) (cand : string * Q)
    : option string * Q :=
  if Qltb (snd best) (snd cand) then (Some (fst cand), snd cand) else best.

(** The candidate has a capability vector. *)
Definition registered (st : IntelligentTaskAssignment)
    (agent_name : string) : bool :=
  match agent_capabilities st !! agent_name with
  | Some _ => true
  | None => false
  end.

(** The agent's workload list, empty when the tracker has none. *)
Definition workload (st : IntelligentTaskAssignment) (agent_name : string)
    : list WorkloadEntry :=
  default [] (workload_tracker st !! agent_name).

(** A score is the product of the capability match of a registered
    agent, a performance factor and a workload factor. *)
Definition is_score (st : IntelligentTaskAssignment) (reqs : list (string * Q))
    (c : string * Q) : Prop :=
  exists caps p w S,
    agent_capabilities st !! fst c = Some caps /\
    1 # 10 <= p /\
    workload_factor_of S = Ok w /\
    snd c = _calculate_capability_match caps reqs * p * w.

(** Example inputs: a database without samples, a stopped clock, a task
    that requires skill x at level 1/2, a task without requirements, an
    engine whose only agent has no skill, and an engine whose only agent
    is registered under the empty name. *)
Definition no_samples : nat -> string -> nat -> result (list Trend.Row) :=
  fun _ _ _ => Ok [].

Definition noon : nat -> Z := fun _ => 0%Z.

Definition needs_x : Task :=
  {| get_id := Some "t1"%string;
     get_required_skills := Some [("x"%string, 1 # 2)];
     get_priority := None;
     get_complexity := None |}.

Definition no_requirements : Task :=
  {| get_id := Some "t2"%string;
     get_required_skills := None;
     get_priority := None;
     get_complexity := None |}.

Definition unskilled_state : IntelligentTaskAssignment :=
  {| agent_capabilities := {[ "a"%string := ∅ ]};
     workload_tracker := ∅;
     tick := 0 |}.

(** The scenario of the specification: agents A and B with the same
    capability, B loaded with two tasks of complexity 1. *)
Definition busy_entry : WorkloadEntry :=
  {| task_id := Some "t0"%string;
     assigned_at := 0;
     complexity := 1;
     priority := "medium" |}.

Definition two_agents_state : IntelligentTaskAssignment :=
  {| agent_capabilities :=
       {[ "A"%string := {[ "x"%string := 9 # 10 ]};
          "B"%string := {[ "x"%string := 9 # 10 ]} ]};
     workload_tracker := {[ "B"%string := [busy_entry; busy_entry] ]};
     tick := 0 |}.

Definition nameless_state : IntelligentTaskAssignment :=
  {| agent_capabilities := {[ ""%string := ∅ ]};
     workload_tracker := ∅;
     tick := 0 |}.


End Assignment.

(** ** AutomatedQualityGates *)

Module QualityGates.

(** The [check_function] of a rule: a context key, or a callable of the
    context that returns a number or raises. *)
Inductive CheckSource : Type :=
| NamedKey (key : string)
| Evaluator (f : gmap string Q -> result Q).

Record QualityRule : Type := {
  name : string;
  check_function : CheckSource;
  severity : string;
  threshold : Q;
  comparison : option string;
  message : option string
}.

(** The message of an outcome: the rule's own, the generated
    ["<name>: <actual> vs <threshold>"], or the text built from a caught
    exception. *)
Inductive Message : Type :=
| RuleMessage (s : string)
| Generated (rule : string) (actual thr : Q)
| ExecutionFailed (e : exn).

(** An outcome record.  The record built for an exception has no
    [actual_value] and no [threshold] key. *)
Record Outcome : Type := {
  rule_name : string;
  status : string;
  actual_value : option Q;
  outcome_threshold : option Q;
  outcome_severity : string;
  outcome_message : Message
}.

(** The dictionary a gate run returns. *)
Record Results : Type := {
  project : string;
  run_timestamp : Z;
  passed : bool;
  checks : list Outcome;
  warnings : list Outcome;
  errors : list Outcome
}.

Record AutomatedQualityGates : Type := {
  quality_rules : list QualityRule;
  quality_history : gmap string (list Results);
  tick : nat
}.

(** [AutomatedQualityGates._evaluate_threshold]. *)
Definition _evaluate_threshold (actual thr : Q) (cmp : string) : bool :=
  if String.eqb cmp ">=" then Qleb thr actual
  else if String.eqb cmp "<=" then Qleb actual thr
  else if String.eqb cmp ">" then Qltb thr actual
  else if String.eqb cmp "<" then Qltb actual thr
  else if String.eqb cmp "==" then Qeqb actual thr
  else true.

(** [AutomatedQualityGates._execute_quality_check]. *)
Definition _execute_quality_check (rule : QualityRule)
    (context : gmap string Q) : result Outcome :=
  bind (match check_function rule with
        | Evaluator f => f context
        | NamedKey key => Ok (default 0 (context !! key))
        end) (fun actual =>
  let ok :=
    _evaluate_threshold actual (threshold rule)
                        (default ">="%string (comparison rule)) in
  Ok {| rule_name := name rule;
        status := if ok then "passed"%string else "failed"%string;
        actual_value := Some actual;
        outcome_threshold := Some (threshold rule);
        outcome_severity := severity rule;
        outcome_message :=
          match message rule with
          | Some m => RuleMessage m
          | None => Generated (name rule) actual (threshold rule)
          end |}).

(** The record the [except] branch of [check_quality_gates] builds. *)
Definition error_result (rule : QualityRule) (e : exn) : Outcome :=
  {| rule_name := name rule;
     status := "error"%string;
     actual_value := None;
     outcome_threshold := None;
     outcome_severity := "error"%string;
     outcome_message := ExecutionFailed e |}.

(** One iteration of the rule loop of [check_quality_gates]. *)
Definition check_step (context : gmap string Q)
    (results : Results) (rule : QualityRule) : Results :=
  match _execute_quality_check rule context with
  | Ok check_result =>
    let with_check :=
      {| project := project results;
         run_timestamp := run_timestamp results;
         passed := passed results;
         checks := checks results ++ [check_result];
         warnings := warnings results;
         errors := errors results |} in
    if String.eqb (status check_result) "failed" then
      if String.eqb (outcome_severity check_result) "error" then
        {| project := project results;
           run_timestamp := run_timestamp results;
           passed := false;
           checks := checks with_check;
           warnings := warnings results;
           errors := errors results ++ [check_result] |}
      else
        {| project := project results;
           run_timestamp := run_timestamp results;
           passed := false;
           checks := checks with_check;
           warnings := warnings results ++ [check_result];
           errors := errors results |}
    else with_check
  | Raise e =>
    {| project := project results;
       run_timestamp := run_timestamp results;
       passed := false;
       checks := checks results;
       warnings := warnings results;
       errors := errors results ++ [error_result rule e] |}
  end.

(** The dictionary [check_quality_gates] starts from. *)
Definition initial_results (project_name : string) (now : Z) : Results :=
  {| project := project_name;
     run_timestamp := now;
     passed := true;
     checks := [];
     warnings := [];
     errors := [] |}.

(** The rule loop of [check_quality_gates]. *)
Definition run_rules (context : gmap string Q) (rules : list QualityRule)
    (results : Results) : Results :=
  fold_left (check_step context) rules results.

Section Gates.

Variable clock : nat -> Z.

(** [AutomatedQualityGates.check_quality_gates]: the run's result and
    the state with the result appended to the project's history. *)
Definition check_quality_gates (project_name : string)
    (context : gmap string Q) (st : AutomatedQualityGates)
    : Results * AutomatedQualityGates :=
  let results :=
    run_rules context (quality_rules st)
              (initial_results project_name (clock (tick st))) in
  (results,
   {| quality_rules := quality_rules st;
      quality_history :=
        <[project_name :=
            default [] (quality_history st !! project_name)
            ++ [results]]> (quality_history st);
      tick := S (tick st) |}).

End Gates.

(** The outcome record one rule produces in a run, wherever the run
    stores it. *)
Definition rule_outcome (context : gmap string Q) (rule : QualityRule)
    : Outcome :=
  match _execute_quality_check rule context with
  | Ok check_result => check_result
  | Raise e => error_result rule e
  end.

(** The evaluator of the rule raises on the context. *)
Definition raises (context : gmap string Q) (rule : QualityRule)
    (e : exn) : Prop :=
  exists f, check_function rule = Evaluator f /\ f context = Raise e.

(** The comparison operators [_evaluate_threshold] knows. *)
Definition recognized (cmp : string) : Prop :=
  In cmp [">="; "<="; ">"; "<"; "=="]%string.

(** The records one outcome adds to each list of the result. *)
Definition to_checks (o : Outcome) : list Outcome :=
  if String.eqb (status o) "error" then [] else [o].

Definition to_errors (o : Outcome) : list Outcome :=
  if String.eqb (status o) "error"
     || (String.eqb (status o) "failed"
         && String.eqb (outcome_severity o) "error")
  then [o] else [].

(** What one iteration of the rule loop does with the outcome of its
    rule. *)
Definition add_outcome (results : Results) (o : Outcome) : Results :=
  {| project := project results;
     run_timestamp := run_timestamp results;
     passed := passed results && String.eqb (status o) "passed";
     checks := checks results ++ to_checks o;
     warnings := warnings results
                 ++ (if String.eqb (status o) "failed"
                        && negb (String.eqb (outcome_severity o) "error")
                     then [o] else []);
     errors := errors results ++ to_errors o |}.

(** A rule whose evaluator raises, a rule compared with an operator the
    engine does not know, and states that register them. *)
Definition raising_rule : QualityRule :=
  {| name := "lint";
     check_function := Evaluator (fun _ => Raise (Exception "boom"));
     severity := "warning";
     threshold := 0;
     comparison := None;
     message := None |}.

Definition odd_operator_rule : QualityRule :=
  {| name := "coverage";
     check_function := NamedKey "test_coverage";
     severity := "error";
     threshold := 85;
     comparison := Some "!="%string;
     message := None |}.

Definition raising_state : AutomatedQualityGates :=
  {| quality_rules := [raising_rule];
     quality_history := ∅;
     tick := 0 |}.

Definition odd_operator_state : AutomatedQualityGates :=
  {| quality_rules := [odd_operator_rule];
     quality_history := ∅;
     tick := 0 |}.

(** The records one outcome adds to [warnings]. *)
Definition to_warnings (o : Outcome) : list Outcome :=
  if String.eqb (status o) "failed"
     && negb (String.eqb (outcome_severity o) "error")
  then [o] else [].

(** The dictionary handed to [add_quality_rule]: any of its keys may be
    missing. *)
Record RuleDict : Type := {
  dict_name : option string;
  dict_check_function : option CheckSource;
  dict_severity : option string;
  dict_threshold : option Q;
  dict_comparison : option string;
  dict_message : option string
}.

(** The [ValueError] of [add_quality_rule] ([ValueError] is an
    [Exception]). *)
Definition missing_fields : exn :=
  Exception
    "Quality rule must have fields: ['name', 'check_function', 'severity', 'threshold']".

(** The rule a dictionary with the four required keys stands for. *)
Definition rule_of_dict (rule : RuleDict) : option QualityRule :=
  match dict_name rule, dict_check_function rule,
        dict_severity rule, dict_threshold rule with
  | Some n, Some c, Some sev, Some t =>
      Some {| name := n;
              check_function := c;
              severity := sev;
              threshold := t;
              comparison := dict_comparison rule;
              message := dict_message rule |}
  | _, _, _, _ => None
  end.

(** [AutomatedQualityGates.add_quality_rule]. *)
Definition add_quality_rule (rule : RuleDict) (st : AutomatedQualityGates)
    : result unit * AutomatedQualityGates :=
  match rule_of_dict rule with
  | Some r =>
      (Ok tt,
       {| quality_rules := quality_rules st ++ [r];
          quality_history := quality_history st;
          tick := tick st |})
  | None => (Raise missing_fields, st)
  end.

(** [AutomatedQualityGates.__init__]. *)
Definition new_gates : AutomatedQualityGates :=
  {| quality_rules := [];
     quality_history := ∅;
     tick := 0 |}.

(** The three dictionaries of
    [AdvancedOrchestrator.setup_default_quality_rules]. *)
Definition test_coverage_rule : RuleDict :=
  {| dict_name := Some "Test Coverage"%string;
     dict_check_function := Some (NamedKey "test_coverage");
     dict_severity := Some "warning"%string;
     dict_threshold := Some (85 # 1);
     dict_comparison := Some ">="%string;
     dict_message := Some "Test coverage below minimum threshold"%string |}.

Definition response_time_rule : RuleDict :=
  {| dict_name := Some "API Response Time"%string;
     dict_check_function := Some (NamedKey "avg_response_time");
     dict_severity := Some "error"%string;
     dict_threshold := Some (200 # 1);
     dict_comparison := Some "<="%string;
     dict_message :=
       Some "API response time exceeds acceptable limit"%string |}.

Definition security_rule : RuleDict :=
  {| dict_name := Some "Security Vulnerabilities"%string;
     dict_check_function := Some (NamedKey "security_vulnerabilities");
     dict_severity := Some "error"%string;
     dict_threshold := Some 0;
     dict_comparison := Some "=="%string;
     dict_message := Some "Security vulnerabilities detected"%string |}.

(** [AdvancedOrchestrator.setup_default_quality_rules] on the gates the
    constructor has just created: three calls of [add_quality_rule]. *)
Definition setup_default_quality_rules (st : AutomatedQualityGates)
    : AutomatedQualityGates :=
  snd (add_quality_rule security_rule
         (snd (add_quality_rule response_time_rule
                 (snd (add_quality_rule test_coverage_rule st))))).

(** A recommendation of [generate_recommendations]: the text
    ["Consider additional training or support for <agent> - quality score
    below threshold"], the text ["Address quality issue: <message>"], or
    ["Project health looks good - continue current practices"]. *)
Inductive Recommendation : Type :=
| SupportAgent (agent_name : string)
| AddressIssue (msg : Message)
| LooksGood.

(** The recommendation for one entry of [agent_performance]: only a
    summary has the key [avg_quality_score]. *)
Definition agent_recommendation (entry : string * Trend.TrendData)
    : list Recommendation :=
  match snd entry with
  | Trend.Summary _ _ _ avg_quality_score _ _ =>
      if Qltb avg_quality_score (7 # 10) then [SupportAgent (fst entry)]
      else []
  | Trend.NoData => []
  end.

(** [AdvancedOrchestrator.generate_recommendations] on the report data:
    [agent_performance] in insertion order and [quality_status], absent
    when the report has no such key. *)
Definition generate_recommendations
    (agent_performance : list (string * Trend.TrendData))
    (quality_status : option Results) : list Recommendation :=
  let for_agents := flat_map agent_recommendation agent_performance in
  let for_quality :=
    match quality_status with
    | Some status =>
        if passed status then []
        else map (fun error => AddressIssue (outcome_message error))
                 (errors status)
    | None => []
    end in
  match for_agents ++ for_quality with
  | [] => [LooksGood]
  | recommendations => recommendations
  end.

End QualityGates.

(** ** AgentHealthMonitor *)

Module Health.

(** The [health_config] dictionary, read with [config.get]. *)
Record HealthConfig : Type := {
  get_max_failures : option Z;
  get_recovery_strategy : option string
}.

(** The per-agent dictionary of [health_checks]. *)
Record HealthInfo : Type := {
  target : string;
  last_response : Z;
  consecutive_failures : Z;
  config : HealthConfig
}.

(** What the monitor does to the outside, in order. *)
Inductive Event : Type :=
| SendMessage (tgt msg : string)
| CapturePane (tgt : string)
| Run (argv : list string)
| Sleep (seconds : nat)
| Now.

Record AgentHealthMonitor : Type := {
  health_checks : gmap string HealthInfo;
  tick : nat;
  log : list Event
}.

Definition emit (ev : Event) (st : AgentHealthMonitor) : AgentHealthMonitor :=
  {| health_checks := health_checks st;
     tick := S (tick st);
     log := log st ++ [ev] |}.

(** [health_info["consecutive_failures"] += 1]. *)
Definition add_failure (agent_name : string) (st : AgentHealthMonitor)
    : AgentHealthMonitor :=
  {| health_checks :=
       alter (fun hi => {| target := target hi;
                           last_response := last_response hi;
                           consecutive_failures :=
                             (consecutive_failures hi + 1)%Z;
                           config := config hi |})
             agent_name (health_checks st);
     tick := tick st;
     log := log st |}.

(** [last_response = now; consecutive_failures = 0]. *)
Definition mark_responsive (agent_name : string) (now : Z)
    (st : AgentHealthMonitor)
    : AgentHealthMonitor :=
  {| health_checks :=
       alter (fun hi => {| target := target hi;
                           last_response := now;
                           consecutive_failures := 0%Z;
                           config := config hi |})
             agent_name (health_checks st);
     tick := tick st;
     log := log st |}.

Definition health_check_msg : string :=
  "Health check: Please respond with 'HEALTHY' to confirm you're operating normally.".

Definition reinit_msg (agent_name : string) : string :=
  ("You are being restarted due to health check failure. Please resume your role as "
     ++ agent_name ++ " and continue your assigned tasks.")%string.

Definition interrupt_argv (tgt : string) : list string :=
  ["tmux"; "send-keys"; "-t"; tgt; "C-c"]%string.

Definition relaunch_argv (tgt : string) : list string :=
  ["tmux"; "send-keys"; "-t"; tgt;
   "claude --dangerously-skip-permissions"; "Enter"]%string.

(** The health states of the specification. *)
Inductive AgentState : Type := Healthy | Suspect | Unhealthy.

(** Modelled from the spec: the state of an agent.  The file keeps no
    state field, only the failure counter; section 4.1 of the
    specification reads the state off the counter: [Healthy] at 0,
    [Suspect] below [max_failures], [Unhealthy] from there on. *)
Definition health_state (hi : HealthInfo) : AgentState :=
  if (consecutive_failures hi =? 0)%Z then Healthy
  else if (consecutive_failures hi
           <? default 3%Z (get_max_failures (config hi)))%Z then Suspect
  else Unhealthy.

Section Monitor.

Variable clock : nat -> Z.
(** [tmux_manager.send_message], [tmux_manager.capture_pane] and
    [subprocess.run(..., check=True)] as they answer at interaction
    [k]. *)
Variable send_message : nat -> string -> string -> result bool.
Variable capture_pane : nat -> string -> result string.
Variable subprocess_run : nat -> list string -> result unit.

(** [AgentHealthMonitor.check_agent_health]. *)
Definition check_agent_health (agent_name : string) (st : AgentHealthMonitor)
    : bool * AgentHealthMonitor :=
  match health_checks st !! agent_name with
  | None => (false, st)
  | Some health_info =>
    let tgt := target health_info in
    let st1 := emit (SendMessage tgt health_check_msg) st in
    match send_message (tick st) tgt health_check_msg with
    | Raise _ => (false, add_failure agent_name st1)
    | Ok false => (false, add_failure agent_name st1)
    | Ok true =>
      let st2 := emit (Sleep 5) st1 in
      let st3 := emit (CapturePane tgt) st2 in
      match capture_pane (tick st2) tgt with
      | Raise _ => (false, add_failure agent_name st3)
      | Ok recent_output =>
        if contains "HEALTHY" (last_chars 500 recent_output)
        then (true,
              mark_responsive agent_name (clock (tick st3)) (emit Now st3))
        else (false, add_failure agent_name st3)
      end
    end
  end.

(** [AgentHealthMonitor.restart_agent]: everything after the lookup
    of the agent sits in one [try]; the [except] branch only logs. *)
Definition restart_agent (agent_name : string) (st : AgentHealthMonitor)
    : result unit * AgentHealthMonitor :=
  match health_checks st !! agent_name with
  | None => (Raise (KeyError agent_name), st)
  | Some health_info =>
    let tgt := target health_info in
    let st1 := emit (Run (interrupt_argv tgt)) st in
    match subprocess_run (tick st) (interrupt_argv tgt) with
    | Raise _ => (Ok tt, st1)
    | Ok _ =>
      let st2 := emit (Sleep 2) st1 in
      let st3 := emit (Run (relaunch_argv tgt)) st2 in
      match subprocess_run (tick st2) (relaunch_argv tgt) with
      | Raise _ => (Ok tt, st3)
      | Ok _ =>
        let st4 := emit (Sleep 5) st3 in
        let st5 := emit (SendMessage tgt (reinit_msg agent_name)) st4 in
        match send_message (tick st4) tgt (reinit_msg agent_name) with
        | Raise _ => (Ok tt, st5)
        | Ok _ =>
          (Ok tt,
           mark_responsive agent_name (clock (tick st5)) (emit Now st5))
        end
      end
    end
  end.

(** The registry of custom recovery functions. *)
Variable recovery_strategies :
  gmap string
       (string -> AgentHealthMonitor -> result unit * AgentHealthMonitor).

(** [AgentHealthMonitor.handle_unhealthy_agent]. *)
Definition handle_unhealthy_agent (agent_name : string)
    (st : AgentHealthMonitor)
    : result unit * AgentHealthMonitor :=
  match health_checks st !! agent_name with
  | None => (Raise (KeyError agent_name), st)
  | Some health_info =>
    let failures := consecutive_failures health_info in
    let max_failures :=
      default 3%Z (get_max_failures (config health_info)) in
    if (max_failures <=? failures)%Z then
      let recovery_strategy :=
        default "restart"%string
                (get_recovery_strategy (config health_info)) in
      if String.eqb recovery_strategy "restart"
      then restart_agent agent_name st
      else if String.eqb recovery_strategy "notify_only"
      then (Ok tt, st)
      else match recovery_strategies !! recovery_strategy with
           | Some handler => handler agent_name st
           | None => (Ok tt, st)
           end
    else (Ok tt, st)
  end.

(** The body of the loop of [check_all_agents] for one agent: an
    exception of the recovery is caught and logged. *)
Definition check_one (agent_name : string) (st : AgentHealthMonitor)
    : AgentHealthMonitor :=
  let '(is_healthy, st1) := check_agent_health agent_name st in
  if is_healthy then st1
  else snd (handle_unhealthy_agent agent_name st1).

End Monitor.

(** The three steps of a restart go through without an exception: the
    interrupt, the relaunch and the delivery of the reinitialization
    message (delivered or not). *)
Definition steps_complete
    (send_message : nat -> string -> string -> result bool)
    (subprocess_run : nat -> list string -> result unit)
    (agent_name : string) (health_info : HealthInfo)
    (st : AgentHealthMonitor) : Prop :=
  (exists u, subprocess_run (tick st) (interrupt_argv (target health_info))
             = Ok u) /\
  (exists u, subprocess_run (2 + tick st)%nat
                            (relaunch_argv (target health_info)) = Ok u) /\
  (exists b, send_message (4 + tick st)%nat (target health_info)
                          (reinit_msg agent_name) = Ok b).

(** An event that probes liveness: the health-check message or a
    capture of the pane. *)
Definition is_probe (ev : Event) : bool :=
  match ev with
  | SendMessage _ msg => String.eqb msg health_check_msg
  | CapturePane _ => true
  | _ => false
  end.

(** The marker occurs in [s] at offset [i], entirely inside [s]. *)
Definition occurs_at (marker s : string) (i : nat) : Prop :=
  (i + String.length marker <= String.length s)%nat /\
  substring i (String.length marker) s = marker.

(** An agent registered with three failures behind it, and answers of
    the outside used in the examples. *)
Definition dev_info : HealthInfo :=
  {| target := "demo:1";
     last_response := 0;
     consecutive_failures := 3;
     config := {| get_max_failures := Some 2%Z;
                  get_recovery_strategy := Some "restart"%string |} |}.

Definition dev_state : AgentHealthMonitor :=
  {| health_checks := {[ "dev"%string := dev_info ]};
     tick := 0;
     log := [] |}.

Definition always_sent : nat -> string -> string -> result bool :=
  fun _ _ _ => Ok true.

Definition always_fails : nat -> list string -> result unit :=
  fun _ _ => Raise CalledProcessError.

Definition always_runs : nat -> list string -> result unit :=
  fun _ _ => Ok tt.

Fixpoint padding (n : nat) : string :=
  match n with
  | O => EmptyString
  | S n' => String "."%char (padding n')
  end.

(** [AgentHealthMonitor.register_agent]. *)
Definition register_agent (clock : nat -> Z) (agent_name : string)
    (session_target : string) (health_config : HealthConfig)
    (st : AgentHealthMonitor) : AgentHealthMonitor :=
  {| health_checks :=
       <[agent_name := {| target := session_target;
                          last_response := clock (tick st);
                          consecutive_failures := 0%Z;
                          config := health_config |}]> (health_checks st);
     tick := S (tick st);
     log := log st ++ [Now] |}.


(** The monitor after a run of events. *)
Definition extend (st : AgentHealthMonitor) (evs : list Event)
    : AgentHealthMonitor :=
  {| health_checks := health_checks st;
     tick := (length evs + tick st)%nat;
     log := log st ++ evs |}.

(** The events of one liveness probe: the message alone when it is not
    delivered, then the wait and the capture, then the clock read of a
    match. *)
Definition probe_undelivered (tgt : string) : list Event :=
  [SendMessage tgt health_check_msg].

Definition probe_unanswered (tgt : string) : list Event :=
  [SendMessage tgt health_check_msg; Sleep 5; CapturePane tgt].

Definition probe_answered (tgt : string) : list Event :=
  [SendMessage tgt health_check_msg; Sleep 5; CapturePane tgt; Now].

(** The events of a restart whose three steps go through. *)
Definition restart_events (agent_name tgt : string) : list Event :=
  [Run (interrupt_argv tgt); Sleep 2; Run (relaunch_argv tgt); Sleep 5;
   SendMessage tgt (reinit_msg agent_name); Now].


(** The number of liveness probes sent in an event list. *)
Definition probes_sent (evs : list Event) : nat :=
  length (List.filter
            (fun ev => match ev with
                       | SendMessage _ msg => String.eqb msg health_check_msg
                       | _ => false
                       end) evs).

(** The tmux commands issued in an event list. *)
Definition commands_run (evs : list Event) : list Event :=
  List.filter (fun ev => match ev with Run _ => true | _ => false end) evs.

End Health.

(** ** orchestrator.py: TmuxManager, AgentManager, ProjectOrchestrator *)

Module Orchestrator.

Section Tmux.

(** [Path(__file__).parent / "send-claude-message.sh"]. *)
Variable script_path : string.
(** [subprocess.run(argv, check=True)], and the [stdout] of
    [subprocess.run(argv, capture_output=True, text=True, check=True)],
    as they answer at interaction [k]. *)
Variable subprocess_run : nat -> list string -> result unit.
Variable subprocess_output : nat -> list string -> result string.

(** [TmuxManager.send_message]: only [CalledProcessError] is caught. *)
Definition send_message (k : nat) (tgt msg : string) : result bool :=
  match subprocess_run k [script_path; tgt; msg] with
  | Ok _ => Ok true
  | Raise CalledProcessError => Ok false
  | Raise e => Raise e
  end.

(** [TmuxManager.capture_pane]. *)
Definition capture_pane (k : nat) (tgt : string) : result string :=
  match subprocess_output
          k ["tmux"; "capture-pane"; "-t"; tgt; "-p"]%string with
  | Ok stdout => Ok stdout
  | Raise CalledProcessError => Ok ""%string
  | Raise e => Raise e
  end.

End Tmux.

(** An entry of [AgentManager.active_agents], with the keys the
    functions below read or compare ([config] is stored and never
    read by them). *)
Record ActiveAgent : Type := {
  agent_type : string;
  session : string;
  window : string;
  agent_target : string;
  project_path : string;
  deployed_at : Z;
  last_check : Z
}.

(** The dictionary [AgentManager.check_agent_health] returns for an
    active agent; [has_errors] is a key that is present or not. *)
Record HealthStatus : Type := {
  status : string;
  last_activity : Z;
  responsive : bool;
  recent_output_length : nat;
  uptime : Z;
  has_errors : bool
}.

Inductive HealthReport : Type :=
| NotFound
| Found (health_status : HealthStatus).

Section Manager.

Variable clock : nat -> Z.
Variable capture : nat -> string -> result string.

(** [AgentManager.check_agent_health]: the pane is captured at
    interaction [k] and the clock read at [k + 1]. *)
Definition check_agent_health (k : nat) (agent_name : string)
    (active_agents : gmap string ActiveAgent) : result HealthReport :=
  match active_agents !! agent_name with
  | None => Ok NotFound
  | Some agent =>
    bind (capture k (agent_target agent)) (fun recent_output =>
    let inactive :=
      (String.length recent_output =? 0)%nat
      || (String.length recent_output <? 10)%nat in
    let erroneous :=
      contains "error" (lower recent_output)
      || contains "exception" (lower recent_output) in
    Ok (Found
          {| status := if erroneous then "error"%string
                       else if inactive then "inactive"%string
                       else "healthy"%string;
             last_activity := last_check agent;
             responsive := negb inactive;
             recent_output_length := String.length recent_output;
             uptime := (clock (S k) - deployed_at agent)%Z;
             has_errors := erroneous |}))
  end.

End Manager.

(** [f"claude-{project_name}"]. *)
Definition session_of (project_name : string) : string :=
  ("claude-" ++ project_name)%string.

(** The first loop of [cleanup_project]: the names of the agents of the
    session. *)
Definition agents_to_remove (session_name : string)
    (active_agents : gmap string ActiveAgent) : list string :=
  map fst (List.filter
             (fun entry => String.eqb (session (snd entry)) session_name)
             (map_to_list active_agents)).

(** [ProjectOrchestrator.cleanup_project]: the agents are removed before
    the session is killed; a [CalledProcessError] of the kill is only
    reported. *)
Definition cleanup_project
    (subprocess_run : nat -> list string -> result unit)
    (k : nat) (project_name : string)
    (active_agents : gmap string ActiveAgent)
    : result unit * gmap string ActiveAgent :=
  let session_name := session_of project_name in
  let remaining :=
    fold_left (fun agents agent_name => delete agent_name agents)
              (agents_to_remove session_name active_agents)
              active_agents in
  match subprocess_run
          k ["tmux"; "kill-session"; "-t"; session_name]%string with
  | Ok _ => (Ok tt, remaining)
  | Raise CalledProcessError => (Ok tt, remaining)
  | Raise e => (Raise e, remaining)
  end.

End Orchestrator.

(** ** IEEE 754 binary64, the [float] of CPython *)

Module Binary64.

(** A binary64 value: a signed zero, a signed infinity, NaN, or
    [(-1)^s * m * 2^e]. *)
Definition float : Type := spec_float.

Definition prec : Z := 53.
Definition emax : Z := 1024.

(** [a + b], [a * b] and the quotient of [a / b], each correctly rounded
    to nearest, ties to even. *)
Definition add (a b : float) : float := SFadd prec emax a b.
Definition mul (a b : float) : float := SFmul prec emax a b.
Definition div (a b : float) : float := SFdiv prec emax a b.

(** [a < b], [a <= b] and [a == b]: all false when an operand is NaN. *)
Definition ltb (a b : float) : bool := SFltb a b.
Definition leb (a b : float) : bool := SFleb a b.
Definition eqb (a b : float) : bool := SFeqb a b.

(** The float of an integer. *)
Definition of_Z (n : Z) : float := binary_normalize prec emax n 0 false.
Definition of_nat (n : nat) : float := of_Z (Z.of_nat n).


(** [0.0] (also the image of the integer [0]) and [1.0]. *)
Definition zero : float := S754_zero false.
Definition one : float := of_Z 1.

(** The decimal literal [n/d] for integers that are floats themselves:
    the float nearest to the quotient. *)
Definition literal (n d : Z) : float := div (of_Z n) (of_Z d).

(** [a / b] for floats: raises on a zero divisor. *)
Definition truediv (a b : float) : result float :=
  if eqb b zero then Raise ZeroDivisionError else Ok (div a b).

(** [a / n] for an integer [n]: raises on [n == 0]; a non-zero integer
    is converted to a non-zero float. *)
Definition div_int (a : float) (n : nat) : result float :=
  if (n =? 0)%nat then Raise ZeroDivisionError else Ok (div a (of_nat n)).

(** [max(a, b)]: the first argument unless the second is greater. *)
Definition max (a b : float) : float := if ltb a b then b else a.

(** [min(a, b)]: the first argument unless the second is smaller. *)
Definition min (a b : float) : float := if ltb b a then b else a.

(** [sum(l)]: starts from 0 and adds from the left, every addition
    rounded (CPython up to 3.11; from 3.12 on the additions carry a
    compensation term). *)
Definition sum (l : list float) : float := fold_left add l zero.

End Binary64.

(** ** AdvancedMonitoring in binary64 *)

Module RoundedTrend.
Import Binary64.

(** [AdvancedMonitoring._calculate_trend] on floats: the two sums and
    the two quotients are rounded. *)
Definition _calculate_trend (values : list float) : result bool :=
  if (length values <? 2)%nat then Ok true
  else
    let mid_point := (length values / 2)%nat in
    bind (div_int (sum (firstn mid_point values)) mid_point)
      (fun first_half_avg =>
    bind (div_int (sum (skipn mid_point values))
                  (length values - mid_point))
      (fun second_half_avg =>
    Ok (ltb first_half_avg second_half_avg))).

(** The average the specification speaks of, as the code computes it. *)
Definition average (l : list float) : float :=
  div (sum l) (of_nat (length l)).

(** A row of the [agent_metrics] table as the trend query selects it. *)
Record Row : Type := {
  timestamp : Z;
  response_time : option float;
  task_completion_rate : option float;
  quality_score : option float
}.

(** The dictionary [get_agent_performance_trend] returns. *)
Inductive TrendData : Type :=
| NoData
| Summary (data_points : nat)
          (avg_response_time avg_completion_rate avg_quality_score : float)
          (trend_improving : bool)
          (last_update : option Z).

(** [sum(xs) / len(xs) if xs else 0]. *)
Definition avg_or_zero (xs : list float) : result float :=
  match xs with
  | [] => Ok zero
  | _ => div_int (sum xs) (length xs)
  end.

Section Monitoring.

Variable fetch : nat -> string -> nat -> result (list Row).

(** [AdvancedMonitoring.get_agent_performance_trend]. *)
Definition get_agent_performance_trend
    (k : nat) (agent_name : string) (days : nat) : result TrendData :=
  bind (fetch k agent_name days) (fun results =>
  match results with
  | [] => Ok NoData
  | _ =>
    let response_times := omap response_time results in
    let completion_rates := omap task_completion_rate results in
    let quality_scores := omap quality_score results in
    bind (avg_or_zero response_times) (fun avg_response_time =>
    bind (avg_or_zero completion_rates) (fun avg_completion_rate =>
    bind (avg_or_zero quality_scores) (fun avg_quality_score =>
    bind (_calculate_trend quality_scores) (fun trend =>
    Ok (Summary (length results)
                avg_response_time
                avg_completion_rate
                avg_quality_score
                trend
                (last (map timestamp results)))))))
  end).

End Monitoring.

(** Two samples of one agent, the first without measurements. *)
Definition sample_rows : list Row :=
  [ {| timestamp := 1; response_time := None;
       task_completion_rate := None; quality_score := None |};
    {| timestamp := 2; response_time := Some (literal 3 2);
       task_completion_rate := Some (literal 9 10);
       quality_score := Some (literal 6 10) |} ].

End RoundedTrend.

(** ** IntelligentTaskAssignment in binary64 *)

Module RoundedAssignment.
Import Binary64.

Record Task : Type := {
  get_id : option string;
  get_required_skills : option (list (string * float));
  get_priority : option string;
  get_complexity : option float
}.

Record WorkloadEntry : Type := {
  task_id : option string;
  assigned_at : Z;
  complexity : float;
  priority : string
}.

Record IntelligentTaskAssignment : Type := {
  agent_capabilities : gmap string (gmap string float);
  workload_tracker : gmap string (list WorkloadEntry);
  tick : nat
}.

(** [timedelta(hours=24)], in microseconds. *)
Definition retention : Z := 24 * 3600 * 1000000.

(** [task["assigned_at"] > cutoff_time]. *)
Definition is_active (cutoff_time : Z) (task : WorkloadEntry) : bool :=
  (cutoff_time <? assigned_at task)%Z.

(** One iteration of the loop of [_calculate_capability_match]; the
    guard [required_level > 0] keeps the divisor from zero. *)
Definition match_step (agent_caps : gmap string float)
    (acc : float * float) (item : string * float) : float * float :=
  let '(total_match, total_weight) := acc in
  let '(skill, required_level) := item in
  let agent_level := default zero (agent_caps !! skill) in
  let weight := required_level in
  let match_score :=
    if ltb zero required_level
    then min one (div agent_level required_level)
    else one in
  (add total_match (mul match_score weight), add total_weight weight).

(** [IntelligentTaskAssignment._calculate_capability_match]. *)
Definition _calculate_capability_match
    (agent_caps : gmap string float) (task_reqs : list (string * float))
    : float :=
  match task_reqs with
  | [] => one
  | _ =>
    let '(total_match, total_weight) :=
      fold_left (match_step agent_caps) task_reqs (zero, zero) in
    if ltb zero total_weight then div total_match total_weight else zero
  end.

(** The value [_calculate_workload_factor] returns for a summed
    complexity [workload_score]. *)
Definition workload_factor_of (workload_score : float) : result float :=
  bind (truediv one (add one workload_score))
       (fun r => Ok (max (literal 1 10) r)).

Section Engine.

Variable clock : nat -> Z.
Variable fetch : nat -> string -> nat -> result (list RoundedTrend.Row).

(** The entries of the agent inside the retention window at the clock
    read the state is due for. *)
Definition active_tasks (agent_name : string)
    (st : IntelligentTaskAssignment) : list WorkloadEntry :=
  List.filter (is_active (clock (tick st) - retention))
              (default [] (workload_tracker st !! agent_name)).

(** [IntelligentTaskAssignment._calculate_workload_factor]. *)
Definition _calculate_workload_factor
    (agent_name : string) (st : IntelligentTaskAssignment)
    : result float * IntelligentTaskAssignment :=
  let active := active_tasks agent_name st in
  let st' := {| agent_capabilities := agent_capabilities st;
                workload_tracker :=
                  <[agent_name := active]> (workload_tracker st);
                tick := S (tick st) |} in
  let workload_score := sum (map complexity active) in
  (workload_factor_of workload_score, st').

(** [IntelligentTaskAssignment._calculate_performance_factor]. *)
Definition _calculate_performance_factor
    (agent_name : string) (st : IntelligentTaskAssignment)
    : float * IntelligentTaskAssignment :=
  let st' := {| agent_capabilities := agent_capabilities st;
                workload_tracker := workload_tracker st;
                tick := S (tick st) |} in
  match RoundedTrend.get_agent_performance_trend
          fetch (tick st) agent_name 3 with
  | Ok (RoundedTrend.Summary _ _ _ avg_quality_score _ _) =>
      (max (literal 1 10) avg_quality_score, st')
  | Ok RoundedTrend.NoData => (literal 8 10, st')
  | Raise _ => (literal 8 10, st')
  end.

(** The body of the candidate loop up to [total_score]. *)
Definition score_candidate (task_requirements : list (string * float))
    (agent_name : string) (st : IntelligentTaskAssignment)
    : result (option float) * IntelligentTaskAssignment :=
  match agent_capabilities st !! agent_name with
  | None => (Ok None, st)
  | Some caps =>
    let capability_score :=
      _calculate_capability_match caps task_requirements in
    match _calculate_workload_factor agent_name st with
    | (Raise e, st1) => (Raise e, st1)
    | (Ok workload_factor, st1) =>
      let '(performance_factor, st2) :=
        _calculate_performance_factor agent_name st1 in
      (Ok (Some (mul (mul capability_score performance_factor)
                     workload_factor)),
       st2)
    end
  end.

(** The candidate loop of [assign_optimal_task]. *)
Fixpoint score_loop (task_requirements : list (string * float))
    (agents : list string) (best_agent : option string) (best_score : float)
    (st : IntelligentTaskAssignment)
    : result (option string * float) * IntelligentTaskAssignment :=
  match agents with
  | [] => (Ok (best_agent, best_score), st)
  | agent_name :: rest =>
    match score_candidate task_requirements agent_name st with
    | (Raise e, st') => (Raise e, st')
    | (Ok None, st') =>
        score_loop task_requirements rest best_agent best_score st'
    | (Ok (Some total_score), st') =>
        if ltb best_score total_score
        then score_loop task_requirements rest (Some agent_name)
                        total_score st'
        else score_loop task_requirements rest best_agent best_score st'
    end
  end.

Definition truthy (s : string) : bool := negb (String.eqb s "").

Definition new_entry (task : Task) (now : Z) : WorkloadEntry :=
  {| task_id := get_id task;
     assigned_at := now;
     complexity := default (literal 1 2) (get_complexity task);
     priority := default "medium"%string (get_priority task) |}.

Definition record_assignment (task : Task) (best_agent : string)
    (st : IntelligentTaskAssignment) : IntelligentTaskAssignment :=
  {| agent_capabilities := agent_capabilities st;
     workload_tracker :=
       <[best_agent :=
           default [] (workload_tracker st !! best_agent)
           ++ [new_entry task (clock (tick st))]]> (workload_tracker st);
     tick := S (tick st) |}.

(** [IntelligentTaskAssignment.assign_optimal_task]. *)
Definition assign_optimal_task (task : Task)
    (available_agents : list string) (st : IntelligentTaskAssignment)
    : result (option string) * IntelligentTaskAssignment :=
  match available_agents with
  | [] => (Ok None, st)
  | _ =>
    let task_requirements := default [] (get_required_skills task) in
    match score_loop task_requirements available_agents None zero st with
    | (Raise e, st') => (Raise e, st')
    | (Ok (None, _), st') => (Ok None, st')
    | (Ok (Some best_agent, _), st') =>
        if truthy best_agent
        then (Ok (Some best_agent), record_assignment task best_agent st')
        else (Ok (Some best_agent), st')
    end
  end.

(** The scores of one run, in candidate order. *)
Fixpoint score_all (task_requirements : list (string * float))
    (agents : list string) (st : IntelligentTaskAssignment)
    : result (list (string * float)) * IntelligentTaskAssignment :=
  match agents with
  | [] => (Ok [], st)
  | agent_name :: rest =>
    match score_candidate task_requirements agent_name st with
    | (Raise e, st') => (Raise e, st')
    | (Ok o, st') =>
      match score_all task_requirements rest st' with
      | (Raise e, st'') => (Raise e, st'')
      | (Ok scores, st'') =>
          (Ok (match o with
               | Some total_score => (agent_name, total_score) :: scores
               | None => scores
               end), st'')
      end
    end
  end.

End Engine.

Definition pick (best : option string * float) (cand : string * float)
    : option string * float :=
  if ltb (snd best) (snd cand) then (Some (fst cand), snd cand) else best.

Definition registered (st : IntelligentTaskAssignment)
    (agent_name : string) : bool :=
  match agent_capabilities st !! agent_name with
  | Some _ => true
  | None => false
  end.

(** Example inputs: a database without samples, a stopped clock, a task
    that requires skill x at level 1.0 and one that requires it at 0.5;
    an engine whose agents Q and P have the levels 0.6 and 0.2 for x, Q
    loaded with two tasks of complexity 1.0; an engine whose only agent
    has no skill. *)
Definition no_samples
    : nat -> string -> nat -> result (list RoundedTrend.Row) :=
  fun _ _ _ => Ok [].

Definition noon : nat -> Z := fun _ => 0%Z.

Definition needs_x_fully : Task :=
  {| get_id := Some "t1"%string;
     get_required_skills := Some [("x"%string, one)];
     get_priority := None;
     get_complexity := None |}.

Definition needs_x : Task :=
  {| get_id := Some "t1"%string;
     get_required_skills := Some [("x"%string, literal 1 2)];
     get_priority := None;
     get_complexity := None |}.

Definition busy_entry : WorkloadEntry :=
  {| task_id := Some "t0"%string;
     assigned_at := 0;
     complexity := one;
     priority := "medium" |}.

Definition near_tie_state : IntelligentTaskAssignment :=
  {| agent_capabilities :=
       {[ "Q"%string := {[ "x"%string := literal 6 10 ]};
          "P"%string := {[ "x"%string := literal 2 10 ]} ]};
     workload_tracker := {[ "Q"%string := [busy_entry; busy_entry] ]};
     tick := 0 |}.

Definition unskilled_state : IntelligentTaskAssignment :=
  {| agent_capabilities := {[ "a"%string := ∅ ]};
     workload_tracker := ∅;
     tick := 0 |}.

(** An engine whose only agent has one recorded task of complexity
    -1.0. *)
Definition refund_entry : WorkloadEntry :=
  {| task_id := Some "t0"%string;
     assigned_at := 0;
     complexity := SFopp one;
     priority := "medium" |}.

Definition refunded_state : IntelligentTaskAssignment :=
  {| agent_capabilities := {[ "a"%string := {[ "x"%string := one ]} ]};
     workload_tracker := {[ "a"%string := [refund_entry] ]};
     tick := 0 |}.

End RoundedAssignment.

(** ** The threshold comparison in binary64 *)

Module RoundedGates.
Import Binary64.

(** [AutomatedQualityGates._evaluate_threshold] on floats. *)
Definition _evaluate_threshold (actual thr : float) (cmp : string) : bool :=
  if String.eqb cmp ">=" then leb thr actual
  else if String.eqb cmp "<=" then leb actual thr
  else if String.eqb cmp ">" then ltb thr actual
  else if String.eqb cmp "<" then ltb actual thr
  else if String.eqb cmp "==" then eqb actual thr
  else true.

End RoundedGates.

(** * Properties *)

(** ** Facts about the Python primitives *)

Module PyFacts.

Lemma Qltb_lt a b : Qltb a b = true <-> a < b.
Proof.
  unfold Qltb. rewrite Qlt_alt. destruct (a ?= b); split; congruence.
Qed.

Lemma Qltb_ge a b : Qltb a b = false <-> b <= a.
Proof.
  unfold Qltb. split.
  - intros H. apply Qnot_lt_le. rewrite Qlt_alt. destruct (a ?= b); congruence.
  - intros H. destruct (a ?= b) eqn:E; try reflexivity.
    apply Qlt_alt in E. exfalso. apply (Qlt_not_le _ _ E H).
Qed.

Lemma Qleb_le a b : Qleb a b = true <-> a <= b.
Proof.
  unfold Qleb. rewrite Qle_alt. destruct (a ?= b); split; congruence.
Qed.

Lemma Qeqb_eq a b : Qeqb a b = true <-> a == b.
Proof.
  unfold Qeqb. rewrite Qeq_alt. destruct (a ?= b); split; congruence.
Qed.

Lemma Qeqb_neq a b : Qeqb a b = false <-> ~ a == b.
Proof.
  rewrite <- Qeqb_eq. destruct (Qeqb a b); split; congruence.
Qed.

Lemma div_nonzero a b : ~ b == 0 -> div a b = Ok (a / b).
Proof.
  intros H. unfold div. apply Qeqb_neq in H. now rewrite H.
Qed.

Lemma max_spec a b : (a < b /\ max a b = b) \/ (b <= a /\ max a b = a).
Proof.
  unfold max. destruct (Qltb a b) eqn:E.
  - left. split; [now apply Qltb_lt | reflexivity].
  - right. split; [now apply Qltb_ge | reflexivity].
Qed.

Lemma min_spec a b : (b < a /\ min a b = b) \/ (a <= b /\ min a b = a).
Proof.
  unfold min. destruct (Qltb b a) eqn:E.
  - left. split; [now apply Qltb_lt | reflexivity].
  - right. split; [now apply Qltb_ge | reflexivity].
Qed.

Lemma fold_left_Qplus_acc (l : list Q) (a : Q) :
  fold_left Qplus l a == a + fold_left Qplus l 0.
Proof.
  revert a. induction l as [|x l IH]; intros a; simpl.
  - lra.
  - rewrite (IH (a + x)), (IH (0 + x)). lra.
Qed.

Lemma sum_cons x l : sum (x :: l) == x + sum l.
Proof.
  unfold sum. simpl. rewrite fold_left_Qplus_acc. lra.
Qed.

Lemma len_pos {A} (l : list A) : (0 < length l)%nat -> 0 < len l.
Proof.
  intros H. unfold len. change 0 with (inject_Z 0).
  rewrite <- Zlt_Qlt. lia.
Qed.

Lemma inject_nat_nonzero (n : nat) :
  (0 < n)%nat -> ~ inject_Z (Z.of_nat n) == 0.
Proof.
  intros H E. unfold Qeq in E. simpl in E. lia.
Qed.

End PyFacts.

(** ** Order on binary64 *)

Module Binary64Facts.
Import Binary64.

Ltac compare_cases :=
  repeat match goal with
         | H : context [Z.compare ?a ?b] |- _ =>
             destruct (Z.compare_spec a b)
         | |- context [Z.compare ?a ?b] =>
             destruct (Z.compare_spec a b)
         | H : context [Pos.compare_cont Eq ?a ?b] |- _ =>
             change (Pos.compare_cont Eq a b) with (Pos.compare a b) in *;
             destruct (Pos.compare_spec a b)
         | |- context [Pos.compare_cont Eq ?a ?b] =>
             change (Pos.compare_cont Eq a b) with (Pos.compare a b) in *;
             destruct (Pos.compare_spec a b)
         end;
  subst; cbn in *; try discriminate; try reflexivity; try lia.

Lemma ltb_irrefl (x : float) : ltb x x = false.
Proof.
  unfold ltb, SFltb, SFcompare.
  destruct x as [s | s | | s m e]; try destruct s; try reflexivity;
    compare_cases.
Qed.

Lemma ltb_trans (x y z : float) :
  ltb x y = true -> ltb y z = true -> ltb x z = true.
Proof.
  unfold ltb, SFltb, SFcompare.
  destruct x as [sx | sx | | sx mx ex], y as [sy | sy | | sy my ey],
    z as [sz | sz | | sz mz ez];
    try destruct sx; try destruct sy; try destruct sz;
    intros H1 H2; try discriminate; try reflexivity;
    compare_cases.
Qed.

Lemma ltb_leb_trans (x y z : float) :
  ltb x y = true -> leb y z = true -> ltb x z = true.
Proof.
  unfold ltb, leb, SFltb, SFleb, SFcompare.
  destruct x as [sx | sx | | sx mx ex], y as [sy | sy | | sy my ey],
    z as [sz | sz | | sz mz ez];
    try destruct sx; try destruct sy; try destruct sz;
    intros H1 H2; try discriminate; try reflexivity;
    compare_cases.
Qed.

Lemma ltb_not_leb (x y : float) : ltb x y = true -> leb y x = false.
Proof.
  unfold ltb, leb, SFltb, SFleb, SFcompare.
  destruct x as [sx | sx | | sx mx ex], y as [sy | sy | | sy my ey];
    try destruct sx; try destruct sy;
    intros H1; try discriminate; try reflexivity;
    compare_cases.
Qed.

Lemma ltb_leb (x y : float) : ltb x y = true -> leb x y = true.
Proof.
  unfold ltb, leb, SFltb, SFleb.
  destruct (SFcompare x y) as [[| |] |]; intros; try discriminate;
    reflexivity.
Qed.




(** The floor [max(0.1, x)] is never below 0.1, whatever [x] is. *)
Lemma max_floor (x : float) : leb (literal 1 10) (max (literal 1 10) x) = true.
Proof.
  unfold max. destruct (ltb (literal 1 10) x) eqn:E.
  - now apply ltb_leb.
  - reflexivity.
Qed.

Lemma div_int_pos (a : float) (n : nat) :
  (0 < n)%nat -> div_int a n = Ok (div a (of_nat n)).
Proof.
  intros H. unfold div_int.
  destruct (Nat.eqb_spec n 0); [lia | reflexivity].
Qed.

End Binary64Facts.

(** ** The trend of a sample sequence, in binary64 *)

Module RoundedTrendSpec.
Import Binary64 RoundedTrend Binary64Facts.

Lemma rounded_trend_short (values : list float) :
  (length values < 2)%nat -> _calculate_trend values = Ok true.
Proof.
  intros H. unfold _calculate_trend.
  apply Nat.ltb_lt in H. now rewrite H.
Qed.

Lemma rounded_trend_halves (first second : list float) :
  (2 <= length (first ++ second))%nat ->
  length first = (length (first ++ second) / 2)%nat ->
  _calculate_trend (first ++ second)
  = Ok (ltb (average first) (average second)).
Proof.
  intros Hlen Hmid. unfold _calculate_trend.
  destruct (length (first ++ second) <? 2)%nat eqn:E.
  { apply Nat.ltb_lt in E. lia. }
  rewrite <- Hmid.
  assert (Hpos : (0 < length first)%nat).
  { rewrite Hmid. apply Nat.div_str_pos. lia. }
  assert (Hsnd : (length (first ++ second) - length first)%nat
                 = length second).
  { rewrite length_app. lia. }
  assert (Hpos2 : (0 < length second)%nat).
  { rewrite length_app in Hmid.
    assert ((length first + length second) / 2
            < length first + length second)%nat
      by (apply Nat.div_lt; lia).
    lia. }
  rewrite Hsnd, take_app_length, drop_app_length.
  rewrite !div_int_pos by assumption.
  reflexivity.
Qed.

(** C5.  [_calculate_trend] answers true on fewer than two values; on
    two or more it splits at the floor midpoint, averages each half
    (sum, then division by the count, both rounded) and answers true
    exactly when the average of the second half is strictly greater
    than that of the first; it never raises; the three sequences of the
    specification give true, false and true. *)
Theorem calculate_trend_spec :
  forall values : list float,
    ((length values < 2)%nat -> _calculate_trend values = Ok true) /\
    (forall first second,
        values = first ++ second ->
        (2 <= length values)%nat ->
        length first = (length values / 2)%nat ->
        exists b, _calculate_trend values = Ok b /\
                  (b = true <-> ltb (average first) (average second) = true)) /\
    _calculate_trend [literal 5 10] = Ok true /\
    _calculate_trend [literal 9 10; literal 9 10; literal 1 10; literal 1 10]
    = Ok false /\
    _calculate_trend [literal 1 10; literal 1 10; literal 9 10; literal 9 10]
    = Ok true.
Proof.
  intros values. split; [apply rounded_trend_short |].
  split; [| repeat split; vm_compute; reflexivity].
  intros first second -> Hlen Hmid.
  exists (ltb (average first) (average second)). split.
  - now apply rounded_trend_halves.
  - reflexivity.
Qed.

Lemma calculate_trend_spec_witness :
  exists b,
    _calculate_trend [literal 1 10; literal 2 10; literal 3 10;
                      literal 7 10; literal 9 10] = Ok b /\
    (b = true <->
     ltb (average [literal 1 10; literal 2 10])
         (average [literal 3 10; literal 7 10; literal 9 10]) = true).
Proof.
  destruct (calculate_trend_spec
              [literal 1 10; literal 2 10; literal 3 10;
               literal 7 10; literal 9 10]) as [_ [H _]].
  apply (H [literal 1 10; literal 2 10]
           [literal 3 10; literal 7 10; literal 9 10]).
  - reflexivity.
  - simpl. lia.
  - reflexivity.
Defined.

(** Rounding is visible in the answer: five samples of 0.1 have the
    averages 0.1 and 0.10000000000000002, and the trend is improving. *)
Example constant_samples_improving :
  let x := literal 1 10 in
  average [x; x] = x /\
  average [x; x; x] = S754_finite false 7205759403792795 (-56) /\
  _calculate_trend [x; x; x; x; x] = Ok true.
Proof. repeat split; vm_compute; reflexivity. Qed.

End RoundedTrendSpec.

(** ** The factors of the assignment score *)

Module FactorSpec.
Import Assignment PyFacts.

Lemma workload_factor_of_nonneg (S : Q) :
  0 <= S ->
  workload_factor_of S = Ok (max (1 # 10) (1 / (1 + S))).
Proof.
  intros H. unfold workload_factor_of.
  rewrite div_nonzero by lra. reflexivity.
Qed.

Lemma inv_times (S : Q) : 0 <= S -> (1 / (1 + S)) * (1 + S) == 1.
Proof. intros H. field. lra. Qed.

Lemma max_floor_range (S : Q) :
  0 <= S ->
  1 # 10 <= max (1 # 10) (1 / (1 + S)) /\ max (1 # 10) (1 / (1 + S)) <= 1.
Proof.
  intros H. pose proof (inv_times S H) as E.
  destruct (max_spec (1 # 10) (1 / (1 + S))) as [[Hlt ->] | [Hle ->]].
  - split; [lra |]. nra.
  - lra.
Qed.

Lemma sum_complexity_nonneg (l : list WorkloadEntry) :
  (forall e, In e l -> 0 <= complexity e) ->
  0 <= sum (map complexity l).
Proof.
  induction l as [| e l IH]; intros H.
  - cbn. lra.
  - cbn [map]. rewrite sum_cons.
    assert (0 <= complexity e) by (apply H; now left).
    assert (0 <= sum (map complexity l))
      by (apply IH; intros x Hx; apply H; now right).
    lra.
Qed.

Lemma two_agents_nonneg : nonneg_workload two_agents_state.
Proof.
  intros a l e Hl He. cbn in Hl.
  apply lookup_singleton_Some in Hl as [_ <-].
  destruct He as [<- | [<- | []]]; cbn; lra.
Qed.

(** C4, as the code has it.  With no negative complexity recorded,
    [_calculate_workload_factor] returns the factor of the summed
    complexity of the agent's entries inside the retention window.  For
    a summed complexity that is not negative the factor lies in
    [[1/10, 1]], it is the floor 1/10 exactly when the sum is 9 or more,
    and it never grows with the sum. *)
Theorem workload_factor_floor_monotone :
  (forall clock agent_name st,
     nonneg_workload st ->
     exists S f,
       S = sum (map complexity
                    (List.filter
                       (is_active (clock (tick st) - retention))
                       (workload st agent_name))) /\
       0 <= S /\
       fst (_calculate_workload_factor clock agent_name st) = Ok f /\
       workload_factor_of S = Ok f /\
       1 # 10 <= f /\ f <= 1) /\
  (forall S : Q,
     0 <= S ->
     exists f,
       workload_factor_of S = Ok f /\
       1 # 10 <= f /\ f <= 1 /\
       (f == 1 # 10 <-> 9 <= S)) /\
  (forall S1 S2 : Q,
     0 <= S1 -> S1 < S2 ->
     exists f1 f2,
       workload_factor_of S1 = Ok f1 /\
       workload_factor_of S2 = Ok f2 /\
       f2 <= f1).
Proof.
  split; [| split].
  - intros clock agent_name st Hnn.
    set (S := sum (map complexity
                       (List.filter
                          (is_active (clock (tick st) - retention))
                          (workload st agent_name)))).
    assert (HS : 0 <= S).
    { apply sum_complexity_nonneg. intros e He.
      apply filter_In in He as [He _]. unfold workload in He.
      destruct (workload_tracker st !! agent_name) as [l |] eqn:E;
        [| destruct He].
      now apply (Hnn agent_name l e). }
    exists S, (max (1 # 10) (1 / (1 + S))).
    pose proof (max_floor_range S HS) as [L U].
    split; [reflexivity |]. split; [exact HS |].
    split; [| split; [now apply workload_factor_of_nonneg | split; lra]].
    unfold _calculate_workload_factor. cbn [fst].
    fold (workload st agent_name). fold S.
    now apply workload_factor_of_nonneg.
  - intros S HS.
    exists (max (1 # 10) (1 / (1 + S))).
    rewrite workload_factor_of_nonneg by assumption.
    pose proof (max_floor_range S HS) as [L U].
    pose proof (inv_times S HS) as E.
    split; [reflexivity |]. split; [exact L |]. split; [exact U |].
    destruct (max_spec (1 # 10) (1 / (1 + S))) as [[A M] | [A M]];
      rewrite M; split; intros; try lra; nra.
  - intros S1 S2 H1 H12.
    assert (H2 : 0 <= S2) by lra.
    exists (max (1 # 10) (1 / (1 + S1))), (max (1 # 10) (1 / (1 + S2))).
    rewrite !workload_factor_of_nonneg by assumption.
    pose proof (inv_times S1 H1) as E1.
    pose proof (inv_times S2 H2) as E2.
    split; [reflexivity |]. split; [reflexivity |].
    destruct (max_spec (1 # 10) (1 / (1 + S1))) as [[A1 M1] | [A1 M1]];
      destruct (max_spec (1 # 10) (1 / (1 + S2))) as [[A2 M2] | [A2 M2]];
      rewrite ?M1, ?M2; try lra; nra.
Qed.

Lemma workload_factor_floor_monotone_witness :
  (exists f,
     fst (_calculate_workload_factor noon "B" two_agents_state) = Ok f /\
     1 # 10 <= f /\ f <= 1) /\
  (exists f1 f2,
     workload_factor_of 1 = Ok f1 /\
     workload_factor_of 2 = Ok f2 /\
     f2 <= f1) /\
  (exists f, workload_factor_of 9 = Ok f /\ f == 1 # 10).
Proof.
  destruct workload_factor_floor_monotone as (Hrun & Hfloor & Hmono).
  split; [| split].
  - destruct (Hrun noon "B"%string two_agents_state two_agents_nonneg)
      as (S & f & _ & _ & Hf & _ & Hlo & Hhi).
    now exists f.
  - destruct (Hmono 1 2) as (f1 & f2 & H1 & H2 & Hle); [lra | lra |].
    now exists f1, f2.
  - destruct (Hfloor 9) as (f & Hf & _ & _ & Hiff); [lra |].
    exists f. split; [exact Hf |]. apply Hiff. lra.
Defined.

(** The claim of C4 as the specification words it fails: the sums 10
    and 20 are different and both give the floor 1/10. *)
Lemma workload_factor_not_strict :
  10 < 20 /\
  exists f1 f2,
    workload_factor_of 10 = Ok f1 /\
    workload_factor_of 20 = Ok f2 /\
    ~ f2 < f1.
Proof.
  split; [lra |].
  exists (1 # 10), (1 # 10). repeat split; try reflexivity. lra.
Qed.

Lemma fold_match_step caps reqs tm tw :
  fst (fold_left (match_step caps) reqs (tm, tw))
    == tm + match_sum caps reqs /\
  snd (fold_left (match_step caps) reqs (tm, tw))
    == tw + weight_sum reqs.
Proof.
  revert tm tw. induction reqs as [| [skill lvl] rest IH]; intros tm tw.
  - simpl. split; lra.
  - cbn [fold_left match_step].
    destruct (IH (tm + (if Qltb 0 lvl
                        then min 1 (default 0 (caps !! skill) / lvl)
                        else 1) * lvl) (tw + lvl)) as [E1 E2].
    rewrite E1, E2. cbn [match_sum weight_sum]. unfold skill_match.
    cbn [fst snd]. split; ring.
Qed.

Lemma skill_match_bound caps item :
  0 <= snd item ->
  skill_match caps item * snd item <= snd item /\
  (skill_match caps item * snd item == snd item <-> meets caps item).
Proof.
  destruct item as [skill lvl]. unfold skill_match, meets.
  cbn [fst snd]. intros Hnn.
  set (a := default 0 (caps !! skill)).
  destruct (Qltb 0 lvl) eqn:Epos.
  - apply Qltb_lt in Epos.
    assert (Ed : (a / lvl) * lvl == a) by (field; lra).
    destruct (min_spec 1 (a / lvl)) as [[Hlt ->] | [Hle ->]].
    + split; [nra |]. split.
      * intros He. exfalso. nra.
      * intros Hm. specialize (Hm Epos). exfalso. nra.
    + split; [lra |]. split.
      * intros _ _. nra.
      * intros _. lra.
  - apply Qltb_ge in Epos. split; [lra |]. split.
    + intros _ Hpos. lra.
    + intros _. lra.
Qed.

Lemma match_sum_bound caps reqs :
  Forall (fun item => 0 <= snd item) reqs ->
  match_sum caps reqs <= weight_sum reqs /\
  0 <= weight_sum reqs /\
  (match_sum caps reqs == weight_sum reqs <-> Forall (meets caps) reqs) /\
  (0 < weight_sum reqs <-> Exists (fun item => 0 < snd item) reqs).
Proof.
  induction 1 as [| item rest Hnn _ IH]; cbn [match_sum weight_sum].
  - repeat split; intros; try lra; auto.
    match goal with H : Exists _ [] |- _ => inversion H end.
  - destruct IH as (Hle & Hw & Heq & Hex).
    destruct (skill_match_bound caps item Hnn) as [Hb Hbe].
    split; [lra |]. split; [lra |]. split; split.
    + intros E. constructor.
      * apply Hbe. lra.
      * apply Heq. lra.
    + intros HF. inversion HF as [| ? ? Hm Hr]; subst.
      apply Hbe in Hm. apply Heq in Hr. lra.
    + intros Hpos.
      destruct (Qlt_le_dec 0 (snd item)) as [Hp | Hz].
      * now apply Exists_cons_hd.
      * apply Exists_cons_tl. apply Hex. lra.
    + intros HE. inversion HE as [? ? Hp | ? ? Hr]; subst.
      * lra.
      * apply Hex in Hr. lra.
Qed.

Lemma capability_match_nonempty caps reqs :
  reqs <> [] ->
  _calculate_capability_match caps reqs ==
    (if Qltb 0 (weight_sum reqs)
     then match_sum caps reqs / weight_sum reqs
     else 0).
Proof.
  intros Hne. unfold _calculate_capability_match.
  destruct reqs as [| item rest]; [congruence |].
  destruct (fold_match_step caps (item :: rest) 0 0) as [E1 E2].
  destruct (fold_left (match_step caps) (item :: rest) (0, 0))
    as [tm tw] eqn:Ef.
  cbn [fst snd] in E1, E2.
  assert (Etw : tw == weight_sum (item :: rest)) by lra.
  assert (Etm : tm == match_sum caps (item :: rest)) by lra.
  unfold Qltb. rewrite Etw.
  destruct (0 ?= weight_sum (item :: rest)); try reflexivity.
  now rewrite Etm, Etw.
Qed.

(** C7, as the code has it.  The capability match is 1 for an empty
    requirement map.  For a non-empty map with no negative level it is
    at most 1; it is 1 when some skill is required at a positive level
    and the agent reaches every positive required level, and 0 when no
    skill is required at a positive level. *)
Theorem capability_match_one :
  forall (caps : gmap string Q) (reqs : list (string * Q)),
    _calculate_capability_match caps [] = 1 /\
    (reqs <> [] ->
     Forall (fun item => 0 <= snd item) reqs ->
     _calculate_capability_match caps reqs <= 1 /\
     (Exists (fun item => 0 < snd item) reqs ->
      Forall (meets caps) reqs ->
      _calculate_capability_match caps reqs == 1) /\
     (~ Exists (fun item => 0 < snd item) reqs ->
      _calculate_capability_match caps reqs == 0)).
Proof.
  intros caps reqs. split; [reflexivity |].
  intros Hne Hnn.
  rewrite (capability_match_nonempty caps reqs Hne).
  destruct (match_sum_bound caps reqs Hnn) as (Hle & Hw & Heq & Hex).
  destruct (Qltb 0 (weight_sum reqs)) eqn:Ew.
  - apply Qltb_lt in Ew.
    assert (Ed : (match_sum caps reqs / weight_sum reqs) * weight_sum reqs
                 == match_sum caps reqs) by (field; lra).
    split; [nra |]. split.
    + intros _ HF. apply Heq in HF. nra.
    + intros Hno. exfalso. apply Hno. now apply Hex.
  - apply Qltb_ge in Ew. split; [lra |]. split.
    + intros HE _. apply Hex in HE. lra.
    + intros _. reflexivity.
Qed.

Lemma capability_match_one_witness :
  _calculate_capability_match {[ "x"%string := 9 # 10 ]}
                              [("x"%string, 1 # 2)] <= 1 /\
  _calculate_capability_match {[ "x"%string := 9 # 10 ]}
                              [("x"%string, 1 # 2)] == 1.
Proof.
  destruct (capability_match_one {[ "x"%string := 9 # 10 ]}
                                 [("x"%string, 1 # 2)]) as [_ H].
  destruct H as (Hle & Hone & _).
  - discriminate.
  - repeat constructor. simpl. lra.
  - split; [exact Hle |]. apply Hone.
    + constructor. simpl. lra.
    + repeat constructor. intros _. vm_compute. discriminate.
Defined.

(** The claim of C7 as the specification words it fails: a task that
    requires skill x at level 1/2 is matched with 1 by an agent whose
    level for x is 9/10, although its requirement map is not empty. *)
Lemma capability_match_one_nonempty :
  [("x"%string, 1 # 2)] <> [] /\
  _calculate_capability_match {[ "x"%string := 9 # 10 ]}
                              [("x"%string, 1 # 2)] == 1.
Proof.
  split; [discriminate |]. vm_compute. reflexivity.
Qed.

End FactorSpec.

(** ** The quality gates *)

Module GateSpec.
Import QualityGates.

Lemma execute_ok_status rule context o :
  _execute_quality_check rule context = Ok o ->
  (status o = "passed"%string \/ status o = "failed"%string) /\
  rule_name o = name rule /\ outcome_severity o = severity rule.
Proof.
  unfold _execute_quality_check.
  destruct (match check_function rule with
            | Evaluator f => f context
            | NamedKey key => Ok (default 0 (context !! key))
            end) as [actual | e]; cbn [bind]; [| discriminate].
  intros [= <-]. cbn.
  destruct (_evaluate_threshold actual (threshold rule)
              (default ">="%string (comparison rule))); auto.
Qed.

Lemma execute_raises rule context e :
  raises context rule e -> _execute_quality_check rule context = Raise e.
Proof.
  intros (f & Hf & He). unfold _execute_quality_check.
  now rewrite Hf, He.
Qed.

Lemma check_step_add_outcome context results rule :
  check_step context results rule
  = add_outcome results (rule_outcome context rule).
Proof.
  unfold check_step, rule_outcome, add_outcome, to_checks, to_errors.
  destruct (_execute_quality_check rule context) as [o | e] eqn:E.
  - destruct (execute_ok_status _ _ _ E) as ([Hs | Hs] & _ & _); rewrite Hs.
    + cbn. now rewrite andb_true_r, !app_nil_r.
    + cbn. destruct (String.eqb (outcome_severity o) "error"); cbn;
        now rewrite andb_false_r, ?app_nil_r.
  - cbn. now rewrite andb_false_r, !app_nil_r.
Qed.

Lemma run_rules_fields context rules results :
  passed (run_rules context rules results)
  = passed results
    && forallb (fun rule =>
                  String.eqb (status (rule_outcome context rule)) "passed")
               rules /\
  checks (run_rules context rules results)
  = checks results
    ++ flat_map (fun rule => to_checks (rule_outcome context rule)) rules /\
  errors (run_rules context rules results)
  = errors results
    ++ flat_map (fun rule => to_errors (rule_outcome context rule)) rules.
Proof.
  unfold run_rules. revert results.
  induction rules as [| rule rest IH]; intros results; cbn [fold_left].
  - cbn. now rewrite andb_true_r, !app_nil_r.
  - destruct (IH (check_step context results rule)) as (Hp & Hc & He).
    rewrite Hp, Hc, He, check_step_add_outcome.
    cbn [add_outcome passed checks errors forallb flat_map].
    now rewrite andb_assoc, <- !app_assoc.
Qed.

Lemma run_rules_app context pre post results :
  run_rules context (pre ++ post) results
  = run_rules context post (run_rules context pre results).
Proof. unfold run_rules. apply fold_left_app. Qed.

Lemma rule_outcome_status context rule :
  status (rule_outcome context rule) = "passed"%string \/
  status (rule_outcome context rule) = "failed"%string \/
  status (rule_outcome context rule) = "error"%string.
Proof.
  unfold rule_outcome.
  destruct (_execute_quality_check rule context) as [o | e] eqn:E.
  - destruct (execute_ok_status _ _ _ E) as ([Hs | Hs] & _); auto.
  - cbn. auto.
Qed.

Lemma in_to_checks o o' :
  In o' (to_checks o) <-> o' = o /\ status o <> "error"%string.
Proof.
  unfold to_checks. destruct (String.eqb_spec (status o) "error"); cbn.
  - split; [tauto | intros [_ H]; congruence].
  - split; [intros [<- | []]; auto | intros [-> _]; auto].
Qed.

Lemma in_to_errors o o' :
  In o' (to_errors o) <->
  o' = o /\
  (status o = "error"%string \/
   (status o = "failed"%string /\ outcome_severity o = "error"%string)).
Proof.
  unfold to_errors.
  destruct (String.eqb_spec (status o) "error") as [He | He]; cbn [orb].
  - split; [intros [<- | []]; auto | intros [-> _]; now left].
  - destruct (String.eqb_spec (status o) "failed") as [Hf | Hf]; cbn [andb].
    + destruct (String.eqb_spec (outcome_severity o) "error") as [Hs | Hs].
      * split; [intros [<- | []]; auto | intros [-> _]; now left].
      * split; [intros [] | intros [_ [H | [_ H]]]; congruence].
    + split; [intros [] | intros [_ [H | [H _]]]; congruence].
Qed.

Lemma unrecognized_passes actual thr cmp :
  ~ recognized cmp -> _evaluate_threshold actual thr cmp = true.
Proof.
  unfold recognized, _evaluate_threshold. cbn [In]. intros H.
  destruct (String.eqb_spec cmp ">="); [exfalso; auto |].
  destruct (String.eqb_spec cmp "<="); [exfalso; auto |].
  destruct (String.eqb_spec cmp ">"); [exfalso; auto |].
  destruct (String.eqb_spec cmp "<"); [exfalso; auto 6 |].
  destruct (String.eqb_spec cmp "=="); [exfalso; auto 7 |].
  reflexivity.
Qed.

Lemma gate_run_fields clock project_name context st :
  let res := fst (check_quality_gates clock project_name context st) in
  passed res
  = forallb (fun rule =>
               String.eqb (status (rule_outcome context rule)) "passed")
            (quality_rules st) /\
  checks res
  = flat_map (fun rule => to_checks (rule_outcome context rule))
             (quality_rules st) /\
  errors res
  = flat_map (fun rule => to_errors (rule_outcome context rule))
             (quality_rules st).
Proof.
  cbn [check_quality_gates fst].
  destruct (run_rules_fields context (quality_rules st)
              (initial_results project_name (clock (tick st))))
    as (Hp & Hc & He).
  rewrite Hp, Hc, He. cbn. auto.
Qed.

(** C6.  The passed flag of a gate run is true exactly when no outcome
    record of the run, in [checks] or in [errors], has status failed or
    error; equivalently, when no rule of the run produced such an
    outcome.  A rule whose comparison operator is not one of the five
    known ones, and whose value is obtained, is recorded as passed. *)
Theorem passed_iff_no_failed_or_error :
  forall clock project_name context st rule cmp,
    let res := fst (check_quality_gates clock project_name context st) in
    (passed res = true <->
     forall o, In o (checks res) \/ In o (errors res) ->
               status o <> "failed"%string /\ status o <> "error"%string) /\
    (passed res = true <->
     forall r, In r (quality_rules st) ->
               status (rule_outcome context r) <> "failed"%string /\
               status (rule_outcome context r) <> "error"%string) /\
    (In rule (quality_rules st) ->
     comparison rule = Some cmp ->
     ~ recognized cmp ->
     (forall e, ~ raises context rule e) ->
     status (rule_outcome context rule) = "passed"%string /\
     In (rule_outcome context rule) (checks res)).
Proof.
  intros clock project_name context st rule cmp res.
  destruct (gate_run_fields clock project_name context st)
    as (Hp & Hc & He).
  fold res in Hp, Hc, He.
  assert (Hrules :
    passed res = true <->
    forall r, In r (quality_rules st) ->
              status (rule_outcome context r) <> "failed"%string /\
              status (rule_outcome context r) <> "error"%string).
  { rewrite Hp, forallb_forall. split.
    - intros H r Hr. apply H, String.eqb_eq in Hr. rewrite Hr.
      split; discriminate.
    - intros H r Hr. apply String.eqb_eq.
      destruct (rule_outcome_status context r) as [Hs | [Hs | Hs]];
        [assumption | |]; destruct (H r Hr); congruence. }
  split; [| split; [exact Hrules |]].
  - rewrite Hrules. split.
    + intros H o [Ho | Ho].
      * rewrite Hc in Ho. apply in_flat_map in Ho as (r & Hr & Ho).
        apply in_to_checks in Ho as [-> _]. now apply H.
      * rewrite He in Ho. apply in_flat_map in Ho as (r & Hr & Ho).
        apply in_to_errors in Ho as [-> _]. now apply H.
    + intros H r Hr.
      destruct (rule_outcome_status context r) as [Hs | [Hs | Hs]].
      * rewrite Hs. split; discriminate.
      * apply H. left. rewrite Hc. apply in_flat_map. exists r.
        split; [assumption |]. apply in_to_checks. split; [reflexivity |].
        rewrite Hs. discriminate.
      * apply H. right. rewrite He. apply in_flat_map. exists r.
        split; [assumption |]. apply in_to_errors. auto.
  - intros Hin Hcmp Hun Hnr.
    assert (Hs : status (rule_outcome context rule) = "passed"%string).
    { unfold rule_outcome, _execute_quality_check.
      destruct (check_function rule) as [key | f] eqn:Ecf.
      - cbn. rewrite Hcmp. cbn.
        now rewrite unrecognized_passes.
      - destruct (f context) as [actual | e] eqn:Ef.
        + cbn. rewrite Hcmp. cbn. now rewrite unrecognized_passes.
        + exfalso. apply (Hnr e). exists f. auto. }
    split; [exact Hs |].
    rewrite Hc. apply in_flat_map. exists rule. split; [assumption |].
    apply in_to_checks. split; [reflexivity |]. rewrite Hs. discriminate.
Qed.

Lemma passed_iff_no_failed_or_error_witness :
  status (rule_outcome {[ "test_coverage"%string := 80 ]} odd_operator_rule)
  = "passed"%string /\
  In (rule_outcome {[ "test_coverage"%string := 80 ]} odd_operator_rule)
     (checks (fst (check_quality_gates (fun _ => 0%Z) "demo"
                     {[ "test_coverage"%string := 80 ]}
                     odd_operator_state))).
Proof.
  apply (passed_iff_no_failed_or_error (fun _ => 0%Z) "demo"
           {[ "test_coverage"%string := 80 ]} odd_operator_state
           odd_operator_rule "!=").
  - left. reflexivity.
  - reflexivity.
  - unfold recognized. cbn. intros [H | [H | [H | [H | [H | []]]]]];
      discriminate.
  - intros e (f & Hf & _). discriminate.
Defined.

(** C2, as the code has it.  A rule whose evaluator raises produces
    exactly one outcome record, with status error and severity error; the
    run stores it in [errors], between the error records of the rules
    before it and those of the rules after it, and not in [checks], which
    holds no record of status error; the passed flag is false; and the
    rules after it contribute to both lists what they contribute when
    they are run on their own. *)
Theorem raising_rule_recorded_in_errors :
  forall clock project_name context st pre rule post e,
    quality_rules st = pre ++ rule :: post ->
    raises context rule e ->
    let res := fst (check_quality_gates clock project_name context st) in
    let start := initial_results project_name (clock (tick st)) in
    rule_outcome context rule = error_result rule e /\
    status (error_result rule e) = "error"%string /\
    outcome_severity (error_result rule e) = "error"%string /\
    errors res = errors (run_rules context pre start)
                 ++ error_result rule e
                 :: errors (run_rules context post start) /\
    checks res = checks (run_rules context pre start)
                 ++ checks (run_rules context post start) /\
    (forall o, In o (checks res) -> status o <> "error"%string) /\
    passed res = false.
Proof.
  intros clock project_name context st pre rule post e Hrules Hraise
         res start.
  assert (Hout : rule_outcome context rule = error_result rule e).
  { unfold rule_outcome. now rewrite (execute_raises _ _ _ Hraise). }
  destruct (gate_run_fields clock project_name context st)
    as (Hp & Hc & He).
  fold res in Hp, Hc, He.
  destruct (run_rules_fields context pre start) as (_ & Hc1 & He1).
  destruct (run_rules_fields context post start) as (_ & Hc2 & He2).
  cbn [initial_results start checks errors app] in Hc1, He1, Hc2, He2.
  split; [exact Hout |]. split; [reflexivity |]. split; [reflexivity |].
  split; [| split; [| split]].
  - rewrite He, Hrules, flat_map_app. cbn [flat_map].
    rewrite Hout, He1, He2. reflexivity.
  - rewrite Hc, Hrules, flat_map_app. cbn [flat_map].
    rewrite Hout, Hc1, Hc2. reflexivity.
  - intros o Ho. rewrite Hc in Ho.
    apply in_flat_map in Ho as (r & _ & Ho).
    apply in_to_checks in Ho as [-> Hs]. exact Hs.
  - rewrite Hp, Hrules, forallb_app. cbn [forallb].
    rewrite Hout. cbn. now rewrite andb_false_r.
Qed.

Lemma raising_rule_recorded_in_errors_witness :
  let res := fst (check_quality_gates (fun _ => 0%Z) "demo" ∅
                    {| quality_rules :=
                         [odd_operator_rule; raising_rule; odd_operator_rule];
                       quality_history := ∅;
                       tick := 0 |}) in
  errors res = [error_result raising_rule (Exception "boom")] /\
  length (checks res) = 2%nat /\
  passed res = false.
Proof.
  destruct (raising_rule_recorded_in_errors (fun _ => 0%Z) "demo" ∅
              {| quality_rules :=
                   [odd_operator_rule; raising_rule; odd_operator_rule];
                 quality_history := ∅;
                 tick := 0 |}
              [odd_operator_rule] raising_rule [odd_operator_rule]
              (Exception "boom"))
    as (_ & _ & _ & He & Hc & _ & Hp).
  - reflexivity.
  - eexists. split; reflexivity.
  - cbv zeta. rewrite He, Hc, Hp. repeat split.
Defined.

(** The claim of C2 as the specification words it fails: in a run of a
    single rule whose evaluator raises, the error record is produced and
    stored in [errors], and the ordered list of per-rule outcomes,
    [checks], is empty. *)
Lemma raising_rule_absent_from_checks :
  raises ∅ raising_rule (Exception "boom") /\
  errors (fst (check_quality_gates (fun _ => 0%Z) "demo" ∅ raising_state))
  = [error_result raising_rule (Exception "boom")] /\
  checks (fst (check_quality_gates (fun _ => 0%Z) "demo" ∅ raising_state))
  = [].
Proof.
  split; [| split; reflexivity].
  eexists. split; reflexivity.
Qed.

End GateSpec.

(** ** The health monitor *)

Module HealthSpec.
Import Health.

Lemma prefix_length (s1 s2 : string) :
  String.prefix s1 s2 = true -> (String.length s1 <= String.length s2)%nat.
Proof.
  revert s2. induction s1 as [| c s1 IH]; intros s2 H.
  - cbn. lia.
  - destruct s2 as [| c' s2]; cbn in H; [discriminate |].
    destruct (ascii_dec c c'); [| discriminate].
    apply IH in H. cbn. lia.
Qed.

Lemma occurs_at_zero (marker s : string) :
  occurs_at marker s 0 <-> String.prefix marker s = true.
Proof.
  unfold occurs_at. rewrite prefix_correct. split.
  - now intros [_ H].
  - intros H. split; [| assumption].
    apply prefix_correct, prefix_length in H. lia.
Qed.

Lemma occurs_at_succ (marker : string) c (s : string) (i : nat) :
  occurs_at marker (String c s) (S i) <-> occurs_at marker s i.
Proof.
  unfold occurs_at. cbn [String.length substring].
  split; intros [H1 H2]; (split; [lia | assumption]).
Qed.

Lemma occurs_at_empty (marker : string) (i : nat) :
  occurs_at marker EmptyString i -> i = 0%nat.
Proof. unfold occurs_at. cbn. lia. Qed.

Lemma contains_occurs (marker s : string) :
  contains marker s = true <-> exists i, occurs_at marker s i.
Proof.
  induction s as [| c s IH]; cbn [contains].
  - destruct (String.prefix marker "") eqn:E.
    + split; [| reflexivity]. intros _. exists 0%nat.
      now apply occurs_at_zero.
    + split; [discriminate |]. intros [i Hi].
      pose proof (occurs_at_empty _ _ Hi) as ->.
      apply occurs_at_zero in Hi. congruence.
  - destruct (String.prefix marker (String c s)) eqn:E.
    + split; [| reflexivity]. intros _. exists 0%nat.
      now apply occurs_at_zero.
    + rewrite IH. split.
      * intros [i Hi]. exists (S i). now apply occurs_at_succ.
      * intros [[| i] Hi].
        -- apply occurs_at_zero in Hi. congruence.
        -- exists i. now apply occurs_at_succ in Hi.
Qed.

Lemma occurs_at_drop (marker s : string) (k i : nat) :
  (k <= String.length s)%nat ->
  occurs_at marker (drop_chars k s) i <-> occurs_at marker s (k + i).
Proof.
  revert s. induction k as [| k IH]; intros s Hk.
  - reflexivity.
  - destruct s as [| c s]; cbn in Hk; [lia |].
    cbn [drop_chars Nat.add]. rewrite occurs_at_succ. apply IH. lia.
Qed.

(** [marker in s[-n:]] holds exactly when the marker occurs in [s] at an
    offset that is at most [n] characters before the end. *)
Lemma contains_last_chars (marker s : string) (n : nat) :
  contains marker (last_chars n s) = true <->
  exists i, (String.length s - n <= i)%nat /\ occurs_at marker s i.
Proof.
  unfold last_chars. rewrite contains_occurs. split.
  - intros [i Hi]. exists (String.length s - n + i)%nat.
    split; [lia |]. apply occurs_at_drop in Hi; [assumption | lia].
  - intros [i [Hle Hi]]. exists (i - (String.length s - n))%nat.
    apply occurs_at_drop; [lia |].
    now replace (String.length s - n + (i - (String.length s - n)))%nat
      with i by lia.
Qed.

(** C8.  When the probe is sent, the agent is reported healthy exactly
    when the pane is captured and HEALTHY occurs in the captured output
    at an offset inside its last 500 characters, so an occurrence that
    starts earlier does not count; on a match the failure counter is 0
    and the time of the response is the clock read of that moment, and
    without a match the counter grows by one. *)
Theorem health_marker_window :
  forall clock send_message capture_pane agent_name st health_info,
    health_checks st !! agent_name = Some health_info ->
    send_message (tick st) (target health_info) health_check_msg
    = Ok true ->
    exists is_healthy st' health_info',
      check_agent_health clock send_message capture_pane agent_name st
      = (is_healthy, st') /\
      health_checks st' !! agent_name = Some health_info' /\
      (is_healthy = true <->
       exists recent_output i,
         capture_pane (S (S (tick st))) (target health_info)
         = Ok recent_output /\
         (String.length recent_output - 500 <= i)%nat /\
         occurs_at "HEALTHY" recent_output i) /\
      (is_healthy = true ->
       consecutive_failures health_info' = 0%Z /\
       last_response health_info' = clock (S (S (S (tick st))))) /\
      (is_healthy = false ->
       consecutive_failures health_info'
       = (consecutive_failures health_info + 1)%Z /\
       last_response health_info' = last_response health_info).
Proof.
  intros clock send_message capture_pane agent_name st health_info
         Hreg Hsend.
  unfold check_agent_health. rewrite Hreg, Hsend. cbn [emit tick].
  destruct (capture_pane (S (S (tick st))) (target health_info))
    as [recent_output | e] eqn:Hcap.
  - pose proof (contains_last_chars "HEALTHY" recent_output 500) as Hwin.
    destruct (contains "HEALTHY" (last_chars 500 recent_output)) eqn:E.
    + eexists true, _, _. split; [reflexivity |].
      cbn [mark_responsive emit health_checks].
      rewrite lookup_alter_eq, Hreg. cbn [fmap option_fmap option_map].
      split; [reflexivity |]. cbn.
      split; [| split; [auto | discriminate]].
      split; [| reflexivity]. intros _.
      destruct Hwin as [Hwin _]. destruct (Hwin eq_refl) as (i & Hi & Ho).
      now exists recent_output, i.
    + eexists false, _, _. split; [reflexivity |].
      cbn [add_failure emit health_checks].
      rewrite lookup_alter_eq, Hreg. cbn [fmap option_fmap option_map].
      split; [reflexivity |]. cbn.
      split; [| split; [discriminate | auto]].
      split; [discriminate |]. intros (out & i & [= <-] & Hi & Ho).
      destruct Hwin as [_ Hwin].
      assert (false = true) by (apply Hwin; now exists i).
      discriminate.
  - eexists false, _, _. split; [reflexivity |].
    cbn [add_failure emit health_checks].
    rewrite lookup_alter_eq, Hreg. cbn [fmap option_fmap option_map].
    split; [reflexivity |]. cbn.
    split; [| split; [discriminate | auto]].
    split; [discriminate |]. intros (out & i & [=] & _).
Qed.

Lemma health_marker_window_witness :
  exists is_healthy st' health_info',
    check_agent_health (fun _ => 7%Z) always_sent
                       (fun _ _ => Ok "I am HEALTHY"%string) "dev" dev_state
    = (is_healthy, st') /\
    health_checks st' !! "dev"%string = Some health_info' /\
    (is_healthy = true <->
     exists recent_output i,
       Ok "I am HEALTHY"%string = Ok recent_output /\
       (String.length recent_output - 500 <= i)%nat /\
       occurs_at "HEALTHY" recent_output i) /\
    (is_healthy = true ->
     consecutive_failures health_info' = 0%Z /\
     last_response health_info' = 7%Z) /\
    (is_healthy = false ->
     consecutive_failures health_info' = (3 + 1)%Z /\
     last_response health_info' = 0%Z).
Proof.
  apply (health_marker_window (fun _ => 7%Z) always_sent
           (fun _ _ => Ok "I am HEALTHY"%string) "dev" dev_state dev_info);
    reflexivity.
Defined.

(** An occurrence of the marker that starts before the last 500
    characters does not make the agent healthy. *)
Example marker_before_window :
  fst (check_agent_health (fun _ => 7%Z) always_sent
         (fun _ _ => Ok ("HEALTHY" ++ padding 500)%string) "dev" dev_state)
  = false /\
  fst (check_agent_health (fun _ => 7%Z) always_sent
         (fun _ _ => Ok ("HEALTHY" ++ padding 493)%string) "dev" dev_state)
  = true.
Proof. split; vm_compute; reflexivity. Qed.

Lemma restart_log_no_probe agent_name tgt evs :
  evs = [Run (interrupt_argv tgt)]
  \/ evs = [Run (interrupt_argv tgt); Sleep 2; Run (relaunch_argv tgt)]
  \/ evs = [Run (interrupt_argv tgt); Sleep 2; Run (relaunch_argv tgt);
            Sleep 5; SendMessage tgt (reinit_msg agent_name)]
  \/ evs = [Run (interrupt_argv tgt); Sleep 2; Run (relaunch_argv tgt);
            Sleep 5; SendMessage tgt (reinit_msg agent_name); Now] ->
  Forall (fun ev => is_probe ev = false) evs.
Proof.
  intros [-> | [-> | [-> | ->]]]; repeat constructor.
Qed.

(** C1, as the code has it.  For a registered agent [restart_agent]
    returns without raising and performs no liveness probe.  When the
    interrupt, the relaunch and the reinitialization message go through
    without an exception, whether or not the agent came back, the
    failure counter is 0, the response time is the clock read of that
    moment and the agent counts as healthy; when one of them raises, the
    health record is left as it was.  With the restart strategy
    configured and the failure threshold reached,
    [handle_unhealthy_agent] is this operation. *)
Theorem restart_resets_after_completed_steps :
  forall clock send_message subprocess_run recovery_strategies
         agent_name st health_info,
    health_checks st !! agent_name = Some health_info ->
    exists st' evs,
      restart_agent clock send_message subprocess_run agent_name st
      = (Ok tt, st') /\
      log st' = log st ++ evs /\
      Forall (fun ev => is_probe ev = false) evs /\
      (steps_complete send_message subprocess_run agent_name health_info st ->
       exists health_info',
         health_checks st' !! agent_name = Some health_info' /\
         consecutive_failures health_info' = 0%Z /\
         last_response health_info' = clock (5 + tick st)%nat /\
         health_state health_info' = Healthy) /\
      (~ steps_complete send_message subprocess_run agent_name health_info
           st ->
       health_checks st' = health_checks st) /\
      (default "restart"%string (get_recovery_strategy (config health_info))
       = "restart"%string ->
       (default 3 (get_max_failures (config health_info))
        <= consecutive_failures health_info)%Z ->
       handle_unhealthy_agent clock send_message subprocess_run
                              recovery_strategies agent_name st
       = (Ok tt, st')).
Proof.
  intros clock send_message subprocess_run recovery_strategies
         agent_name st health_info Hreg.
  assert (Hdispatch : forall r,
    restart_agent clock send_message subprocess_run agent_name st = r ->
    default "restart"%string (get_recovery_strategy (config health_info))
    = "restart"%string ->
    (default 3 (get_max_failures (config health_info))
     <= consecutive_failures health_info)%Z ->
    handle_unhealthy_agent clock send_message subprocess_run
                           recovery_strategies agent_name st = r).
  { intros r Hr Hstrat Hmax. unfold handle_unhealthy_agent.
    rewrite Hreg. apply Z.leb_le in Hmax. rewrite Hmax, Hstrat.
    exact Hr. }
  unfold restart_agent in *. rewrite Hreg in *. unfold steps_complete.
  set (tgt := target health_info) in *.
  destruct (subprocess_run (tick st) (interrupt_argv tgt)) as [u1 | e1]
    eqn:E1.
  2: { eexists _, _. split; [reflexivity |]. cbn [emit log].
       split; [reflexivity |].
       split; [apply (restart_log_no_probe agent_name tgt); auto |].
       split; [intros ([u Hu] & _); discriminate |].
       split; [reflexivity | now apply Hdispatch]. }
  cbn [emit tick] in *.
  destruct (subprocess_run (S (S (tick st))) (relaunch_argv tgt))
    as [u2 | e2] eqn:E2.
  2: { eexists _, _. split; [reflexivity |]. cbn [emit log].
       rewrite <- !app_assoc. cbn [app].
       split; [reflexivity |].
       split; [apply (restart_log_no_probe agent_name tgt); auto |].
       split; [intros (_ & [u Hu] & _); cbn in Hu; congruence |].
       split; [reflexivity | now apply Hdispatch]. }
  destruct (send_message (S (S (S (S (tick st))))) tgt
                         (reinit_msg agent_name)) as [b | e3] eqn:E3.
  2: { eexists _, _. split; [reflexivity |]. cbn [emit log].
       rewrite <- !app_assoc. cbn [app].
       split; [reflexivity |].
       split; [apply (restart_log_no_probe agent_name tgt); auto |].
       split; [intros (_ & _ & [b Hb]); cbn in Hb; congruence |].
       split; [reflexivity | now apply Hdispatch]. }
  eexists _, _. split; [reflexivity |].
  cbn [mark_responsive emit log health_checks].
  rewrite <- !app_assoc. cbn [app].
  split; [reflexivity |].
  split; [apply (restart_log_no_probe agent_name tgt); auto 6 |].
  split; [| split; [| now apply Hdispatch]].
  - intros _. eexists. rewrite lookup_alter_eq, Hreg.
    cbn [fmap option_fmap option_map]. split; [reflexivity |].
    repeat split; reflexivity.
  - intros Hn. exfalso. apply Hn. cbn. split; [| split]; eauto.
Qed.

Lemma restart_resets_after_completed_steps_witness :
  exists st' evs,
    restart_agent (fun _ => 7%Z) always_sent always_runs "dev" dev_state
    = (Ok tt, st') /\
    log st' = log dev_state ++ evs /\
    Forall (fun ev => is_probe ev = false) evs /\
    (steps_complete always_sent always_runs "dev" dev_info dev_state ->
     exists health_info',
       health_checks st' !! "dev"%string = Some health_info' /\
       consecutive_failures health_info' = 0%Z /\
       last_response health_info' = 7%Z /\
       health_state health_info' = Healthy) /\
    (~ steps_complete always_sent always_runs "dev" dev_info dev_state ->
     health_checks st' = health_checks dev_state) /\
    (default "restart"%string (get_recovery_strategy (config dev_info))
     = "restart"%string ->
     (default 3 (get_max_failures (config dev_info))
      <= consecutive_failures dev_info)%Z ->
     handle_unhealthy_agent (fun _ => 7%Z) always_sent always_runs ∅
                            "dev" dev_state
     = (Ok tt, st')).
Proof.
  apply (restart_resets_after_completed_steps (fun _ => 7%Z) always_sent
           always_runs ∅ "dev" dev_state dev_info).
  reflexivity.
Defined.

(** The claim of C1 as the specification words it fails: when the
    interrupt command fails, the restart of an agent configured for the
    restart strategy completes and leaves its three failures counted;
    the agent is still unhealthy. *)
Lemma restart_failure_keeps_counter :
  health_checks dev_state !! "dev"%string = Some dev_info /\
  get_recovery_strategy (config dev_info) = Some "restart"%string /\
  exists st' health_info',
    restart_agent (fun _ => 7%Z) always_sent always_fails "dev" dev_state
    = (Ok tt, st') /\
    health_checks st' !! "dev"%string = Some health_info' /\
    consecutive_failures health_info' = 3%Z /\
    health_state health_info' = Unhealthy.
Proof.
  split; [reflexivity |]. split; [reflexivity |].
  eexists _, _. split; [reflexivity |]. split; [reflexivity |].
  split; reflexivity.
Qed.

End HealthSpec.

(** ** The assignment run *)

Module AssignmentSpec.
Import Assignment PyFacts FactorSpec.

Section Run.

Variable clock : nat -> Z.
Variable fetch : nat -> string -> nat -> result (list Trend.Row).

(** The loop is the scoring of every candidate followed by the choice
    among the scores. *)
Lemma score_loop_fission reqs agents best best_score st :
  score_loop clock fetch reqs agents best best_score st
  = match score_all clock fetch reqs agents st with
    | (Ok scores, st') => (Ok (fold_left pick scores (best, best_score)), st')
    | (Raise e, st') => (Raise e, st')
    end.
Proof.
  revert best best_score st.
  induction agents as [| a rest IH]; intros best best_score st.
  - reflexivity.
  - cbn [score_loop score_all].
    destruct (score_candidate clock fetch reqs a st) as [[[s |] | e] st1].
    + assert (Hpick : pick (best, best_score) (a, s)
                      = if Qltb best_score s then (Some a, s)
                        else (best, best_score)) by reflexivity.
      destruct (Qltb best_score s); rewrite IH;
        destruct (score_all clock fetch reqs rest st1) as [[scores | e] st2];
        cbn [fold_left]; now rewrite ?Hpick.
    + rewrite IH.
      now destruct (score_all clock fetch reqs rest st1)
        as [[scores | e] st2].
    + reflexivity.
Qed.

(** The choice among the scores: either no score exceeds the starting
    one, or the chosen candidate is the first whose score is greatest. *)
Lemma fold_pick_spec (scores : list (string * Q)) best best_score :
  (fold_left pick scores (best, best_score) = (best, best_score) /\
   Forall (fun c => snd c <= best_score) scores)
  \/
  (exists pre a s post,
     scores = pre ++ (a, s) :: post /\
     fold_left pick scores (best, best_score) = (Some a, s) /\
     best_score < s /\
     Forall (fun c => snd c < s) pre /\
     Forall (fun c => snd c <= s) post).
Proof.
  revert best best_score.
  induction scores as [| [a s] rest IH]; intros best best_score.
  - left. split; [reflexivity | constructor].
  - cbn [fold_left].
    replace (pick (best, best_score) (a, s))
      with (if Qltb best_score s then (Some a, s) else (best, best_score))
      by reflexivity.
    destruct (Qltb best_score s) eqn:E.
    + apply Qltb_lt in E. right.
      destruct (IH (Some a) s) as [[Hf Hall] | (pre & a' & s' & post & Hx)].
      * exists [], a, s, rest. cbn [app].
        repeat split; try assumption. constructor.
      * destruct Hx as (-> & Hf & Hlt & Hpre & Hpost).
        exists ((a, s) :: pre), a', s', post. cbn [app].
        repeat split; try assumption; [lra |].
        constructor; [exact Hlt | exact Hpre].
    + apply Qltb_ge in E.
      destruct (IH best best_score)
        as [[Hf Hall] | (pre & a' & s' & post & Hx)].
      * left. split; [assumption |]. constructor; assumption.
      * destruct Hx as (-> & Hf & Hlt & Hpre & Hpost).
        right. exists ((a, s) :: pre), a', s', post. cbn [app].
        repeat split; try assumption.
        constructor; [cbn; lra | exact Hpre].
Qed.

Lemma workload_factor_state agent_name st :
  snd (_calculate_workload_factor clock agent_name st)
  = {| agent_capabilities := agent_capabilities st;
       workload_tracker :=
         <[agent_name :=
             List.filter (is_active (clock (tick st) - retention))
                         (workload st agent_name)]> (workload_tracker st);
       tick := S (tick st) |}.
Proof. reflexivity. Qed.

Lemma performance_factor_state agent_name st :
  snd (_calculate_performance_factor fetch agent_name st)
  = {| agent_capabilities := agent_capabilities st;
       workload_tracker := workload_tracker st;
       tick := S (tick st) |}.
Proof.
  unfold _calculate_performance_factor.
  destruct (Trend.get_agent_performance_trend fetch (tick st) agent_name 3)
    as [[|] |]; reflexivity.
Qed.

Lemma performance_factor_floor agent_name st :
  1 # 10 <= fst (_calculate_performance_factor fetch agent_name st).
Proof.
  unfold _calculate_performance_factor.
  destruct (Trend.get_agent_performance_trend fetch (tick st) agent_name 3)
    as [[| n a b q t u] |]; cbn [fst]; try lra.
  destruct (max_spec (1 # 10) q) as [[H ->] | [H ->]]; lra.
Qed.

(** What the scoring of one candidate returns and leaves behind. *)
Lemma score_candidate_unregistered reqs a st :
  agent_capabilities st !! a = None ->
  score_candidate clock fetch reqs a st = (Ok None, st).
Proof. intros H. unfold score_candidate. now rewrite H. Qed.

Lemma score_candidate_registered reqs a st caps :
  agent_capabilities st !! a = Some caps ->
  let pruned := List.filter (is_active (clock (tick st) - retention))
                            (workload st a) in
  let st1 := {| agent_capabilities := agent_capabilities st;
                workload_tracker := <[a := pruned]> (workload_tracker st);
                tick := S (tick st) |} in
  let st2 := {| agent_capabilities := agent_capabilities st;
                workload_tracker := <[a := pruned]> (workload_tracker st);
                tick := S (S (tick st)) |} in
  match workload_factor_of (sum (map complexity pruned)) with
  | Raise e => score_candidate clock fetch reqs a st = (Raise e, st1)
  | Ok w =>
      score_candidate clock fetch reqs a st
      = (Ok (Some (_calculate_capability_match caps reqs
                   * fst (_calculate_performance_factor fetch a st1) * w)),
         st2)
  end.
Proof.
  intros H pruned st1 st2. unfold score_candidate. rewrite H.
  unfold _calculate_workload_factor. fold (workload st a). fold pruned.
  fold st1.
  destruct (workload_factor_of (sum (map complexity pruned))) as [w | e];
    [| reflexivity].
  pose proof (performance_factor_state a st1) as Hs.
  destruct (_calculate_performance_factor fetch a st1) as [p st2'].
  cbn [fst snd] in *. now rewrite Hs.
Qed.

Lemma score_all_scores reqs agents st scores st1 :
  score_all clock fetch reqs agents st = (Ok scores, st1) ->
  agent_capabilities st1 = agent_capabilities st /\
  map fst scores = List.filter (registered st) agents /\
  tick st1 = (tick st + 2 * length scores)%nat /\
  Forall (is_score st reqs) scores.
Proof.
  revert st scores st1.
  induction agents as [| a rest IH]; intros st scores st1 H.
  - cbn in H. injection H as <- <-. cbn. repeat split; [lia | constructor].
  - cbn [score_all] in H. cbn [List.filter]. unfold registered at 1.
    destruct (agent_capabilities st !! a) as [caps |] eqn:Ereg.
    + pose proof (score_candidate_registered reqs a st caps Ereg) as Hc.
      cbv zeta in Hc.
      destruct (workload_factor_of
                  (sum (map complexity
                          (List.filter
                             (is_active (clock (tick st) - retention))
                             (workload st a))))) as [w | e] eqn:Ew;
        rewrite Hc in H; [| discriminate].
      match type of H with
      | context [score_all clock fetch reqs rest ?s] =>
          destruct (score_all clock fetch reqs rest s)
            as [[scores' | e] st2] eqn:Erest; [| discriminate];
          destruct (IH _ _ _ Erest) as (Hcaps & Hmap & Htick & Hall)
      end.
      injection H as <- <-. cbn [agent_capabilities tick] in *.
      split; [assumption |]. split; [| split].
      * cbn [map fst]. f_equal. rewrite Hmap.
        apply filter_ext. intros x. reflexivity.
      * cbn [length]. lia.
      * constructor.
        -- eexists caps, _, w, _. cbn [fst snd].
           repeat split; [exact Ereg | apply performance_factor_floor
                          | exact Ew].
        -- eapply Forall_impl; [exact Hall |].
           intros c (caps' & p & w' & S & H1 & H2 & H3 & H4).
           now exists caps', p, w', S.
    + rewrite (score_candidate_unregistered reqs a st Ereg) in H.
      destruct (score_all clock fetch reqs rest st)
        as [[scores' | e] st2] eqn:Erest; [| discriminate].
      injection H as <- <-. now apply IH.
Qed.

Lemma score_all_unregistered reqs agents st :
  (forall a, In a agents -> agent_capabilities st !! a = None) ->
  score_all clock fetch reqs agents st = (Ok [], st).
Proof.
  induction agents as [| a rest IH]; intros H; [reflexivity |].
  cbn [score_all].
  rewrite score_candidate_unregistered by (apply H; now left).
  rewrite IH; [reflexivity |]. intros b Hb. apply H. now right.
Qed.



Lemma filter_sublist {A} (f : A -> bool) (l : list A) :
  List.filter f l `sublist_of` l.
Proof.
  induction l as [| x l IH]; cbn.
  - constructor.
  - destruct (f x); now constructor.
Qed.

(** The state one scored candidate leaves behind: nothing changes for a
    candidate without capability vector, and the list of one with a
    capability vector is pruned at the clock read of that moment. *)
Lemma score_candidate_state reqs a st o st' :
  score_candidate clock fetch reqs a st = (Ok o, st') ->
  agent_capabilities st' = agent_capabilities st /\
  (registered st a = false -> st' = st) /\
  (registered st a = true ->
   tick st' = S (S (tick st)) /\
   workload_tracker st'
   = <[a := List.filter (is_active (clock (tick st) - retention))
                        (workload st a)]> (workload_tracker st)).
Proof.
  intros H. unfold registered.
  destruct (agent_capabilities st !! a) as [caps |] eqn:Ereg.
  - pose proof (score_candidate_registered reqs a st caps Ereg) as Hc.
    cbv zeta in Hc.
    destruct (workload_factor_of _) as [w | e]; rewrite Hc in H;
      [| discriminate].
    injection H as _ <-. cbn. repeat split; discriminate.
  - rewrite (score_candidate_unregistered reqs a st Ereg) in H.
    injection H as _ <-. repeat split; discriminate.
Qed.

Lemma workload_after_prune st st' a (l : list WorkloadEntry) c :
  workload_tracker st' = <[a := l]> (workload_tracker st) ->
  workload st' c = if decide (a = c) then l else workload st c.
Proof.
  intros H. unfold workload. rewrite H.
  destruct (decide (a = c)) as [<- | Hne].
  - now rewrite lookup_insert_eq.
  - now rewrite lookup_insert_ne.
Qed.

Lemma score_all_cons_inv reqs a rest st scores st1 :
  score_all clock fetch reqs (a :: rest) st = (Ok scores, st1) ->
  exists o st' scores',
    score_candidate clock fetch reqs a st = (Ok o, st') /\
    score_all clock fetch reqs rest st' = (Ok scores', st1) /\
    scores = match o with
             | Some total_score => (a, total_score) :: scores'
             | None => scores'
             end.
Proof.
  cbn [score_all]. intros H.
  destruct (score_candidate clock fetch reqs a st) as [[o | e] st'];
    [| discriminate].
  destruct (score_all clock fetch reqs rest st') as [[scores' | e] st2]
    eqn:Erest; [| discriminate].
  injection H as Hs Hst. subst. exists o, st', scores'. auto.
Qed.

Lemma score_all_tick reqs agents st scores st1 :
  score_all clock fetch reqs agents st = (Ok scores, st1) ->
  (tick st <= tick st1)%nat.
Proof.
  intros H. destruct (score_all_scores _ _ _ _ _ H) as (_ & _ & Ht & _).
  lia.
Qed.

(** The effect of the scoring on the workload lists.  No list gains an
    entry; the list of a candidate without capability vector, or of an
    agent that is no candidate, is untouched; the list of every candidate
    with a capability vector is stored in the tracker and holds only
    entries inside the retention window of a clock read of the run; an
    entry inside the window at every clock read of the run is kept. *)
Lemma score_all_workload reqs agents st scores st1 :
  score_all clock fetch reqs agents st = (Ok scores, st1) ->
  (forall c, workload st1 c `sublist_of` workload st c) /\
  (forall c, ~ (In c agents /\ registered st c = true) ->
             workload_tracker st1 !! c = workload_tracker st !! c) /\
  (forall c, In c agents -> registered st c = true ->
     exists k, (tick st <= k < tick st1)%nat /\
               workload_tracker st1 !! c = Some (workload st1 c) /\
               Forall (fun e => is_active (clock k - retention) e = true)
                      (workload st1 c)) /\
  (forall c e, In e (workload st c) ->
     (forall k, (tick st <= k < tick st1)%nat ->
                is_active (clock k - retention) e = true) ->
     In e (workload st1 c)).
Proof.
  revert st scores st1.
  induction agents as [| a rest IH]; intros st scores st1 H.
  - cbn in H. injection H as _ <-. repeat split; auto.
    intros c []. 
  - apply score_all_cons_inv in H as (o & st' & scores' & Hc & Hrest & _).
    pose proof (score_all_tick _ _ _ _ _ Hrest) as Htick.
    destruct (IH _ _ _ Hrest) as (Hsub & Hframe & Hprune & Hkeep).
    destruct (score_candidate_state _ _ _ _ _ Hc) as (Hcaps & Hun & Hreg).
    assert (Hregd : forall c, registered st' c = registered st c).
    { intros c. unfold registered. now rewrite Hcaps. }
    destruct (registered st a) eqn:Ea.
    + destruct (Hreg eq_refl) as [Ht Hw]. clear Hun Hreg.
      pose proof (fun c => workload_after_prune st st' a _ c Hw) as Hwl.
      split; [| split; [| split]].
      * intros c. etrans; [apply Hsub |]. rewrite Hwl.
        destruct (decide (a = c)) as [<- |]; [apply filter_sublist | done].
      * intros c Hc'. rewrite Hframe.
        -- rewrite Hw, lookup_insert_ne; [reflexivity |].
           intros <-. apply Hc'. split; [now left | assumption].
        -- intros [Hin Hr]. apply Hc'. rewrite <- Hregd.
           split; [now right | assumption].
      * intros c Hin Hr.
        destruct (in_dec string_dec c rest) as [Hrestin | Hnotin].
        -- destruct (Hprune c Hrestin) as (k & Hk & Hl & Hall);
             [now rewrite Hregd |].
           exists k. split; [lia | split; assumption].
        -- destruct Hin as [<- | Hin]; [| contradiction].
           assert (Hfr : workload_tracker st1 !! a
                         = workload_tracker st' !! a).
           { apply Hframe. intros [Hin _]. contradiction. }
           assert (Hl : workload st1 a = workload st' a).
           { unfold workload. now rewrite Hfr. }
           exists (tick st). split; [lia |].
           rewrite Hl, Hfr, Hwl, Hw, lookup_insert_eq.
           destruct (decide (a = a)); [| congruence].
           split; [reflexivity |].
           apply List.Forall_forall. intros x Hx.
           now apply filter_In in Hx as [_ Hx].
      * intros c e He Hact. apply Hkeep.
        -- rewrite Hwl. destruct (decide (a = c)) as [<- |]; [| assumption].
           apply filter_In. split; [assumption |]. apply Hact. lia.
        -- intros k Hk. apply Hact. lia.
    + rewrite (Hun eq_refl) in *. clear Hun Hreg.
      split; [| split; [| split]].
      * exact Hsub.
      * intros c Hc'. apply Hframe. intros [Hin Hr]. apply Hc'.
        split; [now right | assumption].
      * intros c [<- | Hin] Hr; [congruence |]. now apply Hprune.
      * exact Hkeep.
Qed.

(** [assign_optimal_task] in terms of the scores of the run. *)
Lemma assign_by_scores task agents st scores st1 :
  score_all clock fetch (default [] (get_required_skills task)) agents st
  = (Ok scores, st1) ->
  assign_optimal_task clock fetch task agents st
  = match fst (fold_left pick scores (None, 0)) with
    | None => (Ok None, st1)
    | Some best_agent =>
        if truthy best_agent
        then (Ok (Some best_agent),
              record_assignment clock task best_agent st1)
        else (Ok (Some best_agent), st1)
    end.
Proof.
  intros H. unfold assign_optimal_task.
  destruct agents as [| a rest].
  - cbn in H. injection H as <- <-. reflexivity.
  - rewrite score_loop_fission, H.
    now destruct (fold_left pick scores (None, 0)) as [[b |] bs].
Qed.

(** The workload lists after the call: those the scoring left, and one
    new entry at the end of the list of the chosen agent when its name is
    not empty. *)
Lemma assign_workload task agents st scores st1 :
  score_all clock fetch (default [] (get_required_skills task)) agents st
  = (Ok scores, st1) ->
  exists r st',
    assign_optimal_task clock fetch task agents st = (Ok r, st') /\
    forall c,
      workload st' c
      = workload st1 c
        ++ (if bool_decide (r = Some c) && truthy c
            then [new_entry task (clock (tick st1))] else []).
Proof.
  intros H. rewrite (assign_by_scores task agents st scores st1 H).
  destruct (fst (fold_left pick scores (None, 0))) as [b |].
  - destruct (truthy b) eqn:Eb.
    + eexists (Some b), _. split; [reflexivity |]. intros c.
      unfold workload, record_assignment. cbn [workload_tracker].
      destruct (decide (b = c)) as [<- | Hne].
      * rewrite lookup_insert_eq, bool_decide_eq_true_2, Eb by reflexivity.
        reflexivity.
      * rewrite lookup_insert_ne, bool_decide_eq_false_2 by congruence.
        cbn. now rewrite app_nil_r.
    + eexists (Some b), _. split; [reflexivity |]. intros c.
      destruct (decide (b = c)) as [<- | Hne].
      * rewrite Eb, andb_false_r. now rewrite app_nil_r.
      * rewrite bool_decide_eq_false_2 by congruence.
        cbn. now rewrite app_nil_r.
  - eexists None, _. split; [reflexivity |]. intros c.
    rewrite bool_decide_eq_false_2 by discriminate.
    cbn. now rewrite app_nil_r.
Qed.

Lemma zero_capability_zero_scores reqs agents st scores st1 :
  score_all clock fetch reqs agents st = (Ok scores, st1) ->
  (forall a caps, In a agents -> agent_capabilities st !! a = Some caps ->
                  _calculate_capability_match caps reqs == 0) ->
  Forall (fun c => snd c == 0) scores.
Proof.
  intros H Hzero.
  destruct (score_all_scores _ _ _ _ _ H) as (_ & Hmap & _ & Hall).
  apply List.Forall_forall. intros c Hc.
  assert (Hin : In (fst c) agents).
  { assert (In (fst c) (map fst scores)) as Hf by now apply in_map.
    rewrite Hmap in Hf. now apply filter_In in Hf as [Hf _]. }
  rewrite List.Forall_forall in Hall.
  destruct (Hall c Hc) as (caps & p & w & S & Hcaps & _ & _ & ->).
  rewrite (Hzero (fst c) caps Hin Hcaps). ring.
Qed.

End Run.

Lemma zero_scores_none
    clock fetch task agents st scores st1 :
  score_all clock fetch (default [] (get_required_skills task)) agents st
  = (Ok scores, st1) ->
  Forall (fun c => snd c == 0) scores ->
  assign_optimal_task clock fetch task agents st = (Ok None, st1).
Proof.
  intros H Hzero.
  rewrite (assign_by_scores clock fetch task agents st scores st1 H).
  destruct (fold_pick_spec scores None 0)
    as [[Hf _] | (pre & a & s & post & -> & _ & Hpos & _)].
  - now rewrite Hf.
  - exfalso. apply Forall_app in Hzero as [_ Hz].
    inversion Hz as [| ? ? Hs _]; subst. cbn in Hs. lra.
Qed.

(** C10.  When every scored candidate has the score 0, as when the
    capability match of each of them is 0, the result is no assignment
    and no workload list gains an entry: each list after the call is a
    sublist of the list before it. *)
Theorem zero_scores_no_assignment :
  forall clock fetch task agents st scores st1,
    score_all clock fetch (default [] (get_required_skills task)) agents st
    = (Ok scores, st1) ->
    ((forall a caps, In a agents ->
                     agent_capabilities st !! a = Some caps ->
                     _calculate_capability_match
                       caps (default [] (get_required_skills task)) == 0) ->
     Forall (fun c => snd c == 0) scores) /\
    (Forall (fun c => snd c == 0) scores ->
     exists st',
       assign_optimal_task clock fetch task agents st = (Ok None, st') /\
       forall c, workload st' c `sublist_of` workload st c /\
                 (length (workload st' c) <= length (workload st c))%nat).
Proof.
  intros clock fetch task agents st scores st1 H. split.
  - now apply (zero_capability_zero_scores clock fetch _ agents st scores st1).
  - intros Hzero.
    pose proof (zero_scores_none clock fetch task agents st scores st1
                  H Hzero) as Hassign.
    exists st1. split; [exact Hassign |].
    destruct (score_all_workload clock fetch _ _ _ _ _ H) as (Hsub & _).
    intros c. split; [apply Hsub | apply sublist_length, Hsub].
Qed.

Lemma zero_scores_no_assignment_witness :
  exists st',
    assign_optimal_task noon no_samples needs_x ["a"%string] unskilled_state
    = (Ok None, st') /\
    forall c, workload st' c `sublist_of` workload unskilled_state c /\
              (length (workload st' c)
               <= length (workload unskilled_state c))%nat.
Proof.
  edestruct (zero_scores_no_assignment noon no_samples needs_x
               ["a"%string] unskilled_state) as [_ H].
  - reflexivity.
  - apply H. repeat constructor.
Defined.

(** The part of C9 the code keeps.  After a call that does not raise,
    the list of every candidate with a capability vector is a pruned
    sublist of its list before the call, every entry of it inside the
    retention window of a clock read of the run, followed by the new
    entry when the candidate is the chosen agent and its name is not
    empty. *)
Lemma assign_prunes_every_candidate clock fetch task agents st scores st1 :
  score_all clock fetch (default [] (get_required_skills task)) agents st
  = (Ok scores, st1) ->
  exists r st',
    assign_optimal_task clock fetch task agents st = (Ok r, st') /\
    forall c, In c agents -> registered st c = true ->
      exists k kept,
        (tick st <= k < tick st1)%nat /\
        kept `sublist_of` workload st c /\
        Forall (fun e => is_active (clock k - retention) e = true) kept /\
        workload st' c
        = kept ++ (if bool_decide (r = Some c) && truthy c
                   then [new_entry task (clock (tick st1))] else []).
Proof.
  intros H.
  destruct (assign_workload clock fetch task agents st scores st1 H)
    as (r & st' & Hassign & Hw).
  destruct (score_all_workload clock fetch _ _ _ _ _ H)
    as (Hsub & _ & Hprune & _).
  exists r, st'. split; [exact Hassign |].
  intros c Hin Hreg.
  destruct (Hprune c Hin Hreg) as (k & Hk & _ & Hall).
  exists k, (workload st1 c). repeat split; try apply Hk; auto.
Qed.

(** C9 at the agent registered under the empty name.  The agent is the
    only candidate, it is scored and chosen, and the call returns it;
    its workload list is stored pruned and gains no entry. *)
Theorem empty_name_gains_no_entry :
  registered nameless_state "" = true /\
  exists st',
    assign_optimal_task noon no_samples no_requirements [""%string]
                        nameless_state
    = (Ok (Some ""%string), st') /\
    workload_tracker st' !! ""%string = Some [].
Proof.
  split; [reflexivity |].
  eexists. split; reflexivity.
Qed.

End AssignmentSpec.

(** ** The choice among the scores, in binary64 *)

Module RoundedAssignmentSpec.
Import Binary64 RoundedAssignment Binary64Facts.

Section Run.

Variable clock : nat -> Z.
Variable fetch : nat -> string -> nat -> result (list RoundedTrend.Row).

Lemma rounded_loop_fission reqs agents best best_score st :
  score_loop clock fetch reqs agents best best_score st
  = match score_all clock fetch reqs agents st with
    | (Ok scores, st') => (Ok (fold_left pick scores (best, best_score)), st')
    | (Raise e, st') => (Raise e, st')
    end.
Proof.
  revert best best_score st.
  induction agents as [| a rest IH]; intros best best_score st.
  - reflexivity.
  - cbn [score_loop score_all].
    destruct (score_candidate clock fetch reqs a st) as [[[s |] | e] st1].
    + assert (Hpick : pick (best, best_score) (a, s)
                      = if ltb best_score s then (Some a, s)
                        else (best, best_score)) by reflexivity.
      destruct (ltb best_score s); rewrite IH;
        destruct (score_all clock fetch reqs rest st1) as [[scores | e] st2];
        cbn [fold_left]; now rewrite ?Hpick.
    + rewrite IH.
      now destruct (score_all clock fetch reqs rest st1)
        as [[scores | e] st2].
    + reflexivity.
Qed.

(** The choice among the scores: either no score exceeds the starting
    one, or the chosen candidate is the first one whose score no other
    exceeds. *)
Lemma rounded_pick_spec (scores : list (string * float)) best best_score :
  (fold_left pick scores (best, best_score) = (best, best_score) /\
   Forall (fun c => ltb best_score (snd c) = false) scores)
  \/
  (exists pre a s post,
     scores = pre ++ (a, s) :: post /\
     fold_left pick scores (best, best_score) = (Some a, s) /\
     ltb best_score s = true /\
     Forall (fun c => leb s (snd c) = false) pre /\
     Forall (fun c => ltb s (snd c) = false) post).
Proof.
  revert best best_score.
  induction scores as [| [a s] rest IH]; intros best best_score.
  - left. split; [reflexivity | constructor].
  - cbn [fold_left].
    replace (pick (best, best_score) (a, s))
      with (if ltb best_score s then (Some a, s) else (best, best_score))
      by reflexivity.
    destruct (ltb best_score s) eqn:E.
    + right.
      destruct (IH (Some a) s) as [[Hf Hall] | (pre & a' & s' & post & Hx)].
      * exists [], a, s, rest. cbn [app].
        repeat split; try assumption. constructor.
      * destruct Hx as (-> & Hf & Hlt & Hpre & Hpost).
        exists ((a, s) :: pre), a', s', post. cbn [app].
        repeat split; try assumption.
        -- now apply (ltb_trans best_score s s').
        -- constructor; [| exact Hpre]. cbn [snd]. now apply ltb_not_leb.
    + destruct (IH best best_score)
        as [[Hf Hall] | (pre & a' & s' & post & Hx)].
      * left. split; [assumption |]. constructor; assumption.
      * destruct Hx as (-> & Hf & Hlt & Hpre & Hpost).
        right. exists ((a, s) :: pre), a', s', post. cbn [app].
        repeat split; try assumption.
        constructor; [| exact Hpre]. cbn [snd].
        destruct (leb s' s) eqn:El; [| reflexivity].
        rewrite (ltb_leb_trans best_score s' s Hlt El) in E. discriminate.
Qed.

Lemma rounded_candidate_unregistered reqs a st :
  agent_capabilities st !! a = None ->
  score_candidate clock fetch reqs a st = (Ok None, st).
Proof. intros H. unfold score_candidate. now rewrite H. Qed.

(** The score of a candidate with a capability vector: the rounded
    product of its capability match, its performance factor and its
    workload factor, unless the divisor of the workload factor is zero. *)
Lemma rounded_candidate_registered reqs a st caps :
  agent_capabilities st !! a = Some caps ->
  let S := sum (map complexity (active_tasks clock a st)) in
  let st1 := snd (_calculate_workload_factor clock a st) in
  let p := fst (_calculate_performance_factor fetch a st1) in
  let st2 := snd (_calculate_performance_factor fetch a st1) in
  score_candidate clock fetch reqs a st
  = if eqb (add one S) zero
    then (Raise ZeroDivisionError, st1)
    else (Ok (Some (mul (mul (_calculate_capability_match caps reqs) p)
                        (max (literal 1 10) (div one (add one S))))),
          st2).
Proof.
  intros H S st1 p st2. unfold score_candidate. rewrite H.
  unfold _calculate_workload_factor, workload_factor_of, truediv in *.
  fold S. cbn [snd] in st1. fold st1.
  destruct (eqb (add one S) zero); cbn [bind]; [reflexivity |].
  subst p st2.
  now destruct (_calculate_performance_factor fetch a st1) as [p st2].
Qed.

Lemma rounded_candidate_capabilities reqs a st r st' :
  score_candidate clock fetch reqs a st = (r, st') ->
  agent_capabilities st' = agent_capabilities st.
Proof.
  unfold score_candidate.
  destruct (agent_capabilities st !! a) as [caps |].
  - unfold _calculate_workload_factor.
    destruct (workload_factor_of _) as [w | e]; cbn.
    + unfold _calculate_performance_factor. cbn [tick].
      destruct (RoundedTrend.get_agent_performance_trend _ _ _ _)
        as [[|] |]; intros [= _ <-]; reflexivity.
    + intros [= _ <-]. reflexivity.
  - intros [= _ <-]. reflexivity.
Qed.

Lemma rounded_candidate_raises reqs a st e st' :
  score_candidate clock fetch reqs a st = (Raise e, st') ->
  e = ZeroDivisionError.
Proof.
  destruct (agent_capabilities st !! a) as [caps |] eqn:Ereg.
  - rewrite (rounded_candidate_registered reqs a st caps Ereg).
    destruct (eqb _ zero); intros [=]; congruence.
  - rewrite (rounded_candidate_unregistered reqs a st Ereg). discriminate.
Qed.

Lemma rounded_scores_raise reqs agents st e st' :
  score_all clock fetch reqs agents st = (Raise e, st') ->
  e = ZeroDivisionError.
Proof.
  revert st. induction agents as [| a rest IH]; intros st; cbn [score_all].
  - discriminate.
  - destruct (score_candidate clock fetch reqs a st) as [[o | e0] st1] eqn:Ec.
    + destruct (score_all clock fetch reqs rest st1) as [[scores | e1] st2]
        eqn:Er; intros [=]; subst. now apply (IH st1).
    + intros [=]; subst. now apply (rounded_candidate_raises _ _ _ _ _ Ec).
Qed.

Lemma rounded_scores_names reqs agents st scores st1 :
  score_all clock fetch reqs agents st = (Ok scores, st1) ->
  agent_capabilities st1 = agent_capabilities st /\
  map fst scores = List.filter (registered st) agents.
Proof.
  revert st scores st1.
  induction agents as [| a rest IH]; intros st scores st1 H.
  - cbn in H. injection H as <- <-. now split.
  - cbn [score_all] in H. cbn [List.filter]. unfold registered at 1.
    destruct (score_candidate clock fetch reqs a st) as [[o | e] st'] eqn:Ec;
      [| discriminate].
    pose proof (rounded_candidate_capabilities _ _ _ _ _ Ec) as Hcaps.
    destruct (score_all clock fetch reqs rest st') as [[scores' | e] st2]
      eqn:Erest; [| discriminate].
    destruct (IH _ _ _ Erest) as [Hc Hmap].
    injection H as <- <-.
    assert (Hf : List.filter (registered st') rest
                 = List.filter (registered st) rest).
    { apply filter_ext. intros x. unfold registered. now rewrite Hcaps. }
    split; [congruence |].
    destruct (agent_capabilities st !! a) as [caps |] eqn:Ereg.
    + rewrite (rounded_candidate_registered reqs a st caps Ereg) in Ec.
      destruct (eqb _ zero); [discriminate |].
      injection Ec as <- _. cbn [map fst]. now rewrite Hmap, Hf.
    + rewrite (rounded_candidate_unregistered reqs a st Ereg) in Ec.
      injection Ec as <- _. now rewrite Hmap, Hf.
Qed.

Lemma rounded_scores_unregistered reqs agents st :
  (forall a, In a agents -> agent_capabilities st !! a = None) ->
  score_all clock fetch reqs agents st = (Ok [], st).
Proof.
  induction agents as [| a rest IH]; intros H; [reflexivity |].
  cbn [score_all].
  rewrite rounded_candidate_unregistered by (apply H; now left).
  rewrite IH; [reflexivity |]. intros b Hb. apply H. now right.
Qed.

(** The candidates are scored in order, each in the state the scoring
    of the earlier ones left. *)
Lemma rounded_scores_app reqs l1 l2 st :
  score_all clock fetch reqs (l1 ++ l2) st
  = match score_all clock fetch reqs l1 st with
    | (Raise e, st1) => (Raise e, st1)
    | (Ok s1, st1) =>
        match score_all clock fetch reqs l2 st1 with
        | (Raise e, st2) => (Raise e, st2)
        | (Ok s2, st2) => (Ok (s1 ++ s2), st2)
        end
    end.
Proof.
  revert st. induction l1 as [| a rest IH]; intros st.
  - cbn. now destruct (score_all clock fetch reqs l2 st) as [[s2 | e] st2].
  - cbn [app score_all].
    destruct (score_candidate clock fetch reqs a st) as [[o | e] st'];
      [| reflexivity].
    rewrite IH.
    destruct (score_all clock fetch reqs rest st') as [[s1 | e] st1];
      [| reflexivity].
    destruct (score_all clock fetch reqs l2 st1) as [[s2 | e] st2];
      [| reflexivity].
    now destruct o.
Qed.

Lemma rounded_scores_one reqs a st :
  score_all clock fetch reqs [a] st
  = match score_candidate clock fetch reqs a st with
    | (Raise e, st') => (Raise e, st')
    | (Ok (Some s), st') => (Ok [(a, s)], st')
    | (Ok None, st') => (Ok [], st')
    end.
Proof.
  cbn [score_all].
  now destruct (score_candidate clock fetch reqs a st) as [[[s |] | e] st'].
Qed.

(** [assign_optimal_task] in terms of the scores of the run. *)
Lemma rounded_assign_by_scores task agents st :
  assign_optimal_task clock fetch task agents st
  = match score_all clock fetch (default [] (get_required_skills task))
                    agents st with
    | (Raise e, st1) => (Raise e, st1)
    | (Ok scores, st1) =>
        match fst (fold_left pick scores (None, zero)) with
        | None => (Ok None, st1)
        | Some best_agent =>
            if truthy best_agent
            then (Ok (Some best_agent),
                  record_assignment clock task best_agent st1)
            else (Ok (Some best_agent), st1)
        end
    end.
Proof.
  unfold assign_optimal_task.
  destruct agents as [| a rest]; [reflexivity |].
  rewrite rounded_loop_fission.
  destruct (score_all clock fetch _ (a :: rest) st) as [[scores | e] st1];
    [| reflexivity].
  now destruct (fold_left pick scores (None, zero)) as [[b |] bs].
Qed.

End Run.

(** C3, as the code has it.  Without a candidate that has a capability
    vector, in particular for an empty candidate list, the result is no
    assignment and not an error.  Otherwise the candidates that have a
    capability vector are scored in order, each in the state the scoring
    of the earlier ones left; a score is the rounded product of capability
    match, performance factor and workload factor, and the scoring raises
    [ZeroDivisionError], and so does the call, exactly when the rounded
    sum [1.0 + S] of a candidate is zero.  When the scoring returns, the
    result is the candidate whose score is positive, is reached by no
    earlier score and is exceeded by no later one, and no assignment when
    no score is positive. *)
Theorem assign_selects_first_greatest_positive :
  forall clock fetch task agents st,
    let reqs := default [] (get_required_skills task) in
    ((forall a, In a agents -> agent_capabilities st !! a = None) ->
     assign_optimal_task clock fetch task agents st = (Ok None, st)) /\
    (forall done rest,
       score_all clock fetch reqs (done ++ rest) st
       = match score_all clock fetch reqs done st with
         | (Raise e, st1) => (Raise e, st1)
         | (Ok s1, st1) =>
             match score_all clock fetch reqs rest st1 with
             | (Raise e, st2) => (Raise e, st2)
             | (Ok s2, st2) => (Ok (s1 ++ s2), st2)
             end
         end) /\
    (forall a st0,
       match agent_capabilities st0 !! a with
       | None => score_all clock fetch reqs [a] st0 = (Ok [], st0)
       | Some caps =>
           let S := sum (map complexity (active_tasks clock a st0)) in
           let st1 := snd (_calculate_workload_factor clock a st0) in
           let p := fst (_calculate_performance_factor fetch a st1) in
           let st2 := snd (_calculate_performance_factor fetch a st1) in
           score_all clock fetch reqs [a] st0
           = if eqb (add one S) zero
             then (Raise ZeroDivisionError, st1)
             else (Ok [(a, mul (mul (_calculate_capability_match caps reqs) p)
                               (max (literal 1 10) (div one (add one S))))],
                   st2)
       end) /\
    (forall e st1,
       score_all clock fetch reqs agents st = (Raise e, st1) ->
       e = ZeroDivisionError /\
       assign_optimal_task clock fetch task agents st = (Raise e, st1)) /\
    (forall scores st1,
       score_all clock fetch reqs agents st = (Ok scores, st1) ->
       map fst scores = List.filter (registered st) agents /\
       exists r st',
         assign_optimal_task clock fetch task agents st = (Ok r, st') /\
         (r = None <-> Forall (fun c => ltb zero (snd c) = false) scores) /\
         (forall a, r = Some a ->
            exists pre s post,
              scores = pre ++ (a, s) :: post /\
              ltb zero s = true /\
              Forall (fun c => leb s (snd c) = false) pre /\
              Forall (fun c => ltb s (snd c) = false) post)).
Proof.
  intros clock fetch task agents st reqs.
  split; [| split; [| split; [| split]]].
  - intros Hnone. rewrite rounded_assign_by_scores. fold reqs.
    now rewrite rounded_scores_unregistered.
  - intros done rest. apply rounded_scores_app.
  - intros a st0. rewrite rounded_scores_one.
    destruct (agent_capabilities st0 !! a) as [caps |] eqn:Ereg.
    + cbv zeta.
      rewrite (rounded_candidate_registered clock fetch reqs a st0 caps Ereg).
      now destruct (eqb _ zero).
    + now rewrite rounded_candidate_unregistered.
  - intros e st1 H. split.
    + now apply (rounded_scores_raise clock fetch reqs agents st e st1).
    + rewrite rounded_assign_by_scores. fold reqs. now rewrite H.
  - intros scores st1 H.
    destruct (rounded_scores_names clock fetch _ _ _ _ _ H) as [_ Hmap].
    split; [exact Hmap |].
    rewrite rounded_assign_by_scores. fold reqs. rewrite H.
    destruct (rounded_pick_spec scores None zero)
      as [[Hf Hle] | (pre & a & s & post & -> & Hf & Hpos & Hpre & Hpost)];
      rewrite Hf; cbn [fst].
    + exists None, st1. split; [reflexivity |]. split.
      * split; auto.
      * intros a [=].
    + assert (Hnot : ~ Forall (fun c : string * float =>
                                 ltb zero (snd c) = false)
                       (pre ++ (a, s) :: post)).
      { intros HF. apply Forall_app in HF as [_ HF].
        inversion HF as [| ? ? Hs _]; subst. cbn in Hs. congruence. }
      destruct (truthy a); eexists (Some a), _;
        (split; [reflexivity |]); (split; [split; [discriminate | tauto] |]);
        intros a' [= <-]; exists pre, s, post; auto.
Qed.

(** The candidates Q and P have the same exact product 4/25; rounded,
    the score of Q is 0.15999999999999998 and that of P is
    0.16000000000000003, and P is chosen although Q comes first. *)
Lemma assign_selects_first_greatest_positive_witness :
  exists sQ sP st1 st',
    score_all noon no_samples
              (default [] (get_required_skills needs_x_fully))
              ["Q"; "ghost"; "P"]%string near_tie_state
    = (Ok [("Q"%string, sQ); ("P"%string, sP)], st1) /\
    sQ = S754_finite false 5764607523034234 (-55) /\
    sP = S754_finite false 5764607523034236 (-55) /\
    assign_optimal_task noon no_samples needs_x_fully
                        ["Q"; "ghost"; "P"]%string near_tie_state
    = (Ok (Some "P"%string), st').
Proof.
  destruct (assign_selects_first_greatest_positive
              noon no_samples needs_x_fully
              ["Q"; "ghost"; "P"]%string near_tie_state)
    as (_ & _ & _ & _ & Hsel).
  cbv zeta in Hsel.
  destruct (score_all noon no_samples
              (default [] (get_required_skills needs_x_fully))
              ["Q"; "ghost"; "P"]%string near_tie_state)
    as [[scores | e] st1] eqn:Hscores.
  - destruct (Hsel scores st1 eq_refl) as (_ & r & st' & Hr & _ & _).
    vm_compute in Hscores. injection Hscores as <- <-.
    eexists _, _, _, st'. split; [reflexivity |].
    split; [reflexivity |]. split; [reflexivity |].
    rewrite Hr. f_equal. f_equal.
    vm_compute in Hr. now injection Hr as <- _.
  - vm_compute in Hscores. discriminate.
Defined.

(** The claim of C3 as the specification words it fails: the only
    candidate has a capability vector and the score 0, the greatest of
    the run, and the result is no assignment. *)
Lemma unskilled_candidate_not_assigned :
  registered unskilled_state "a" = true /\
  (exists st1,
     score_all noon no_samples (default [] (get_required_skills needs_x))
               ["a"%string] unskilled_state
     = (Ok [("a"%string, zero)], st1)) /\
  fst (assign_optimal_task noon no_samples needs_x ["a"%string]
                           unskilled_state) = Ok None.
Proof.
  split; [reflexivity |]. split.
  - eexists. vm_compute. reflexivity.
  - vm_compute. reflexivity.
Qed.

(** A recorded complexity of -1.0 makes the divisor of the workload
    factor zero: the call raises. *)
Example negative_workload_raises :
  exists st',
    assign_optimal_task noon no_samples needs_x ["a"%string] refunded_state
    = (Raise ZeroDivisionError, st').
Proof. eexists. vm_compute. reflexivity. Qed.

(** The arithmetic of the code behind C4 and C7.  The sums 10 and 20
    both give the floor 0.1, and the factors of 2.5 and of the next
    float above it agree: the factor is not strictly decreasing.  An
    agent without skill x still gets the match 1.0 when x is required at
    the level 2^-60 next to a skill it has: the small weight is absorbed
    by the sum. *)
Example rounded_factor_not_strict :
  workload_factor_of (of_Z 10) = Ok (literal 1 10) /\
  workload_factor_of (of_Z 20) = Ok (literal 1 10) /\
  ltb (literal 5 2) (S754_finite false 5629499534213121 (-51)) = true /\
  workload_factor_of (literal 5 2)
  = workload_factor_of (S754_finite false 5629499534213121 (-51)).
Proof. repeat split; vm_compute; reflexivity. Qed.

Example rounded_match_absorbs :
  _calculate_capability_match
    {[ "y"%string := one ]}
    [("x"%string, literal 1 (2 ^ 60)); ("y"%string, one)]
  = one.
Proof. vm_compute. reflexivity. Qed.

End RoundedAssignmentSpec.

(** * Further properties of the code *)

(** ** Averages and trends *)

Module TrendExtra.
Import Binary64 RoundedTrend Binary64Facts RoundedTrendSpec.

(** [_calculate_trend] returns on every sequence. *)
Lemma rounded_trend_returns (values : list float) :
  exists b, _calculate_trend values = Ok b /\
            ((length values < 2)%nat -> b = true).
Proof.
  destruct (Nat.lt_ge_cases (length values) 2) as [Hs | Hl].
  - exists true. split; [now apply rounded_trend_short | reflexivity].
  - pose proof (rounded_trend_halves
                  (firstn (length values / 2) values)
                  (skipn (length values / 2) values)) as Hh.
    rewrite firstn_skipn in Hh.
    eexists. split.
    + apply Hh; [exact Hl |].
      apply firstn_length_le, Nat.Div0.div_le_upper_bound. lia.
    + intros. lia.
Qed.

Lemma rounded_avg_returns (xs : list float) :
  exists q, avg_or_zero xs = Ok q /\
            (xs = [] -> q = zero) /\
            (xs <> [] -> q = average xs).
Proof.
  destruct xs as [| x rest].
  - exists zero. repeat split; congruence.
  - exists (average (x :: rest)). split.
    + unfold avg_or_zero. rewrite div_int_pos; [reflexivity |].
      cbn [length]. lia.
    + split; [discriminate | reflexivity].
Qed.

Lemma rounded_trend_of_rows fetch k agent_name days rows :
  fetch k agent_name days = Ok rows ->
  rows <> [] ->
  exists rt cr qs improving last_update,
    get_agent_performance_trend fetch k agent_name days
    = Ok (Summary (length rows) rt cr qs improving (Some last_update)) /\
    last (map timestamp rows) = Some last_update /\
    (omap quality_score rows = [] -> qs = zero) /\
    (omap quality_score rows <> [] ->
     qs = average (omap quality_score rows)) /\
    ((length (omap quality_score rows) < 2)%nat -> improving = true).
Proof.
  intros Hf Hne. unfold get_agent_performance_trend. rewrite Hf.
  cbn [bind].
  destruct rows as [| row rest]; [congruence |].
  set (all := row :: rest).
  destruct (rounded_avg_returns (omap response_time all)) as (rt & -> & _).
  destruct (rounded_avg_returns (omap task_completion_rate all))
    as (cr & -> & _).
  destruct (rounded_avg_returns (omap quality_score all))
    as (qs & -> & Hz & Ha).
  destruct (rounded_trend_returns (omap quality_score all))
    as (b & -> & Hb).
  cbn [bind].
  assert (Hlast : exists t, last (map timestamp all) = Some t).
  { apply last_is_Some. subst all. cbn. discriminate. }
  destruct Hlast as [t Ht].
  exists rt, cr, qs, b, t. rewrite Ht. auto.
Qed.

(** X1.  When the query returns, [get_agent_performance_trend] returns
    too.  Without rows the result is the no-data dictionary.  With rows
    it is a summary that counts every row and carries the timestamp of
    the last one; its average quality score is 0 when no row has a score
    and otherwise the rounded sum of the scores present divided by their
    number; with fewer than two scores the trend is reported as
    improving. *)
Theorem performance_trend_summary :
  forall fetch k agent_name days rows,
    fetch k agent_name days = Ok rows ->
    (get_agent_performance_trend fetch k agent_name days = Ok NoData
     <-> rows = []) /\
    (rows <> [] ->
     exists rt cr qs improving last_update,
       get_agent_performance_trend fetch k agent_name days
       = Ok (Summary (length rows) rt cr qs improving (Some last_update)) /\
       last (map timestamp rows) = Some last_update /\
       (omap quality_score rows = [] -> qs = zero) /\
       (omap quality_score rows <> [] ->
        qs = average (omap quality_score rows)) /\
       ((length (omap quality_score rows) < 2)%nat -> improving = true)).
Proof.
  intros fetch k agent_name days rows Hf. split.
  - split.
    + intros H. destruct rows as [| row rest]; [reflexivity |].
      destruct (rounded_trend_of_rows fetch k agent_name days
                  (row :: rest) Hf)
        as (rt & cr & qs & b & t & E & _); [discriminate |].
      rewrite E in H. discriminate.
    + intros ->. unfold get_agent_performance_trend. now rewrite Hf.
  - now apply rounded_trend_of_rows.
Qed.

Lemma performance_trend_summary_witness :
  exists rt cr improving,
    get_agent_performance_trend (fun _ _ _ => Ok sample_rows) 0 "dev" 7
    = Ok (Summary 2 rt cr (literal 6 10) improving (Some 2%Z)).
Proof.
  destruct (performance_trend_summary
              (fun _ _ _ => Ok sample_rows) 0%nat "dev"%string 7%nat
              sample_rows eq_refl) as [_ H].
  destruct H as (rt & cr & qs & b & t & E & Ht & _ & Hq & _);
    [discriminate |].
  exists rt, cr, b. rewrite E.
  injection Ht as <-.
  rewrite Hq by discriminate.
  vm_compute. reflexivity.
Defined.

(** X2.  A sequence made of a non-empty block of samples followed by
    the same block is never improving; in particular a constant sequence
    of even length is not. *)
Theorem trend_of_repeated_halves :
  (forall block : list float,
     block <> [] -> _calculate_trend (block ++ block) = Ok false) /\
  (forall (x : float) (n : nat),
     (0 < n)%nat -> _calculate_trend (repeat x (2 * n)) = Ok false).
Proof.
  assert (H : forall block : list float,
             block <> [] -> _calculate_trend (block ++ block) = Ok false).
  { intros block Hne. destruct block as [| x rest]; [congruence |].
    rewrite rounded_trend_halves.
    - now rewrite ltb_irrefl.
    - rewrite length_app. cbn [length]. lia.
    - rewrite length_app.
      replace (length (x :: rest) + length (x :: rest))%nat
        with (length (x :: rest) * 2)%nat by lia.
      now rewrite Nat.div_mul. }
  split; [exact H |].
  intros x n Hn.
  replace (2 * n)%nat with (n + n)%nat by lia.
  rewrite repeat_app. apply H.
  destruct n; [lia | discriminate].
Qed.

Lemma trend_of_repeated_halves_witness :
  _calculate_trend [literal 1 10; literal 7 10; literal 1 10; literal 7 10]
  = Ok false /\
  _calculate_trend (repeat (literal 1 10) 6) = Ok false.
Proof.
  destruct trend_of_repeated_halves as [Hblock Hconst]. split.
  - apply (Hblock [literal 1 10; literal 7 10]). discriminate.
  - apply (Hconst (literal 1 10) 3%nat). lia.
Defined.

End TrendExtra.

(** ** The performance factor *)

Module PerformanceExtra.
Import Binary64 RoundedAssignment Binary64Facts TrendExtra.

(** X4.  [_calculate_performance_factor] never raises and never changes
    a registry.  The factor is never below 0.1.  It is 0.8 when the
    query raises or finds no row; it is 0.1 when there are rows and none
    has a quality score; and when some row has one, it is the rounded
    average of the scores present, or 0.1 when that average is not
    greater. *)
Theorem performance_factor_cases :
  forall fetch agent_name st,
    let p := fst (_calculate_performance_factor fetch agent_name st) in
    let st' := snd (_calculate_performance_factor fetch agent_name st) in
    leb (literal 1 10) p = true /\
    agent_capabilities st' = agent_capabilities st /\
    workload_tracker st' = workload_tracker st /\
    (forall e, fetch (tick st) agent_name 3%nat = Raise e ->
               p = literal 8 10) /\
    (fetch (tick st) agent_name 3%nat = Ok [] -> p = literal 8 10) /\
    (forall rows,
       fetch (tick st) agent_name 3%nat = Ok rows ->
       rows <> [] ->
       omap RoundedTrend.quality_score rows = [] ->
       p = literal 1 10) /\
    (forall rows,
       fetch (tick st) agent_name 3%nat = Ok rows ->
       omap RoundedTrend.quality_score rows <> [] ->
       p = max (literal 1 10)
               (RoundedTrend.average
                  (omap RoundedTrend.quality_score rows))).
Proof.
  intros fetch agent_name st p st'. subst p st'.
  unfold _calculate_performance_factor.
  destruct (fetch (tick st) agent_name 3%nat) as [rows | e] eqn:Hf.
  - destruct rows as [| row rest].
    + unfold RoundedTrend.get_agent_performance_trend. rewrite Hf.
      cbn [bind fst snd agent_capabilities workload_tracker].
      repeat split; try reflexivity; try congruence;
        intros rows [= <-] Hne; exfalso; now apply Hne.
    + destruct (rounded_trend_of_rows fetch (tick st) agent_name 3%nat
                  (row :: rest) Hf)
        as (rt & cr & qs & b & t & -> & _ & Hz & Ha & _); [discriminate |].
      cbn [fst snd agent_capabilities workload_tracker].
      split; [apply max_floor |].
      repeat split; try reflexivity; try congruence.
      * intros rows [= <-] _ Hnone. now rewrite (Hz Hnone).
      * intros rows [= <-] Hsome. now rewrite (Ha Hsome).
  - unfold RoundedTrend.get_agent_performance_trend. rewrite Hf.
    cbn [bind fst snd agent_capabilities workload_tracker].
    repeat split; try reflexivity; try congruence.
Qed.

Lemma performance_factor_cases_witness :
  fst (_calculate_performance_factor
         (fun _ _ _ => Ok RoundedTrend.sample_rows) "dev" unskilled_state)
  = literal 6 10.
Proof.
  destruct (performance_factor_cases
              (fun _ _ _ => Ok RoundedTrend.sample_rows)
              "dev"%string unskilled_state)
    as (_ & _ & _ & _ & _ & _ & H).
  rewrite (H RoundedTrend.sample_rows eq_refl) by discriminate.
  vm_compute. reflexivity.
Defined.

End PerformanceExtra.

(** ** More on the assignment engine *)

Module AssignmentExtra.
Import Assignment PyFacts FactorSpec AssignmentSpec.

Lemma skill_match_monotone caps1 caps2 item :
  0 <= snd item ->
  default 0 (caps1 !! fst item) <= default 0 (caps2 !! fst item) ->
  skill_match caps1 item * snd item <= skill_match caps2 item * snd item.
Proof.
  destruct item as [skill lvl]. unfold skill_match. cbn [fst snd].
  intros Hnn Hle.
  set (a1 := default 0 (caps1 !! skill)) in *.
  set (a2 := default 0 (caps2 !! skill)) in *.
  destruct (Qltb 0 lvl) eqn:Epos; [| lra].
  apply Qltb_lt in Epos.
  assert (E1 : (a1 / lvl) * lvl == a1) by (field; lra).
  assert (E2 : (a2 / lvl) * lvl == a2) by (field; lra).
  destruct (min_spec 1 (a1 / lvl)) as [[H1 ->] | [H1 ->]];
    destruct (min_spec 1 (a2 / lvl)) as [[H2 ->] | [H2 ->]]; nra.
Qed.

Lemma skill_match_nonneg caps item :
  0 <= snd item ->
  0 <= default 0 (caps !! fst item) ->
  0 <= skill_match caps item * snd item.
Proof.
  destruct item as [skill lvl]. unfold skill_match. cbn [fst snd].
  intros Hnn Ha. set (a := default 0 (caps !! skill)) in *.
  destruct (Qltb 0 lvl) eqn:Epos; [| lra].
  apply Qltb_lt in Epos.
  assert (E : (a / lvl) * lvl == a) by (field; lra).
  destruct (min_spec 1 (a / lvl)) as [[H ->] | [H ->]]; nra.
Qed.

Lemma match_sum_monotone caps1 caps2 reqs :
  Forall (fun item => 0 <= snd item) reqs ->
  Forall (fun item => default 0 (caps1 !! fst item)
                      <= default 0 (caps2 !! fst item)) reqs ->
  match_sum caps1 reqs <= match_sum caps2 reqs.
Proof.
  induction 1 as [| item rest Hnn _ IH]; intros Hle; cbn [match_sum].
  - lra.
  - inversion Hle as [| ? ? Hi Hr]; subst.
    pose proof (skill_match_monotone caps1 caps2 item Hnn Hi).
    specialize (IH Hr). lra.
Qed.

Lemma match_sum_nonneg caps reqs :
  Forall (fun item => 0 <= snd item) reqs ->
  Forall (fun item => 0 <= default 0 (caps !! fst item)) reqs ->
  0 <= match_sum caps reqs.
Proof.
  induction 1 as [| item rest Hnn _ IH]; intros Hle; cbn [match_sum].
  - lra.
  - inversion Hle as [| ? ? Hi Hr]; subst.
    pose proof (skill_match_nonneg caps item Hnn Hi).
    specialize (IH Hr). lra.
Qed.

(** X3.  For a task whose required levels are not negative, the
    capability match lies in [[0, 1]] when the agent's levels for the
    required skills are not negative, and it does not decrease when the
    agent's level for every required skill does not decrease. *)
Theorem capability_match_range_monotone :
  forall (caps1 caps2 : gmap string Q) (reqs : list (string * Q)),
    Forall (fun item => 0 <= snd item) reqs ->
    (Forall (fun item => 0 <= default 0 (caps1 !! fst item)) reqs ->
     0 <= _calculate_capability_match caps1 reqs /\
     _calculate_capability_match caps1 reqs <= 1) /\
    (Forall (fun item => default 0 (caps1 !! fst item)
                         <= default 0 (caps2 !! fst item)) reqs ->
     _calculate_capability_match caps1 reqs
     <= _calculate_capability_match caps2 reqs).
Proof.
  intros caps1 caps2 reqs Hnn.
  destruct reqs as [| item rest].
  { cbn. split; intros _; lra. }
  assert (Hne : item :: rest <> []) by discriminate.
  rewrite !(capability_match_nonempty _ _ Hne).
  destruct (match_sum_bound caps1 _ Hnn) as (Hle1 & Hw & _ & _).
  destruct (Qltb 0 (weight_sum (item :: rest))) eqn:Ew.
  - apply Qltb_lt in Ew.
    assert (E1 : (match_sum caps1 (item :: rest) / weight_sum (item :: rest))
                 * weight_sum (item :: rest)
                 == match_sum caps1 (item :: rest)) by (field; lra).
    assert (E2 : (match_sum caps2 (item :: rest) / weight_sum (item :: rest))
                 * weight_sum (item :: rest)
                 == match_sum caps2 (item :: rest)) by (field; lra).
    split.
    + intros Hpos. pose proof (match_sum_nonneg caps1 _ Hnn Hpos). split; nra.
    + intros Hle. pose proof (match_sum_monotone caps1 caps2 _ Hnn Hle). nra.
  - split; intros _; lra.
Qed.

Lemma capability_match_range_monotone_witness :
  _calculate_capability_match {[ "x"%string := 2 # 10 ]}
                              [("x"%string, 1 # 2); ("y"%string, 1 # 4)]
  <= _calculate_capability_match
       {[ "x"%string := 4 # 10; "y"%string := 1 # 10 ]}
       [("x"%string, 1 # 2); ("y"%string, 1 # 4)].
Proof.
  apply (capability_match_range_monotone
           {[ "x"%string := 2 # 10 ]}
           {[ "x"%string := 4 # 10; "y"%string := 1 # 10 ]}
           [("x"%string, 1 # 2); ("y"%string, 1 # 4)]).
  - repeat constructor; cbn; lra.
  - repeat constructor; vm_compute; discriminate.
Defined.

Lemma assign_ok_scores clock fetch task agents st r st' :
  assign_optimal_task clock fetch task agents st = (Ok r, st') ->
  exists scores st1,
    score_all clock fetch (default [] (get_required_skills task)) agents st
    = (Ok scores, st1).
Proof.
  unfold assign_optimal_task. destruct agents as [| a rest].
  - intros _. now exists [], st.
  - rewrite score_loop_fission.
    destruct (score_all clock fetch _ (a :: rest) st) as [[scores | e] st1];
      [eauto | discriminate].
Qed.

Lemma workload_factor_of_floor S w :
  workload_factor_of S = Ok w -> 1 # 10 <= w.
Proof.
  unfold workload_factor_of, div.
  destruct (Qeqb (1 + S) 0); cbn [bind]; [discriminate |].
  intros [= <-].
  destruct (max_spec (1 # 10) (1 / (1 + S))) as [[H ->] | [H ->]]; lra.
Qed.

Lemma is_score_sign st reqs c :
  is_score st reqs c ->
  exists caps,
    agent_capabilities st !! fst c = Some caps /\
    (0 < snd c <-> 0 < _calculate_capability_match caps reqs).
Proof.
  intros (caps & p & w & S & Hcaps & Hp & Hw & ->).
  apply workload_factor_of_floor in Hw.
  exists caps. split; [assumption |]. cbn [snd].
  set (m := _calculate_capability_match caps reqs).
  assert (Hpw : 0 < p * w) by (apply Qmult_lt_0_compat; lra).
  assert (E : m * p * w == m * (p * w)) by ring.
  rewrite E. split; intros H.
  - destruct (Qlt_le_dec 0 m) as [Hm | Hm]; [assumption |].
    exfalso.
    assert (m * (p * w) <= 0 * (p * w))
      by (apply Qmult_le_compat_r; lra).
    lra.
  - now apply Qmult_lt_0_compat.
Qed.

Lemma assign_eligible clock fetch task agents st r st' :
  assign_optimal_task clock fetch task agents st = (Ok r, st') ->
  (forall a, r = Some a ->
     In a agents /\
     exists caps,
       agent_capabilities st !! a = Some caps /\
       0 < _calculate_capability_match
             caps (default [] (get_required_skills task))) /\
  (r = None ->
   forall a caps,
     In a agents ->
     agent_capabilities st !! a = Some caps ->
     _calculate_capability_match
       caps (default [] (get_required_skills task)) <= 0).
Proof.
  intros Hassign.
  destruct (assign_ok_scores _ _ _ _ _ _ _ Hassign) as (scores & st1 & Hs).
  destruct (score_all_scores _ _ _ _ _ _ _ Hs) as (_ & Hmap & _ & Hall).
  rewrite (assign_by_scores _ _ _ _ _ _ _ Hs) in Hassign.
  rewrite List.Forall_forall in Hall.
  destruct (fold_pick_spec scores None 0)
    as [[Hf Hle] | (pre & b & s & post & Hsc & Hf & Hpos & _ & _)];
    rewrite Hf in Hassign; cbn [fst] in Hassign.
  - injection Hassign as <- _. split; [discriminate |].
    intros _ a caps Hin Hcaps.
    assert (Hf' : In a (map fst scores)).
    { rewrite Hmap. apply filter_In. split; [assumption |].
      unfold registered. now rewrite Hcaps. }
    apply in_map_iff in Hf' as (c & <- & Hc).
    destruct (is_score_sign _ _ _ (Hall c Hc)) as (caps' & Hcaps' & Hsign).
    assert (caps' = caps) as -> by congruence.
    rewrite List.Forall_forall in Hle. specialize (Hle c Hc).
    apply Qnot_lt_le. intros Hgt. apply Hsign in Hgt. lra.
  - assert (Hr : r = Some b).
    { destruct (truthy b); now injection Hassign as <- _. }
    split; [| rewrite Hr; discriminate].
    intros a Ha. assert (a = b) as -> by congruence.
    assert (Hc : In (b, s) scores).
    { rewrite Hsc. apply in_or_app. right. now left. }
    split.
    + assert (Hf' : In b (map fst scores)).
      { apply in_map_iff. now exists (b, s). }
      rewrite Hmap in Hf'. now apply filter_In in Hf' as [Hf' _].
    + destruct (is_score_sign _ _ _ (Hall _ Hc)) as (caps & Hcaps & Hsign).
      exists caps. split; [assumption |]. now apply Hsign.
Qed.



Lemma assign_capabilities clock fetch task agents st r st' :
  assign_optimal_task clock fetch task agents st = (Ok r, st') ->
  agent_capabilities st' = agent_capabilities st.
Proof.
  intros Hassign.
  destruct (assign_ok_scores _ _ _ _ _ _ _ Hassign) as (scores & st1 & Hs).
  destruct (score_all_scores _ _ _ _ _ _ _ Hs) as (Hcaps & _).
  rewrite (assign_by_scores _ _ _ _ _ _ _ Hs) in Hassign.
  destruct (fst (fold_left pick scores (None, 0))) as [b |].
  - destruct (truthy b); injection Hassign as _ <-; exact Hcaps.
  - injection Hassign as _ <-. exact Hcaps.
Qed.

(** X6.  A call of [assign_optimal_task] that returns leaves every
    capability vector as it was, leaves untouched the workload list of
    every agent that is not a candidate with a capability vector, and
    only removes entries from the list of every agent it does not
    return. *)
Theorem assign_frame :
  forall clock fetch task agents st r st',
    assign_optimal_task clock fetch task agents st = (Ok r, st') ->
    agent_capabilities st' = agent_capabilities st /\
    (forall c, ~ (In c agents /\ registered st c = true) ->
               workload st' c = workload st c) /\
    (forall c, r <> Some c ->
               workload st' c `sublist_of` workload st c).
Proof.
  intros clock fetch task agents st r st' Hassign.
  split; [now apply (assign_capabilities clock fetch task agents st r st') |].
  destruct (assign_ok_scores _ _ _ _ _ _ _ Hassign) as (scores & st1 & Hs).
  destruct (assign_workload clock fetch task agents st scores st1 Hs)
    as (r0 & st0 & Hr0 & Hw).
  rewrite Hassign in Hr0. injection Hr0 as <- <-.
  destruct (score_all_workload clock fetch _ _ _ _ _ Hs)
    as (Hsub & Hframe & _ & _).
  destruct (assign_eligible _ _ _ _ _ _ _ Hassign) as [Hel _].
  assert (Hother : forall c, r <> Some c -> workload st' c = workload st1 c).
  { intros c Hne. rewrite Hw, bool_decide_eq_false_2 by assumption.
    cbn. apply app_nil_r. }
  split.
  - intros c Hc. rewrite Hother.
    + unfold workload. now rewrite Hframe.
    + intros Hr. apply Hc. destruct (Hel c Hr) as (Hin & caps & Hcaps & _).
      split; [assumption |]. unfold registered. now rewrite Hcaps.
  - intros c Hne. rewrite (Hother c Hne). apply Hsub.
Qed.

Lemma assign_frame_witness :
  exists r st',
    assign_optimal_task noon no_samples needs_x ["A"%string] two_agents_state
    = (Ok r, st') /\
    workload st' "B" = workload two_agents_state "B".
Proof.
  destruct (assign_optimal_task noon no_samples needs_x ["A"%string]
              two_agents_state) as [[r | e] st'] eqn:E;
    [| vm_compute in E; discriminate].
  exists r, st'. split; [reflexivity |].
  destruct (assign_frame noon no_samples needs_x ["A"%string]
              two_agents_state r st' E) as (_ & Hframe & _).
  apply Hframe. intros [[H | []] _]. discriminate.
Defined.



Lemma filter_idem {A} (f : A -> bool) (l : list A) :
  List.filter f (List.filter f l) = List.filter f l.
Proof.
  induction l as [| x l IH]; [reflexivity |]. cbn.
  destruct (f x) eqn:E; cbn; rewrite ?E, IH; reflexivity.
Qed.

Lemma sum_app (l1 l2 : list Q) : sum (l1 ++ l2) == sum l1 + sum l2.
Proof.
  unfold sum. rewrite fold_left_app, fold_left_Qplus_acc. reflexivity.
Qed.

Lemma workload_factor_antitone (S1 S2 : Q) :
  0 <= S1 -> S1 <= S2 ->
  max (1 # 10) (1 / (1 + S2)) <= max (1 # 10) (1 / (1 + S1)).
Proof.
  intros H1 H12. assert (H2 : 0 <= S2) by lra.
  pose proof (inv_times S1 H1) as E1.
  pose proof (inv_times S2 H2) as E2.
  destruct (max_spec (1 # 10) (1 / (1 + S1))) as [[A1 ->] | [A1 ->]];
    destruct (max_spec (1 # 10) (1 / (1 + S2))) as [[A2 ->] | [A2 ->]];
    try lra; nra.
Qed.

(** With a clock that stands still, the scoring leaves every candidate
    that has a capability vector with its list pruned at that time. *)
Lemma score_all_still_clock clock fetch reqs agents st scores st1 now :
  (forall k, clock k = now) ->
  score_all clock fetch reqs agents st = (Ok scores, st1) ->
  forall c, In c agents -> registered st c = true ->
    workload st1 c
    = List.filter (is_active (now - retention)) (workload st c).
Proof.
  intros Hclock. revert st scores st1.
  induction agents as [| a rest IH]; intros st scores st1 H c Hin Hreg;
    [destruct Hin |].
  apply score_all_cons_inv in H as (o & st' & scores' & Hc & Hrest & _).
  destruct (score_all_workload clock fetch _ _ _ _ _ Hrest)
    as (_ & Hframe & _ & _).
  destruct (score_candidate_state _ _ _ _ _ _ _ Hc) as (Hcaps & Hun & Hr).
  assert (Hregd : forall x, registered st' x = registered st x).
  { intros x. unfold registered. now rewrite Hcaps. }
  destruct (registered st a) eqn:Ea.
  - destruct (Hr eq_refl) as [_ Hw]. rewrite Hclock in Hw.
    pose proof (fun x => workload_after_prune st st' a _ x Hw) as Hwl.
    destruct (in_dec string_dec c rest) as [Hrestin | Hnotin].
    + rewrite (IH _ _ _ Hrest c Hrestin) by now rewrite Hregd.
      rewrite Hwl. destruct (decide (a = c)) as [<- |]; [| reflexivity].
      apply filter_idem.
    + destruct Hin as [<- | Hin]; [| contradiction].
      assert (Hfr : workload st1 a = workload st' a).
      { unfold workload. rewrite Hframe; [reflexivity |].
        intros [Hin _]. contradiction. }
      rewrite Hfr, Hwl. destruct (decide (a = a)); [reflexivity | congruence].
  - rewrite (Hun eq_refl) in *.
    destruct Hin as [<- | Hin]; [congruence |].
    now apply (IH _ _ _ Hrest).
Qed.

Lemma truthy_nonempty (s : string) : s <> ""%string -> truthy s = true.
Proof.
  intros H. unfold truthy. apply negb_true_iff. now apply String.eqb_neq.
Qed.

(** X8.  At a fixed time, with no negative complexity: a call that
    assigns a task of non-negative complexity to an agent with a
    non-empty name leaves that agent's list as its entries inside the
    retention window followed by the new entry, and the agent's
    workload factor after the call is not greater than before it. *)
Theorem assignment_lowers_factor :
  forall clock fetch task agents st agent_name st' now,
    (forall k, clock k = now) ->
    nonneg_workload st ->
    0 <= default (1 # 2) (get_complexity task) ->
    agent_name <> ""%string ->
    assign_optimal_task clock fetch task agents st
    = (Ok (Some agent_name), st') ->
    workload st' agent_name
    = List.filter (is_active (now - retention)) (workload st agent_name)
      ++ [new_entry task now] /\
    exists f0 f1,
      fst (_calculate_workload_factor clock agent_name st) = Ok f0 /\
      fst (_calculate_workload_factor clock agent_name st') = Ok f1 /\
      f1 <= f0.
Proof.
  intros clock fetch task agents st a st' now Hclock Hnn Hcx Hname Hassign.
  destruct (assign_ok_scores _ _ _ _ _ _ _ Hassign) as (scores & st1 & Hs).
  destruct (assign_workload clock fetch task agents st scores st1 Hs)
    as (r0 & st0 & Hr0 & Hw).
  rewrite Hassign in Hr0. injection Hr0 as <- <-.
  destruct (assign_eligible _ _ _ _ _ _ _ Hassign) as [Hel _].
  destruct (Hel a eq_refl) as (Hin & caps & Hcaps & _).
  assert (Hreg : registered st a = true)
    by (unfold registered; now rewrite Hcaps).
  set (pruned := List.filter (is_active (now - retention)) (workload st a)).
  assert (Hlist : workload st' a = pruned ++ [new_entry task now]).
  { rewrite Hw, bool_decide_eq_true_2, (truthy_nonempty a Hname)
      by reflexivity.
    cbn [andb]. rewrite Hclock.
    now rewrite (score_all_still_clock clock fetch _ agents st scores st1
                   now Hclock Hs a Hin Hreg). }
  split; [exact Hlist |].
  assert (Hp : forall e, In e pruned -> 0 <= complexity e).
  { intros e He. apply filter_In in He as [He _]. unfold workload in He.
    destruct (workload_tracker st !! a) as [l |] eqn:E; [| destruct He].
    now apply (Hnn a l e). }
  assert (HS0 : 0 <= sum (map complexity pruned))
    by now apply sum_complexity_nonneg.
  assert (Hkeep : List.filter (is_active (now - retention))
                              (pruned ++ [new_entry task now])
                  = pruned ++ [new_entry task now]).
  { rewrite List.filter_app. unfold pruned at 1. rewrite filter_idem.
    fold pruned. f_equal. cbn. unfold is_active. cbn.
    assert ((now - retention <? now)%Z = true) as ->
      by (apply Z.ltb_lt; unfold retention; lia).
    reflexivity. }
  assert (HS1 : sum (map complexity (pruned ++ [new_entry task now]))
                == sum (map complexity pruned)
                   + default (1 # 2) (get_complexity task)).
  { rewrite map_app, sum_app. cbn [map]. rewrite sum_cons.
    change (sum []) with 0. cbn [new_entry complexity]. lra. }
  exists (max (1 # 10) (1 / (1 + sum (map complexity pruned)))),
         (max (1 # 10)
              (1 / (1 + sum (map complexity
                               (pruned ++ [new_entry task now]))))).
  split; [| split].
  - unfold _calculate_workload_factor. cbn [fst].
    fold (workload st a). rewrite Hclock. fold pruned.
    now apply workload_factor_of_nonneg.
  - unfold _calculate_workload_factor. cbn [fst].
    fold (workload st' a). rewrite Hclock, Hlist, Hkeep.
    apply workload_factor_of_nonneg. lra.
  - apply workload_factor_antitone; lra.
Qed.

Lemma assignment_lowers_factor_witness :
  exists f0 f1,
    fst (_calculate_workload_factor noon "B" two_agents_state) = Ok f0 /\
    fst (_calculate_workload_factor noon "B"
           (snd (assign_optimal_task noon no_samples needs_x ["B"%string]
                                     two_agents_state))) = Ok f1 /\
    f1 <= f0.
Proof.
  apply (assignment_lowers_factor noon no_samples needs_x ["B"%string]
           two_agents_state "B"%string
           (snd (assign_optimal_task noon no_samples needs_x ["B"%string]
                                     two_agents_state)) 0%Z).
  - reflexivity.
  - exact two_agents_nonneg.
  - cbn. lra.
  - discriminate.
  - vm_compute. reflexivity.
Defined.

End AssignmentExtra.

(** ** More on the quality gates *)

Module GateExtra.
Import QualityGates PyFacts GateSpec.


Lemma run_rules_warnings context rules results :
  warnings (run_rules context rules results)
  = warnings results
    ++ flat_map (fun rule => to_warnings (rule_outcome context rule)) rules.
Proof.
  unfold run_rules. revert results.
  induction rules as [| rule rest IH]; intros results; cbn [fold_left].
  - cbn. now rewrite app_nil_r.
  - rewrite IH, check_step_add_outcome.
    cbn [add_outcome warnings flat_map]. unfold to_warnings.
    now rewrite <- app_assoc.
Qed.

Lemma in_to_warnings o o' :
  In o' (to_warnings o) <->
  o' = o /\ status o = "failed"%string
  /\ outcome_severity o <> "error"%string.
Proof.
  unfold to_warnings.
  destruct (String.eqb_spec (status o) "failed") as [Hf | Hf]; cbn [andb].
  - destruct (String.eqb_spec (outcome_severity o) "error") as [Hs | Hs];
      cbn [negb].
    + split; [intros [] | intros (_ & _ & H); congruence].
    + split; [intros [<- | []]; auto | intros (-> & _ & _); now left].
  - split; [intros [] | intros (_ & H & _); congruence].
Qed.

(** X10.  [add_quality_rule] raises exactly when one of the keys name,
    check_function, severity and threshold is missing, and then leaves
    the engine as it was; comparison and message may be missing.
    Otherwise the rule is appended after the registered ones, and a gate
    run of the extended engine is the run of the engine before it
    followed by the outcome of the new rule: no earlier outcome
    changes. *)
Theorem add_rule_then_check :
  forall clock project_name context rule st,
    (dict_name rule = None \/ dict_check_function rule = None
     \/ dict_severity rule = None \/ dict_threshold rule = None ->
     add_quality_rule rule st = (Raise missing_fields, st)) /\
    (forall n c sev t,
       dict_name rule = Some n -> dict_check_function rule = Some c ->
       dict_severity rule = Some sev -> dict_threshold rule = Some t ->
       exists r st',
         add_quality_rule rule st = (Ok tt, st') /\
         name r = n /\ check_function r = c /\ severity r = sev /\
         threshold r = t /\ comparison r = dict_comparison rule /\
         message r = dict_message rule /\
         quality_rules st' = quality_rules st ++ [r] /\
         fst (check_quality_gates clock project_name context st')
         = add_outcome
             (fst (check_quality_gates clock project_name context st))
             (rule_outcome context r)).
Proof.
  intros clock project_name context rule st. split.
  - intros H. unfold add_quality_rule, rule_of_dict.
    destruct (dict_name rule), (dict_check_function rule),
      (dict_severity rule), (dict_threshold rule);
      try reflexivity; destruct H as [H | [H | [H | H]]]; discriminate.
  - intros n c sev t Hn Hc Hs Ht.
    unfold add_quality_rule, rule_of_dict. rewrite Hn, Hc, Hs, Ht.
    exists {| name := n; check_function := c; severity := sev;
              threshold := t; comparison := dict_comparison rule;
              message := dict_message rule |}.
    eexists. split; [reflexivity |]. cbn.
    repeat (split; [reflexivity |]).
    unfold run_rules. rewrite fold_left_app. cbn [fold_left].
    apply check_step_add_outcome.
Qed.

Lemma add_rule_then_check_witness :
  add_quality_rule
    {| dict_name := Some "cov"%string;
       dict_check_function := Some (NamedKey "test_coverage");
       dict_severity := None;
       dict_threshold := Some 85;
       dict_comparison := Some ">="%string;
       dict_message := None |} new_gates
  = (Raise missing_fields, new_gates).
Proof.
  apply (add_rule_then_check (fun _ => 0%Z) "demo" ∅).
  right. right. left. reflexivity.
Defined.

Lemma length_to_checks context rules :
  (length (flat_map (fun rule => to_checks (rule_outcome context rule)) rules)
   + length (List.filter
               (fun rule =>
                  String.eqb (status (rule_outcome context rule)) "error")
               rules)
   = length rules)%nat.
Proof.
  induction rules as [| rule rest IH]; [reflexivity |].
  cbn [flat_map List.filter]. rewrite length_app. unfold to_checks at 1.
  destruct (String.eqb (status (rule_outcome context rule)) "error");
    cbn [length]; lia.
Qed.

(** X11.  In the result of a gate run, the records in [checks] and the
    rules whose evaluation raised add up to the number of rules; the
    records in [warnings] are exactly the failed outcomes of [checks]
    whose severity is anything but "error", and the records in [errors]
    are exactly the failed outcomes of [checks] of severity "error"
    together with the records of the rules that raised. *)
Theorem gate_run_bookkeeping :
  forall clock project_name context st,
    let res := fst (check_quality_gates clock project_name context st) in
    (length (checks res)
     + length (List.filter
                 (fun rule =>
                    String.eqb (status (rule_outcome context rule)) "error")
                 (quality_rules st))
     = length (quality_rules st))%nat /\
    (forall o, In o (warnings res) <->
               In o (checks res) /\ status o = "failed"%string
               /\ outcome_severity o <> "error"%string) /\
    (forall o, In o (errors res) <->
               (In o (checks res) /\ status o = "failed"%string
                /\ outcome_severity o = "error"%string)
               \/ (exists rule e, In rule (quality_rules st)
                                  /\ raises context rule e
                                  /\ o = error_result rule e)).
Proof.
  intros clock project_name context st res.
  destruct (gate_run_fields clock project_name context st)
    as (_ & Hc & He).
  fold res in Hc, He.
  assert (Hw : warnings res
               = flat_map (fun rule => to_warnings (rule_outcome context rule))
                          (quality_rules st)).
  { subst res. cbn [check_quality_gates fst].
    now rewrite run_rules_warnings. }
  split; [rewrite Hc; apply length_to_checks |]. split.
  - intros o. rewrite Hw, Hc, !in_flat_map. split.
    + intros (r & Hr & Ho). apply in_to_warnings in Ho as (-> & Hf & Hs).
      split; [| auto]. exists r. split; [assumption |].
      apply in_to_checks. split; [reflexivity |]. rewrite Hf. discriminate.
    + intros ((r & Hr & Ho) & Hf & Hs).
      apply in_to_checks in Ho as [-> _].
      exists r. split; [assumption |]. now apply in_to_warnings.
  - intros o. rewrite He, Hc, !in_flat_map. split.
    + intros (r & Hr & Ho).
      apply in_to_errors in Ho as (-> & [Herr | [Hf Hs]]).
      * right.
        destruct (_execute_quality_check r context) as [o' | e] eqn:E.
        -- assert (Hro : rule_outcome context r = o')
             by (unfold rule_outcome; now rewrite E).
           rewrite Hro in Herr.
           destruct (execute_ok_status _ _ _ E) as ([H | H] & _);
             rewrite H in Herr; discriminate.
        -- assert (Hro : rule_outcome context r = error_result r e)
             by (unfold rule_outcome; now rewrite E).
           exists r, e. split; [assumption |]. split; [| exact Hro].
           unfold _execute_quality_check in E.
           destruct (check_function r) as [key | f] eqn:Ecf;
             cbn in E; [discriminate |].
           exists f. split; [exact Ecf |].
           destruct (f context); cbn in E; congruence.
      * left. split; [| auto]. exists r. split; [assumption |].
        apply in_to_checks. split; [reflexivity |]. rewrite Hf. discriminate.
    + intros [((r & Hr & Ho) & Hf & Hs) | (r & e & Hr & Hraise & ->)].
      * apply in_to_checks in Ho as [-> _].
        exists r. split; [assumption |]. apply in_to_errors. auto.
      * exists r. split; [assumption |].
        unfold rule_outcome. rewrite (execute_raises _ _ _ Hraise).
        apply in_to_errors. split; [reflexivity |]. now left.
Qed.

(** X12.  With the three default rules, registered on a new engine, and
    a context whose values are numbers (a NaN fails every comparison and
    has no image here), a gate run has three records in [checks] and
    passes exactly when the context has test_coverage at least 85,
    avg_response_time at most 200 and security_vulnerabilities equal to
    0, a missing key counting as 0; [warnings] is non-empty exactly when
    the coverage is below 85, and [errors] is empty exactly when the
    other two conditions hold. *)
Theorem default_rules_gate :
  forall clock project_name (context : gmap string Q),
    let res := fst (check_quality_gates clock project_name context
                      (setup_default_quality_rules new_gates)) in
    let coverage := default 0 (context !! "test_coverage"%string) in
    let response := default 0 (context !! "avg_response_time"%string) in
    let vulnerabilities :=
      default 0 (context !! "security_vulnerabilities"%string) in
    length (checks res) = 3%nat /\
    (passed res = true <->
     85 <= coverage /\ response <= 200 /\ vulnerabilities == 0) /\
    (warnings res <> [] <-> coverage < 85) /\
    (errors res = [] <-> response <= 200 /\ vulnerabilities == 0).
Proof.
  intros clock project_name context res coverage response vulnerabilities.
  subst res. cbn -[Qleb Qeqb Qltb]. fold coverage response vulnerabilities.
  assert (Hc : Qleb 85 coverage = true <-> 85 <= coverage)
    by apply Qleb_le.
  assert (Hr : Qleb response 200 = true <-> response <= 200)
    by apply Qleb_le.
  assert (Hv : Qeqb vulnerabilities 0 = true <-> vulnerabilities == 0)
    by apply Qeqb_eq.
  assert (Hlt : coverage < 85 <-> ~ 85 <= coverage)
    by (split; [apply Qlt_not_le | apply Qnot_le_lt]).
  destruct (Qleb 85 coverage), (Qleb response 200),
    (Qeqb vulnerabilities 0); cbn;
    (split; [reflexivity |]);
    intuition (try discriminate; try congruence).
Qed.

Lemma passed_no_errors clock project_name context st :
  passed (fst (check_quality_gates clock project_name context st)) = true ->
  errors (fst (check_quality_gates clock project_name context st)) = [].
Proof.
  destruct (gate_run_fields clock project_name context st)
    as (Hp & _ & He).
  rewrite Hp, He. clear Hp He.
  induction (quality_rules st) as [| rule rest IH]; [reflexivity |].
  cbn [forallb flat_map]. intros H. apply andb_true_iff in H as [H1 H2].
  rewrite (IH H2), app_nil_r. apply String.eqb_eq in H1.
  unfold to_errors. now rewrite H1.
Qed.

Lemma in_agent_recommendations perf r :
  In r (flat_map agent_recommendation perf) <->
  exists a n rt cr qs b t,
    r = SupportAgent a /\
    In (a, Trend.Summary n rt cr qs b t) perf /\ qs < 7 # 10.
Proof.
  rewrite in_flat_map. split.
  - intros ([a data] & Hin & Hr). unfold agent_recommendation in Hr.
    cbn [fst snd] in Hr. destruct data as [| n rt cr qs b t]; [destruct Hr |].
    destruct (Qltb qs (7 # 10)) eqn:E; [| destruct Hr].
    destruct Hr as [<- | []]. apply Qltb_lt in E.
    now exists a, n, rt, cr, qs, b, t.
  - intros (a & n & rt & cr & qs & b & t & -> & Hin & Hlt).
    exists (a, Trend.Summary n rt cr qs b t). split; [assumption |].
    unfold agent_recommendation. cbn [fst snd].
    apply Qltb_lt in Hlt. rewrite Hlt. now left.
Qed.

Lemma recommendations_cases perf quality_status :
  let found :=
    flat_map agent_recommendation perf
    ++ match quality_status with
       | Some status =>
           if passed status then []
           else map (fun error => AddressIssue (outcome_message error))
                    (errors status)
       | None => []
       end in
  (found = [] /\ generate_recommendations perf quality_status = [LooksGood])
  \/ (found <> [] /\ generate_recommendations perf quality_status = found).
Proof.
  cbv zeta. unfold generate_recommendations.
  destruct (flat_map agent_recommendation perf ++ _) as [| r l];
    [left | right]; split; (reflexivity || discriminate).
Qed.

(** X13.  [generate_recommendations] never returns an empty list.  On
    the result of a gate run it lists one quality issue for every record
    in [errors], names every agent whose average quality score is below
    0.7, and is the single "looks good" entry exactly when [errors] is
    empty and no agent is below 0.7: outcomes in [warnings] are never
    reported, so a run that fails only on warnings still looks good. *)
Theorem recommendations_of_gate_run :
  forall clock project_name context st
         (perf : list (string * Trend.TrendData)) other_status,
    let res := fst (check_quality_gates clock project_name context st) in
    let recs := generate_recommendations perf (Some res) in
    generate_recommendations perf other_status <> [] /\
    (forall msg, In (AddressIssue msg) recs <->
                 exists o, In o (errors res) /\ outcome_message o = msg) /\
    (forall a, In (SupportAgent a) recs <->
               exists n rt cr qs b t,
                 In (a, Trend.Summary n rt cr qs b t) perf /\ qs < 7 # 10) /\
    (recs = [LooksGood] <->
     errors res = [] /\
     forall a n rt cr qs b t,
       In (a, Trend.Summary n rt cr qs b t) perf -> 7 # 10 <= qs).
Proof.
  intros clock project_name context st perf other_status res recs.
  split.
  { destruct (recommendations_cases perf other_status)
      as [[_ ->] | [H ->]]; [discriminate | exact H]. }
  assert (Hq : (if passed res then []
                else map (fun error => AddressIssue (outcome_message error))
                         (errors res))
               = map (fun error => AddressIssue (outcome_message error))
                     (errors res)).
  { destruct (passed res) eqn:Hp; [| reflexivity].
    subst res. now rewrite passed_no_errors. }
  pose proof (recommendations_cases perf (Some res)) as Hcases.
  cbv beta iota zeta in Hcases. rewrite Hq in Hcases. fold recs in Hcases.
  set (found := flat_map agent_recommendation perf
                ++ map (fun error => AddressIssue (outcome_message error))
                       (errors res)) in *.
  assert (Hissue : forall msg,
    In (AddressIssue msg) found <->
    exists o, In o (errors res) /\ outcome_message o = msg).
  { intros msg. unfold found. rewrite in_app_iff, in_map_iff. split.
    - intros [H | (o & [= <-] & Ho)]; [| eauto].
      apply in_agent_recommendations in H
        as (a & n & rt & cr & qs & b & t & [=] & _).
    - intros (o & Ho & <-). right. eauto. }
  assert (Hagent : forall a,
    In (SupportAgent a) found <->
    exists n rt cr qs b t,
      In (a, Trend.Summary n rt cr qs b t) perf /\ qs < 7 # 10).
  { intros a. unfold found. rewrite in_app_iff, in_map_iff. split.
    - intros [H | (o & [=] & _)].
      apply in_agent_recommendations in H
        as (a' & n & rt & cr & qs & b & t & [= <-] & Hin & Hlt).
      now exists n, rt, cr, qs, b, t.
    - intros (n & rt & cr & qs & b & t & Hin & Hlt). left.
      apply in_agent_recommendations. now exists a, n, rt, cr, qs, b, t. }
  assert (Hgood : ~ In LooksGood found).
  { unfold found. rewrite in_app_iff, in_map_iff.
    intros [H | (o & [=] & _)].
    apply in_agent_recommendations in H
      as (a & n & rt & cr & qs & b & t & [=] & _). }
  assert (Hempty : found = [] <->
    errors res = [] /\
    forall a n rt cr qs b t,
      In (a, Trend.Summary n rt cr qs b t) perf -> 7 # 10 <= qs).
  { split.
    - intros Hf. split.
      + destruct (errors res) as [| o l] eqn:E; [reflexivity |].
        exfalso. assert (In (AddressIssue (outcome_message o)) found)
          by (apply Hissue; exists o; split; [now left | reflexivity]).
        rewrite Hf in H. destruct H.
      + intros a n rt cr qs b t Hin. apply Qnot_lt_le. intros Hlt.
        assert (In (SupportAgent a) found)
          by (apply Hagent; now exists n, rt, cr, qs, b, t).
        rewrite Hf in H. destruct H.
    - intros [He Hall]. destruct found as [| r l] eqn:E; [reflexivity |].
      exfalso. assert (Hin : In r (r :: l)) by now left.
      destruct r as [a | msg |].
      + apply Hagent in Hin as (n & rt & cr & qs & b & t & Hin & Hlt).
        specialize (Hall _ _ _ _ _ _ _ Hin). lra.
      + apply Hissue in Hin as (o & Ho & _). rewrite He in Ho. destruct Ho.
      + now apply Hgood. }
  destruct Hcases as [[Hf Hr] | [Hf Hr]]; rewrite Hr.
  - split; [| split].
    + intros msg. rewrite <- Hissue, Hf. cbn. split; [| tauto].
      intros [H | []]. discriminate.
    + intros a. rewrite <- Hagent, Hf. cbn. split; [| tauto].
      intros [H | []]. discriminate.
    + rewrite <- Hempty. tauto.
  - split; [exact Hissue |]. split; [exact Hagent |].
    rewrite <- Hempty. split; [| tauto].
    intros Hg. exfalso. apply Hgood. rewrite Hg. now left.
Qed.

End GateExtra.

(** ** More on the health monitor *)

Module HealthExtra.
Import Health HealthSpec.

Lemma extend_nil st : extend st [] = st.
Proof. destruct st. unfold extend. cbn. now rewrite app_nil_r. Qed.

Lemma emit_extend ev st evs :
  emit ev (extend st evs) = extend st (evs ++ [ev]).
Proof.
  unfold emit, extend. cbn. f_equal.
  - rewrite length_app. cbn. lia.
  - now rewrite app_assoc.
Qed.

Lemma emit_once ev st : emit ev st = extend st [ev].
Proof. reflexivity. Qed.

(** The three ways a liveness probe of a registered agent ends. *)
Lemma check_agent_health_cases clock send_message capture_pane
    agent_name st health_info :
  health_checks st !! agent_name = Some health_info ->
  let tgt := target health_info in
  let r := check_agent_health clock send_message capture_pane
                              agent_name st in
  (send_message (tick st) tgt health_check_msg <> Ok true /\
   r = (false, add_failure agent_name
                 (extend st (probe_undelivered tgt))))
  \/ (send_message (tick st) tgt health_check_msg = Ok true /\
      r = (false, add_failure agent_name
                    (extend st (probe_unanswered tgt))))
  \/ (send_message (tick st) tgt health_check_msg = Ok true /\
      r = (true, mark_responsive agent_name (clock (3 + tick st)%nat)
                   (extend st (probe_answered tgt)))).
Proof.
  intros Hreg tgt r. subst r. unfold check_agent_health. rewrite Hreg.
  fold tgt. cbv zeta.
  rewrite (emit_once (SendMessage tgt health_check_msg) st), !emit_extend.
  cbn [app].
  destruct (send_message (tick st) tgt health_check_msg) as [[|] | e]
    eqn:Hsend.
  - right.
    destruct (capture_pane _ tgt) as [out | e].
    + destruct (contains "HEALTHY" (last_chars 500 out)).
      * right. split; reflexivity.
      * left. split; reflexivity.
    + left. split; reflexivity.
  - left. split; [discriminate | reflexivity].
  - left. split; [discriminate | reflexivity].
Qed.

Lemma lookup_add_failure a b st :
  health_checks (add_failure a st) !! b
  = if decide (a = b)
    then (fun hi => {| target := target hi;
                       last_response := last_response hi;
                       consecutive_failures := (consecutive_failures hi + 1)%Z;
                       config := config hi |}) <$> health_checks st !! b
    else health_checks st !! b.
Proof.
  unfold add_failure. cbn [health_checks]. rewrite lookup_alter.
  destruct (decide (a = b)) as [<- |]; reflexivity.
Qed.

Lemma lookup_mark_responsive a b now st :
  health_checks (mark_responsive a now st) !! b
  = if decide (a = b)
    then (fun hi => {| target := target hi;
                       last_response := now;
                       consecutive_failures := 0%Z;
                       config := config hi |}) <$> health_checks st !! b
    else health_checks st !! b.
Proof.
  unfold mark_responsive. cbn [health_checks]. rewrite lookup_alter.
  destruct (decide (a = b)) as [<- |]; reflexivity.
Qed.

(** X14.  A liveness probe of an agent that is not registered reports
    unhealthy and does nothing.  A probe of a registered agent sends
    exactly one health-check message and runs no tmux command; the pane
    is captured only when the message was delivered; a healthy report
    leaves the failure counter at 0, an unhealthy one, whatever failed,
    adds exactly one to it and keeps the time of the last response; the
    target and the configuration of the agent and the records of all
    other agents are unchanged. *)
Theorem probe_accounting :
  forall clock send_message capture_pane agent_name st,
    (health_checks st !! agent_name = None ->
     check_agent_health clock send_message capture_pane agent_name st
     = (false, st)) /\
    (forall health_info,
       health_checks st !! agent_name = Some health_info ->
       exists is_healthy st' health_info' evs,
         check_agent_health clock send_message capture_pane agent_name st
         = (is_healthy, st') /\
         log st' = log st ++ evs /\
         probes_sent evs = 1%nat /\
         commands_run evs = [] /\
         (In (CapturePane (target health_info)) evs ->
          send_message (tick st) (target health_info) health_check_msg
          = Ok true) /\
         health_checks st' !! agent_name = Some health_info' /\
         target health_info' = target health_info /\
         config health_info' = config health_info /\
         (is_healthy = true -> consecutive_failures health_info' = 0%Z) /\
         (is_healthy = false ->
          consecutive_failures health_info'
          = (consecutive_failures health_info + 1)%Z /\
          last_response health_info' = last_response health_info) /\
         (forall other, other <> agent_name ->
            health_checks st' !! other = health_checks st !! other)).
Proof.
  intros clock send_message capture_pane agent_name st. split.
  - intros H. unfold check_agent_health. now rewrite H.
  - intros health_info Hreg.
    destruct (check_agent_health_cases clock send_message capture_pane
                agent_name st health_info Hreg)
      as [[Hsend ->] | [[Hsend ->] | [Hsend ->]]].
    + eexists false, _, _, (probe_undelivered (target health_info)).
      split; [reflexivity |]. split; [reflexivity |].
      split; [reflexivity |]. split; [reflexivity |].
      split; [intros [H | []]; discriminate |].
      split; [rewrite lookup_add_failure, decide_True by reflexivity;
              cbn [extend health_checks]; rewrite Hreg; reflexivity |].
      split; [reflexivity |]. split; [reflexivity |].
      split; [discriminate |]. split; [intros _; split; reflexivity |].
      intros other Hne. rewrite lookup_add_failure, decide_False by congruence.
      reflexivity.
    + eexists false, _, _, (probe_unanswered (target health_info)).
      split; [reflexivity |]. split; [reflexivity |].
      split; [reflexivity |]. split; [reflexivity |].
      split; [intros _; exact Hsend |].
      split; [rewrite lookup_add_failure, decide_True by reflexivity;
              cbn [extend health_checks]; rewrite Hreg; reflexivity |].
      split; [reflexivity |]. split; [reflexivity |].
      split; [discriminate |]. split; [intros _; split; reflexivity |].
      intros other Hne. rewrite lookup_add_failure, decide_False by congruence.
      reflexivity.
    + eexists true, _, _, (probe_answered (target health_info)).
      split; [reflexivity |]. split; [reflexivity |].
      split; [reflexivity |]. split; [reflexivity |].
      split; [intros _; exact Hsend |].
      split; [rewrite lookup_mark_responsive, decide_True by reflexivity;
              cbn [extend health_checks]; rewrite Hreg; reflexivity |].
      split; [reflexivity |]. split; [reflexivity |].
      split; [reflexivity |]. split; [discriminate |].
      intros other Hne.
      rewrite lookup_mark_responsive, decide_False by congruence.
      reflexivity.
Qed.


Lemma extend_extend st evs1 evs2 :
  extend (extend st evs1) evs2 = extend st (evs1 ++ evs2).
Proof.
  unfold extend. cbn. f_equal.
  - rewrite length_app. lia.
  - now rewrite app_assoc.
Qed.

(** The ways a restart of a registered agent ends: at one of its three
    steps, leaving the health records alone, or after all of them. *)
Lemma restart_agent_cases clock send_message subprocess_run
    agent_name st health_info :
  health_checks st !! agent_name = Some health_info ->
  let tgt := target health_info in
  let r := restart_agent clock send_message subprocess_run agent_name st in
  (~ steps_complete send_message subprocess_run agent_name health_info st /\
   exists evs, probes_sent evs = 0%nat /\ r = (Ok tt, extend st evs))
  \/ (steps_complete send_message subprocess_run agent_name health_info st /\
      r = (Ok tt, mark_responsive agent_name (clock (5 + tick st)%nat)
                    (extend st (restart_events agent_name tgt)))).
Proof.
  intros Hreg tgt r. subst r. unfold restart_agent, steps_complete.
  rewrite Hreg. fold tgt. cbv zeta.
  rewrite (emit_once (Run (interrupt_argv tgt)) st), !emit_extend.
  cbn [app extend tick length Nat.add].
  destruct (subprocess_run (tick st) (interrupt_argv tgt)) as [u1 | e1].
  2: { left. split; [intros ([u Hu] & _); discriminate |].
       eexists. split; [| reflexivity]. reflexivity. }
  destruct (subprocess_run (S (S (tick st))) (relaunch_argv tgt))
    as [u2 | e2] eqn:E2.
  2: { left. split; [intros (_ & [u Hu] & _); cbn in Hu; congruence |].
       eexists. split; [| reflexivity]. reflexivity. }
  destruct (send_message (S (S (S (S (tick st))))) tgt
                         (reinit_msg agent_name)) as [b | e3] eqn:E3.
  2: { left. split; [intros (_ & _ & [b Hb]); cbn in Hb; congruence |].
       eexists. split; [| reflexivity]. reflexivity. }
  right. split; [| reflexivity].
  split; [eauto |]. split; cbn; eauto.
Qed.

(** After the probe of a registered agent has failed, the agent is
    still registered with one more failure and the same configuration. *)
Lemma lookup_after_failure agent_name st health_info evs :
  health_checks st !! agent_name = Some health_info ->
  health_checks (add_failure agent_name (extend st evs)) !! agent_name
  = Some {| target := target health_info;
            last_response := last_response health_info;
            consecutive_failures := (consecutive_failures health_info + 1)%Z;
            config := config health_info |}.
Proof.
  intros Hreg. rewrite lookup_add_failure, decide_True by reflexivity.
  cbn [extend health_checks]. now rewrite Hreg.
Qed.

Lemma check_one_noop :
  forall clock send_message capture_pane subprocess_run recovery_strategies
         agent_name st health_info,
    health_checks st !! agent_name = Some health_info ->
    (consecutive_failures health_info + 1
     < default 3 (get_max_failures (config health_info)))%Z
    \/ default "restart"%string (get_recovery_strategy (config health_info))
       = "notify_only"%string
    \/ (default "restart"%string
                (get_recovery_strategy (config health_info))
        <> "restart"%string /\
        recovery_strategies
          !! default "restart"%string
                     (get_recovery_strategy (config health_info)) = None) ->
    check_one clock send_message capture_pane subprocess_run
              recovery_strategies agent_name st
    = snd (check_agent_health clock send_message capture_pane agent_name st).
Proof.
  intros clock send_message capture_pane subprocess_run recovery_strategies
         agent_name st health_info Hreg Hcond.
  unfold check_one.
  assert (Hnoop : forall evs,
    handle_unhealthy_agent clock send_message subprocess_run
      recovery_strategies agent_name
      (add_failure agent_name (extend st evs))
    = (Ok tt, add_failure agent_name (extend st evs))).
  { intros evs. unfold handle_unhealthy_agent.
    rewrite (lookup_after_failure agent_name st health_info evs Hreg).
    cbn [consecutive_failures config].
    destruct (Z.leb_spec
                (default 3%Z (get_max_failures (config health_info)))
                (consecutive_failures health_info + 1)) as [Hge | Hlt];
      [| reflexivity].
    destruct Hcond as [Hlt | [Hn | [Hne Hnone]]]; [lia | |].
    - rewrite Hn. reflexivity.
    - apply String.eqb_neq in Hne. rewrite Hne, Hnone.
      now destruct (String.eqb _ "notify_only"). }
  destruct (check_agent_health_cases clock send_message capture_pane
              agent_name st health_info Hreg)
    as [[_ ->] | [[_ ->] | [_ ->]]]; cbn [fst snd];
    rewrite ?Hnoop; reflexivity.
Qed.

(** X15.  A check cycle of a registered agent is the liveness probe
    alone, with no recovery action at all, when the failure counter
    after a failed probe is still below max_failures (3 when not
    configured), when the strategy is notify_only, or when the strategy
    is neither restart nor a registered custom one. *)
Theorem recovery_is_noop :
  forall clock send_message capture_pane subprocess_run recovery_strategies
         agent_name st health_info,
    health_checks st !! agent_name = Some health_info ->
    (consecutive_failures health_info + 1
     < default 3 (get_max_failures (config health_info)))%Z
    \/ default "restart"%string (get_recovery_strategy (config health_info))
       = "notify_only"%string
    \/ (default "restart"%string
                (get_recovery_strategy (config health_info))
        <> "restart"%string /\
        recovery_strategies
          !! default "restart"%string
                     (get_recovery_strategy (config health_info)) = None) ->
    check_one clock send_message capture_pane subprocess_run
              recovery_strategies agent_name st
    = snd (check_agent_health clock send_message capture_pane agent_name st).
Proof. exact check_one_noop. Qed.

Lemma recovery_is_noop_witness :
  check_one (fun _ => 7%Z) (fun _ _ _ => Ok false)
            (fun _ _ => Ok ""%string) always_runs ∅ "dev"
            {| health_checks :=
                 {[ "dev"%string :=
                      {| target := "demo:1";
                         last_response := 0;
                         consecutive_failures := 9;
                         config :=
                           {| get_max_failures := None;
                              get_recovery_strategy :=
                                Some "notify_only"%string |} |} ]};
               tick := 0;
               log := [] |}
  = snd (check_agent_health (fun _ => 7%Z) (fun _ _ _ => Ok false)
           (fun _ _ => Ok ""%string) "dev"
           {| health_checks :=
                {[ "dev"%string :=
                     {| target := "demo:1";
                        last_response := 0;
                        consecutive_failures := 9;
                        config :=
                          {| get_max_failures := None;
                             get_recovery_strategy :=
                               Some "notify_only"%string |} |} ]};
              tick := 0;
              log := [] |}).
Proof.
  eapply recovery_is_noop.
  - reflexivity.
  - right. left. reflexivity.
Defined.











(** X17.  With the restart strategy, a max_failures of at least 1, and
    a tmux whose commands and messages never raise, a check cycle of a
    registered agent leaves its failure counter below max_failures: the
    probe that reaches the threshold triggers the restart, which resets
    the counter.  A counter that was not negative stays so. *)
Theorem restart_keeps_counter_below_threshold :
  forall clock send_message capture_pane subprocess_run recovery_strategies
         agent_name st health_info,
    (forall k argv, exists u, subprocess_run k argv = Ok u) ->
    (forall k tgt msg, exists b, send_message k tgt msg = Ok b) ->
    health_checks st !! agent_name = Some health_info ->
    default "restart"%string (get_recovery_strategy (config health_info))
    = "restart"%string ->
    (1 <= default 3 (get_max_failures (config health_info)))%Z ->
    exists health_info',
      health_checks
        (check_one clock send_message capture_pane subprocess_run
                   recovery_strategies agent_name st) !! agent_name
      = Some health_info' /\
      config health_info' = config health_info /\
      (consecutive_failures health_info'
       < default 3 (get_max_failures (config health_info)))%Z /\
      (0 <= consecutive_failures health_info ->
       0 <= consecutive_failures health_info')%Z.
Proof.
  intros clock send_message capture_pane subprocess_run recovery_strategies
         agent_name st health_info Hrun Hsend Hreg Hstrat Hmax.
  unfold check_one.
  assert (Hfail : forall evs,
    exists health_info',
      health_checks
        (snd (handle_unhealthy_agent clock send_message subprocess_run
                recovery_strategies agent_name
                (add_failure agent_name (extend st evs)))) !! agent_name
      = Some health_info' /\
      config health_info' = config health_info /\
      (consecutive_failures health_info'
       < default 3 (get_max_failures (config health_info)))%Z /\
      (0 <= consecutive_failures health_info ->
       0 <= consecutive_failures health_info')%Z).
  { intros evs.
    pose proof (lookup_after_failure agent_name st health_info evs Hreg)
      as Hreg1.
    unfold handle_unhealthy_agent. rewrite Hreg1.
    cbn [consecutive_failures config].
    destruct (Z.leb_spec
                (default 3%Z (get_max_failures (config health_info)))
                (consecutive_failures health_info + 1)) as [Hge | Hlt].
    - rewrite Hstrat. cbn [String.eqb Ascii.eqb Bool.eqb].
      destruct (restart_agent_cases clock send_message subprocess_run
                  agent_name _ _ Hreg1) as [[Hno _] | [_ ->]].
      + exfalso. apply Hno. unfold steps_complete. repeat split; auto.
      + cbn [snd]. rewrite lookup_mark_responsive, decide_True by reflexivity.
        cbn [extend health_checks]. rewrite Hreg1.
        eexists. split; [reflexivity |]. cbn. repeat split; lia.
    - cbn [snd]. rewrite Hreg1. eexists. split; [reflexivity |].
      cbn. repeat split; lia. }
  destruct (check_agent_health_cases clock send_message capture_pane
              agent_name st health_info Hreg)
    as [[_ ->] | [[_ ->] | [_ ->]]]; [apply Hfail | apply Hfail |].
  rewrite lookup_mark_responsive, decide_True by reflexivity.
  cbn [extend health_checks]. rewrite Hreg.
  eexists. split; [reflexivity |]. cbn. repeat split; lia.
Qed.

Lemma restart_keeps_counter_below_threshold_witness :
  exists health_info',
    health_checks
      (check_one (fun _ => 7%Z) always_sent (fun _ _ => Ok ""%string)
                 always_runs ∅ "dev" dev_state) !! "dev"%string
    = Some health_info' /\
    config health_info' = config dev_info /\
    (consecutive_failures health_info'
     < default 3 (get_max_failures (config dev_info)))%Z /\
    (0 <= consecutive_failures dev_info ->
     0 <= consecutive_failures health_info')%Z.
Proof.
  apply (restart_keeps_counter_below_threshold (fun _ => 7%Z) always_sent
           (fun _ _ => Ok ""%string) always_runs ∅ "dev"%string dev_state
           dev_info).
  - intros k argv. now exists tt.
  - intros k tgt msg. now exists true.
  - reflexivity.
  - reflexivity.
  - cbn. lia.
Defined.

(** X18.  An agent that has just been registered, or registered again,
    has no failure counted, whatever was recorded for it before; when
    its max_failures is at least 2, its next check cycle is the probe
    alone and leaves the counter at 0 or 1. *)
Theorem fresh_agent_first_cycle :
  forall clock send_message capture_pane subprocess_run recovery_strategies
         agent_name session_target health_config st,
    (2 <= default 3 (get_max_failures health_config))%Z ->
    let st0 := register_agent clock agent_name session_target
                              health_config st in
    health_checks st0 !! agent_name
    = Some {| target := session_target;
              last_response := clock (tick st);
              consecutive_failures := 0;
              config := health_config |} /\
    check_one clock send_message capture_pane subprocess_run
              recovery_strategies agent_name st0
    = snd (check_agent_health clock send_message capture_pane
                              agent_name st0) /\
    exists health_info',
      health_checks
        (check_one clock send_message capture_pane subprocess_run
                   recovery_strategies agent_name st0) !! agent_name
      = Some health_info' /\
      (consecutive_failures health_info' = 0
       \/ consecutive_failures health_info' = 1)%Z.
Proof.
  intros clock send_message capture_pane subprocess_run recovery_strategies
         agent_name session_target health_config st Hmax st0.
  assert (Hreg : health_checks st0 !! agent_name
                 = Some {| target := session_target;
                           last_response := clock (tick st);
                           consecutive_failures := 0;
                           config := health_config |})
    by apply lookup_insert_eq.
  split; [exact Hreg |].
  assert (Hnoop :
    check_one clock send_message capture_pane subprocess_run
              recovery_strategies agent_name st0
    = snd (check_agent_health clock send_message capture_pane
                              agent_name st0)).
  { apply (check_one_noop _ _ _ _ _ _ _ _ Hreg). left. cbn. lia. }
  split; [exact Hnoop |]. rewrite Hnoop.
  destruct (check_agent_health_cases clock send_message capture_pane
              agent_name st0 _ Hreg)
    as [[_ ->] | [[_ ->] | [_ ->]]]; cbn [snd].
  - rewrite (lookup_after_failure _ _ _ _ Hreg). eexists.
    split; [reflexivity |]. now right.
  - rewrite (lookup_after_failure _ _ _ _ Hreg). eexists.
    split; [reflexivity |]. now right.
  - rewrite lookup_mark_responsive, decide_True by reflexivity.
    cbn [extend health_checks]. rewrite Hreg. eexists.
    split; [reflexivity |]. now left.
Qed.

Lemma fresh_agent_first_cycle_witness :
  exists health_info',
    health_checks
      (check_one (fun _ => 7%Z) always_sent (fun _ _ => Ok ""%string)
                 always_fails ∅ "dev"
                 (register_agent (fun _ => 7%Z) "dev" "demo:1"
                    {| get_max_failures := Some 2%Z;
                       get_recovery_strategy := None |} dev_state))
    !! "dev"%string = Some health_info' /\
    (consecutive_failures health_info' = 0
     \/ consecutive_failures health_info' = 1)%Z.
Proof.
  apply (fresh_agent_first_cycle (fun _ => 7%Z) always_sent
           (fun _ _ => Ok ""%string) always_fails ∅ "dev"%string
           "demo:1"%string
           {| get_max_failures := Some 2%Z; get_recovery_strategy := None |}
           dev_state).
  cbn. lia.
Defined.

End HealthExtra.

(** ** orchestrator.py *)

Module OrchestratorExtra.
Import Health HealthSpec HealthExtra.

Lemma length_lower (s : string) : String.length (lower s) = String.length s.
Proof. induction s as [| c s IH]; cbn; [reflexivity | now rewrite IH]. Qed.

Lemma substring_lower (s : string) (i n : nat) :
  substring i n (lower s) = lower (substring i n s).
Proof.
  revert i n. induction s as [| c s IH]; intros i n.
  - destruct i, n; reflexivity.
  - destruct i as [| i]; cbn [lower substring].
    + destruct n as [| n]; [reflexivity |]. cbn [lower]. now rewrite IH.
    + apply IH.
Qed.

Lemma contains_lower (word s : string) :
  contains word s = true -> contains (lower word) (lower s) = true.
Proof.
  rewrite !contains_occurs. intros [i [Hlen Hsub]]. exists i.
  unfold occurs_at. rewrite !length_lower, substring_lower, Hsub.
  split; [assumption | reflexivity].
Qed.

(** X19.  [TmuxManager.send_message] and [TmuxManager.capture_pane]
    never let a [CalledProcessError] out: a failing script gives false
    and a failing capture the empty string.  Used by the health monitor,
    a liveness probe is healthy exactly when the script succeeds and
    tmux captures an output with HEALTHY inside its last 500 characters;
    a failing script or a failing capture adds one failure to the
    agent. *)
Theorem tmux_failure_is_probe_failure :
  forall clock script_path subprocess_run subprocess_output
         agent_name st health_info,
    let send := Orchestrator.send_message script_path subprocess_run in
    let capture := Orchestrator.capture_pane subprocess_output in
    let sent := subprocess_run (tick st)
                  [script_path; target health_info; health_check_msg] in
    let captured :=
      subprocess_output (2 + tick st)%nat
        ["tmux"; "capture-pane"; "-t"; target health_info; "-p"]%string in
    health_checks st !! agent_name = Some health_info ->
    (forall k tgt msg, send k tgt msg <> Raise CalledProcessError) /\
    (forall k tgt, capture k tgt <> Raise CalledProcessError) /\
    exists is_healthy st' health_info',
      check_agent_health clock send capture agent_name st
      = (is_healthy, st') /\
      health_checks st' !! agent_name = Some health_info' /\
      (is_healthy = true <->
       exists u out i,
         sent = Ok u /\ captured = Ok out /\
         (String.length out - 500 <= i)%nat /\ occurs_at "HEALTHY" out i) /\
      (is_healthy = false ->
       consecutive_failures health_info'
       = (consecutive_failures health_info + 1)%Z) /\
      (sent = Raise CalledProcessError -> is_healthy = false) /\
      (captured = Raise CalledProcessError -> is_healthy = false).
Proof.
  intros clock script_path subprocess_run subprocess_output agent_name st
         health_info send capture sent captured Hreg.
  split.
  { intros k tgt msg. unfold send, Orchestrator.send_message.
    destruct (subprocess_run k _) as [u | []]; discriminate. }
  split.
  { intros k tgt. unfold capture, Orchestrator.capture_pane.
    destruct (subprocess_output k _) as [u | []]; discriminate. }
  assert (Hempty : contains "HEALTHY" (last_chars 500 "") = false)
    by reflexivity.
  unfold check_agent_health. rewrite Hreg. cbv zeta.
  rewrite (emit_once (SendMessage (target health_info) health_check_msg) st),
    !emit_extend.
  cbn [app extend tick length Nat.add].
  unfold send at 1, Orchestrator.send_message. fold sent.
  assert (Hfailed : forall evs,
    health_checks (add_failure agent_name (extend st evs)) !! agent_name
    = Some {| target := target health_info;
              last_response := last_response health_info;
              consecutive_failures :=
                (consecutive_failures health_info + 1)%Z;
              config := config health_info |})
    by (intros evs; now apply lookup_after_failure).
  destruct sent as [u | e] eqn:Esent.
  - unfold capture at 1, Orchestrator.capture_pane.
    change (subprocess_output (S (S (tick st))) _) with captured.
    destruct captured as [out | e] eqn:Ecap.
    + pose proof (contains_last_chars "HEALTHY" out 500) as Hwin.
      destruct (contains "HEALTHY" (last_chars 500 out)) eqn:E.
      * eexists true, _, _. split; [reflexivity |].
        split; [rewrite lookup_mark_responsive, decide_True by reflexivity;
                cbn [extend health_checks]; rewrite Hreg; reflexivity |].
        split; [| repeat split; discriminate].
        split; [| reflexivity]. intros _.
        destruct Hwin as [Hwin _]. destruct (Hwin eq_refl) as (i & Hi & Ho).
        now exists u, out, i.
      * eexists false, _, _. split; [reflexivity |].
        split; [apply Hfailed |].
        split; [| repeat split; reflexivity].
        split; [discriminate |]. intros (u' & out' & i & _ & [= <-] & Hi & Ho).
        destruct Hwin as [_ Hwin].
        assert (false = true) by (apply Hwin; now exists i). discriminate.
    + destruct e; rewrite ?Hempty;
        (eexists false, _, _; split; [reflexivity |];
         split; [apply Hfailed |];
         split; [split; [discriminate | intros (_ & _ & _ & _ & [=] & _)] |];
         repeat split; reflexivity).
  - destruct e;
      (eexists false, _, _; split; [reflexivity |];
       split; [apply Hfailed |];
       split; [split; [discriminate | intros (_ & _ & _ & [=] & _)] |];
       repeat split; reflexivity).
Qed.

Lemma tmux_failure_is_probe_failure_witness :
  exists is_healthy st' health_info',
    check_agent_health (fun _ => 7%Z)
      (Orchestrator.send_message "send-claude-message.sh" always_fails)
      (Orchestrator.capture_pane (fun _ _ => Ok "HEALTHY"%string))
      "dev" dev_state = (is_healthy, st') /\
    health_checks st' !! "dev"%string = Some health_info' /\
    is_healthy = false /\
    consecutive_failures health_info' = 4%Z.
Proof.
  destruct (tmux_failure_is_probe_failure (fun _ => 7%Z)
              "send-claude-message.sh"%string always_fails
              (fun _ _ => Ok "HEALTHY"%string) "dev"%string dev_state
              dev_info eq_refl)
    as (_ & _ & b & st' & hi' & Hcheck & Hlook & _ & Hfail & Hsent & _).
  exists b, st', hi'. split; [exact Hcheck |]. split; [exact Hlook |].
  assert (Hb : b = false) by (apply Hsent; reflexivity).
  split; [exact Hb |]. now apply Hfail.
Defined.

(** X20.  [AgentManager.check_agent_health] reports not_found for an
    unknown agent without capturing anything.  For an active agent whose
    pane is captured, the status is error exactly when the lower-cased
    output contains "error" or "exception", and then has_errors is set;
    otherwise it is inactive when the output has fewer than 10
    characters and healthy when it has at least 10; responsive is true
    exactly when the output has at least 10 characters, also when the
    status is error.  An output that contains an error word in any
    letter case has the status error. *)
Theorem agent_status_classification :
  forall clock capture k agent_name
         (active_agents : gmap string Orchestrator.ActiveAgent),
    (active_agents !! agent_name = None ->
     Orchestrator.check_agent_health clock capture k agent_name active_agents
     = Ok Orchestrator.NotFound) /\
    (forall agent out,
       active_agents !! agent_name = Some agent ->
       capture k (Orchestrator.agent_target agent) = Ok out ->
       exists hs,
         Orchestrator.check_agent_health clock capture k agent_name
                                         active_agents
         = Ok (Orchestrator.Found hs) /\
         Orchestrator.recent_output_length hs = String.length out /\
         Orchestrator.uptime hs
         = (clock (S k) - Orchestrator.deployed_at agent)%Z /\
         (Orchestrator.responsive hs = true
          <-> (10 <= String.length out)%nat) /\
         (Orchestrator.has_errors hs = true <->
          contains "error" (lower out) = true
          \/ contains "exception" (lower out) = true) /\
         (Orchestrator.status hs = "error"%string
          <-> Orchestrator.has_errors hs = true) /\
         (Orchestrator.status hs = "inactive"%string
          <-> Orchestrator.has_errors hs = false
              /\ (String.length out < 10)%nat) /\
         (Orchestrator.status hs = "healthy"%string
          <-> Orchestrator.has_errors hs = false
              /\ (10 <= String.length out)%nat) /\
         (forall word,
            lower word = "error"%string \/ lower word = "exception"%string ->
            contains word out = true ->
            Orchestrator.status hs = "error"%string)).
Proof.
  intros clock capture k agent_name active_agents. split.
  - intros H. unfold Orchestrator.check_agent_health. now rewrite H.
  - intros agent out Hagent Hcap.
    unfold Orchestrator.check_agent_health. rewrite Hagent, Hcap.
    cbn [bind]. eexists. split; [reflexivity |].
    cbn [Orchestrator.recent_output_length Orchestrator.uptime
         Orchestrator.responsive Orchestrator.has_errors
         Orchestrator.status].
    split; [reflexivity |]. split; [reflexivity |].
    set (inactive := ((String.length out =? 0)%nat
                      || (String.length out <? 10)%nat)).
    set (erroneous := contains "error" (lower out)
                      || contains "exception" (lower out)).
    assert (Hcase : (inactive = true /\ (String.length out < 10)%nat)
                    \/ (inactive = false /\ (10 <= String.length out)%nat)).
    { subst inactive.
      destruct (Nat.ltb_spec (String.length out) 10) as [Hlt | Hge].
      - left. split; [apply orb_true_r | assumption].
      - right. split; [| assumption].
        destruct (Nat.eqb_spec (String.length out) 0); [lia | reflexivity]. }
    assert (Herr : erroneous = true <->
                   contains "error" (lower out) = true
                   \/ contains "exception" (lower out) = true)
      by apply orb_true_iff.
    assert (Hword : forall word,
      lower word = "error"%string \/ lower word = "exception"%string ->
      contains word out = true -> erroneous = true).
    { intros word Hw Hin. apply contains_lower in Hin. apply Herr.
      destruct Hw as [Hw | Hw]; rewrite Hw in Hin; auto. }
    clearbody inactive erroneous.
    split; [destruct Hcase as [[-> Hl] | [-> Hl]]; cbn; split; intros;
            (lia || discriminate || reflexivity) |].
    split; [exact Herr |].
    split; [destruct erroneous, inactive; split; intros;
            (discriminate || reflexivity) |].
    split; [destruct Hcase as [[-> Hl] | [-> Hl]]; destruct erroneous;
            split; intros H; try discriminate H; try (split; [reflexivity |]);
            try reflexivity; try lia; destruct H as [H1 H2];
            (discriminate || lia) |].
    split; [destruct Hcase as [[-> Hl] | [-> Hl]]; destruct erroneous;
            split; intros H; try discriminate H; try (split; [reflexivity |]);
            try reflexivity; try lia; destruct H as [H1 H2];
            (discriminate || lia) |].
    intros word Hw Hin. now rewrite (Hword word Hw Hin).
Qed.

Lemma lookup_fold_delete (ks : list string)
    (m : gmap string Orchestrator.ActiveAgent) (a : string) :
  fold_left (fun agents k => delete k agents) ks m !! a
  = if decide (a ∈ ks) then None else m !! a.
Proof.
  revert m. induction ks as [| k ks IH]; intros m; cbn [fold_left].
  - rewrite decide_False; [reflexivity | apply not_elem_of_nil].
  - rewrite IH. destruct (decide (a ∈ ks)) as [Hin | Hnot].
    + rewrite decide_True; [reflexivity | apply elem_of_cons; now right].
    + destruct (decide (k = a)) as [-> | Hne].
      * rewrite decide_True by (apply elem_of_cons; now left).
        apply lookup_delete_eq.
      * rewrite decide_False.
        -- now apply lookup_delete_ne.
        -- intros H. apply elem_of_cons in H as [H | H]; congruence.
Qed.

Lemma in_agents_to_remove session_name
    (active_agents : gmap string Orchestrator.ActiveAgent) (a : string) :
  In a (Orchestrator.agents_to_remove session_name active_agents) <->
  exists agent, active_agents !! a = Some agent
                /\ Orchestrator.session agent = session_name.
Proof.
  unfold Orchestrator.agents_to_remove. rewrite in_map_iff. split.
  - intros ([k agent] & <- & Hin). apply filter_In in Hin as [Hin Hs].
    apply list_elem_of_In, elem_of_map_to_list in Hin.
    exists agent. split; [assumption |]. now apply String.eqb_eq.
  - intros (agent & Hlook & Hs). exists (a, agent). split; [reflexivity |].
    apply filter_In. split.
    + now apply list_elem_of_In, elem_of_map_to_list.
    + now apply String.eqb_eq.
Qed.

Lemma session_of_inj (p q : string) :
  Orchestrator.session_of p = Orchestrator.session_of q -> p = q.
Proof.
  intros H. cbv [Orchestrator.session_of String.append] in H.
  now injection H.
Qed.

(** X21.  [cleanup_project] removes from [active_agents] exactly the
    agents whose session is that of the project, and it has done so
    whether the kill of the tmux session succeeds, fails with
    [CalledProcessError] (which it swallows) or raises something else;
    the agents of every other project keep their entries. *)
Theorem cleanup_removes_only_project_agents :
  forall subprocess_run k project_name
         (active_agents : gmap string Orchestrator.ActiveAgent),
    let r := Orchestrator.cleanup_project subprocess_run k project_name
                                          active_agents in
    (forall a,
       snd r !! a
       = match active_agents !! a with
         | Some agent =>
             if String.eqb (Orchestrator.session agent)
                           (Orchestrator.session_of project_name)
             then None else Some agent
         | None => None
         end) /\
    (forall other a agent,
       other <> project_name ->
       active_agents !! a = Some agent ->
       Orchestrator.session agent = Orchestrator.session_of other ->
       snd r !! a = Some agent) /\
    fst r <> Raise CalledProcessError.
Proof.
  intros subprocess_run k project_name active_agents r.
  assert (Hsnd : snd r
                 = fold_left (fun agents a => delete a agents)
                     (Orchestrator.agents_to_remove
                        (Orchestrator.session_of project_name)
                        active_agents)
                     active_agents).
  { subst r. unfold Orchestrator.cleanup_project.
    destruct (subprocess_run k _) as [u | []]; reflexivity. }
  assert (Hlook : forall a,
    snd r !! a
    = match active_agents !! a with
      | Some agent =>
          if String.eqb (Orchestrator.session agent)
                        (Orchestrator.session_of project_name)
          then None else Some agent
      | None => None
      end).
  { intros a. rewrite Hsnd, lookup_fold_delete.
    destruct (decide (a ∈ Orchestrator.agents_to_remove
                            (Orchestrator.session_of project_name)
                            active_agents)) as [Hin | Hnot].
    - apply list_elem_of_In, in_agents_to_remove in Hin
        as (agent & -> & Hs).
      apply String.eqb_eq in Hs. now rewrite Hs.
    - destruct (active_agents !! a) as [agent |] eqn:E; [| reflexivity].
      destruct (String.eqb_spec (Orchestrator.session agent)
                  (Orchestrator.session_of project_name)) as [Hs | Hs];
        [| reflexivity].
      exfalso. apply Hnot. apply list_elem_of_In, in_agents_to_remove.
      eauto. }
  split; [exact Hlook |]. split.
  - intros other a agent Hne Hagent Hs. rewrite Hlook, Hagent.
    destruct (String.eqb_spec (Orchestrator.session agent)
                (Orchestrator.session_of project_name)) as [Hs' | Hs'];
      [| reflexivity].
    exfalso. apply Hne. apply session_of_inj. congruence.
  - subst r. unfold Orchestrator.cleanup_project.
    destruct (subprocess_run k _) as [u | []]; discriminate.
Qed.

End OrchestratorExtra.
